(** * Rime dictionary tools: line transformer and safe rewrite

    A shallow embedding of [MainRime.py], [rime_dict_replace_in_place_base.py]
    and [remove_auxiliary_code.py].  Python strings are sequences of Unicode
    code points; a dictionary is a finite map; the file system is a finite map
    from paths to byte contents. *)

From stdpp Require Import gmap strings list.
From Stdlib Require Import Strings.Byte.

Local Open Scope N_scope.

(** ** Python strings *)

(** A [str] is a list of code points. *)
Abbreviation str := (list N).

(** ASCII literal to [str]. *)
Definition lit (s : string) : str :=
  (λ a, Ascii.N_of_ascii a) <$> String.list_ascii_of_string s.

Definition TAB : N := 9.
Definition LF : N := 10.
Definition CR : N := 13.
Definition SPACE : N := 32.
Definition HASH : N := 35.
Definition SEMI : N := 59.
Definition LBRACK : N := 91.

(** [str.isspace] on one code point: the characters Python treats as
    whitespace in [str.split()] and [str.strip()]. *)
Definition isspace (c : N) : bool :=
  ((9 <=? c) && (c <=? 13)) || ((28 <=? c) && (c <=? 32))
  || (c =? 133) || (c =? 160) || (c =? 5760)
  || ((8192 <=? c) && (c <=? 8202))
  || (c =? 8232) || (c =? 8233) || (c =? 8239) || (c =? 8287) || (c =? 12288).

Fixpoint take_while (p : N → bool) (s : str) : str :=
  match s with
  | [] => []
  | c :: r => if p c then c :: take_while p r else []
  end.

Fixpoint drop_while (p : N → bool) (s : str) : str :=
  match s with
  | [] => []
  | c :: r => if p c then drop_while p r else s
  end.

(** Split at every character satisfying [p], keeping empty pieces: the common
    core of [s.split(sep)] for a one-character [sep] and of [re.split] for a
    one-character class. The result is never empty. *)
Fixpoint split_by (p : N → bool) (s : str) : list str :=
  match s with
  | [] => [[]]
  | c :: r =>
      if p c then [] :: split_by p r
      else match split_by p r with
           | w :: ws => (c :: w) :: ws
           | [] => [[c]]
           end
  end.

(** [s.split(sep)] for a single character [sep]. *)
Definition split_on (sep : N) (s : str) : list str := split_by (N.eqb sep) s.

Definition nonempty (s : str) : bool :=
  match s with [] => false | _ => true end.

(** [s.split()]: runs of whitespace separate, no empty strings in the result. *)
Definition py_split (s : str) : list str := filter (λ w, nonempty w = true) (split_by isspace s).

(** [s.strip()]. *)
Definition py_strip (s : str) : str :=
  reverse (drop_while isspace (reverse (drop_while isspace s))).

(** [sep.join(l)]. *)
Fixpoint py_join (sep : str) (l : list str) : str :=
  match l with
  | [] => []
  | [x] => x
  | x :: r => x ++ sep ++ py_join sep r
  end.

Fixpoint startswith (p s : str) : bool :=
  match p, s with
  | [], _ => true
  | a :: p', b :: s' => (a =? b) && startswith p' s'
  | _ :: _, [] => false
  end.

Definition endswith (p s : str) : bool := startswith (reverse p) (reverse s).

(** [sub in s]. *)
Fixpoint contains (sub s : str) : bool :=
  startswith sub s || match s with [] => false | _ :: r => contains sub r end.

(** ** Configuration constants *)

(** [AUX_SEP_REGEX = r'[;\[]']: one character, semicolon or opening bracket. *)
Definition aux_sep (c : N) : bool := (c =? SEMI) || (c =? LBRACK).

(** [re.split(AUX_SEP_REGEX, s)]. *)
Definition re_split_aux_sep (s : str) : list str := split_by aux_sep s.

Definition yaml_heads : list str :=
  [lit "---"; lit "name:"; lit "version:"; lit "sort:"; lit "..."].

(** ** Strip mode *)

(** [remove_auxiliary_code_from_line], MainRime.py. *)
Definition remove_auxiliary_code_from_line (line : str) (userdb : bool) : str :=
  let cols := split_on TAB line in
  let strip_at (pinyin_index : nat) :=
    let pinyins := py_split (default [] (cols !! pinyin_index)) in
    let processed_pinyins :=
      pinyins ≫= (λ pinyin_part,
        match split_on SEMI pinyin_part with
        | p0 :: _ => [p0]
        | [] => []
        end) in
    py_join [TAB] (<[pinyin_index := py_join [SPACE] processed_pinyins]> cols) in
  if userdb && (1 <=? length cols)%nat then strip_at 0%nat
  else if negb userdb && (2 <=? length cols)%nat then strip_at 1%nat
  else line.

(** The per-line body of the ad-hoc script remove_auxiliary_code.py
    (lines 64-85): always the second column, no mode flag. *)
Definition variant_strip_line (line : str) : str :=
  let parts := split_on TAB line in
  if (2 <=? length parts)%nat then
    let pinyins := py_split (default [] (parts !! 1%nat)) in
    let processed_pinyins :=
      pinyins ≫= (λ pinyin,
        match split_on SEMI pinyin with
        | p0 :: _ => [p0]
        | [] => []
        end) in
    py_join [TAB] (<[1%nat := py_join [SPACE] processed_pinyins]> parts)
  else line.

(** The index of the transcription column in each layout. *)
Definition pinyin_index (userdb : bool) : nat := if userdb then 0%nat else 1%nat.

(** The transcription column of a line; empty when the line is too short. *)
Definition pinyin_column (line : str) (userdb : bool) : str :=
  default [] (split_on TAB line !! pinyin_index userdb).

(** The text of a segment before its first semicolon. *)
Definition before_semicolon (seg : str) : str :=
  take_while (λ c, negb (N.eqb SEMI c)) seg.

(** What strip mode is meant to leave in the transcription column: the part
    of each segment before its first semicolon, joined by single spaces. *)
Definition stripped_column (col : str) : str :=
  py_join [SPACE] (before_semicolon <$> py_split col).

(** ** External collaborators *)

(** The pypinyin package. [pinyin ignore text] stands for
    [pinyin(text, style=Style.TONE, heteronym=False)], with [errors='ignore']
    when [ignore] is set: one list of candidates per unit of [text], or [None]
    when the call raises. *)
Class Pypinyin := {
  pinyin : bool → str → option (list (list str))
}.

(** What the Python runtime and the operating system supply: the Unicode digit
    table behind [str.isdigit], the strict codecs, the text-mode encoder of
    the temporary file and [os.path.basename]. *)
Class Platform := {
  unicode_isdigit : N → bool;
  decode_utf8 : list byte → option str;
  decode_gbk : list byte → option str;
  encode_text : str → option (list byte);
  basename : string → string
}.

(** The switches of the configuration area. *)
Record config := {
  REFRESH_PINYIN : bool;
  REFRESH_AUX_CODE : bool;
  HAS_PYPINYIN : bool
}.

Definition shipped_config : config :=
  {| REFRESH_PINYIN := true; REFRESH_AUX_CODE := true; HAS_PYPINYIN := true |}.

Definition skip_set : list string :=
  ["compatible.dict.yaml"; "corrections.dict.yaml"; "chars.dict.yaml";
   "people.dict.yaml"; "encnnum.dict.yaml"]%string.

(** ** Python list operations that can raise *)

(** [l[i] = x]: [IndexError] out of range. *)
Definition py_setitem (l : list str) (i : nat) (x : str) : option (list str) :=
  if (i <? length l)%nat then Some (<[i := x]> l) else None.

(** [l.insert(i, x)]: never raises, appends when [i] is past the end. *)
Definition py_insert (i : nat) (x : str) (l : list str) : list str :=
  take i l ++ x :: drop i l.

(** ** Format classifier *)

Definition is_userdb_head (line : str) : bool :=
  contains (lit "#@/db_type" ++ [TAB] ++ lit "userdb") line
  || contains (lit "# Rime user dictionary") line.

(** [line.startswith(yaml_heads) or line.startswith('#')]. *)
Definition is_control (line : str) : bool :=
  existsb (λ h, startswith h line) yaml_heads || startswith [HASH] line.

(** [not line.strip()]. *)
Definition is_blank (line : str) : bool := negb (nonempty (py_strip line)).

(** ** Refresh mode, per line *)

Section Refresh.
Context `{Pypinyin} `{Platform}.
Variable cfg : config.

(** [s.isdigit()]: non-empty and every character a digit. *)
Definition py_isdigit (s : str) : bool := nonempty s && forallb unicode_isdigit s.

(** The root of a segment, [re.split(AUX_SEP_REGEX, seg)[0]]. *)
Definition seg_root (seg : str) : option str := re_split_aux_sep seg !! 0%nat.

(** [tone_mark]: the root re-marked by the service, the suffix kept. *)
Definition tone_mark (seg : str) : option str :=
  if negb (HAS_PYPINYIN cfg) then Some seg
  else
    root ← seg_root seg;
    let suffix := drop (length root) seg in
    py ← pinyin true root;
    match py with
    | [] => Some (root ++ suffix)
    | p :: _ => c ← p !! 0%nat; Some (c ++ suffix)
    end.

(** [[p[0] for p in pinyin(word, style=Style.TONE, heteronym=False)]]. *)
Definition char_py_of (word : str) : option (list str) :=
  ps ← pinyin false word; mapM (λ p : list str, p !! 0%nat) ps.

(** [char_py[i] if i < len(char_py) else tone_mark(seg)]. *)
Definition base_py_for (char_py : list str) (i : nat) (seg : str) : option str :=
  if (i <? length char_py)%nat then char_py !! i else tone_mark seg.

(** The loop [for i, seg in enumerate(segs)] of the user-dictionary branch,
    started at index [i]. *)
Fixpoint userdb_new_segs (char_py : list str) (i : nat) (segs : list str)
  : option (list str) :=
  match segs with
  | [] => Some []
  | seg :: rest =>
      base_py ← base_py_for char_py i seg;
      root ← seg_root seg;
      let suffix := drop (length root) seg in
      new_rest ← userdb_new_segs char_py (S i) rest;
      Some ((base_py ++ suffix) :: new_rest)
  end.

(** The loop [for i, py in enumerate(char_py)] of the plain branch. *)
Fixpoint plain_new_segs (segs : list str) (i : nat) (char_py : list str)
  : option (list str) :=
  match char_py with
  | [] => Some []
  | py :: rest =>
      suffix ← (if (i <? length segs)%nat then
                  seg ← segs !! i;
                  root ← seg_root seg;
                  Some (drop (length root) seg)
                else Some []);
      new_rest ← plain_new_segs segs (S i) rest;
      Some ((py ++ suffix) :: new_rest)
  end.

(** The body of the [try] under [if REFRESH_PINYIN and HAS_PYPINYIN]:
    [None] when something raised. Every assignment to [cols] is the last
    statement of its branch, so a raise leaves [cols] as it was. The two
    inner [if not word.strip()] tests repeat a test already passed and are
    left out. *)
Definition refresh_pinyin (userdb : bool) (word : str) (cols : list str)
  : option (list str) :=
  if userdb && (3 <=? length cols)%nat then
    let segs := py_split (default [] (cols !! 0%nat)) in
    char_py ← char_py_of word;
    new_segs ← userdb_new_segs char_py 0 segs;
    Some (<[0%nat := py_join [SPACE] new_segs]> cols)
  else
    char_py ← char_py_of word;
    if (length cols =? 1)%nat then Some (cols ++ [py_join [SPACE] char_py])
    else if (2 <=? length cols)%nat && py_isdigit (default [] (cols !! 1%nat)) then
      Some ([word; py_join [SPACE] char_py] ++ drop 1 cols)
    else if (2 <=? length cols)%nat then
      let segs := py_split (default [] (cols !! 1%nat)) in
      new_segs ← plain_new_segs segs 0 char_py;
      Some (<[1%nat := py_join [SPACE] new_segs]> cols)
    else Some cols.

(** [build_seg_by_aux]: [aux_map.get(ch, '')] for each character. *)
Definition build_seg_by_aux (word : str) (aux_map : gmap str str) : list str :=
  (λ ch, default [] (aux_map !! [ch])) <$> word.

(** The loop [for i, py in enumerate(raw_segs)] of the auxiliary refresh. *)
Fixpoint merge_aux (aux_segs : list str) (i : nat) (raw_segs : list str)
  : option (list str) :=
  match raw_segs with
  | [] => Some []
  | py :: rest =>
      aux ← (if (i <? length aux_segs)%nat then aux_segs !! i else Some []);
      root ← seg_root py;
      merged_rest ← merge_aux aux_segs (S i) rest;
      Some ((root ++ [SEMI] ++ aux) :: merged_rest)
  end.

(** How a [try] block ends: normally, or in the [except] clause; either way
    with the columns as they then are. *)
Inductive attempt :=
| Done (cols : list str)
| Raised (cols : list str).

Definition cols_of (a : attempt) : list str :=
  match a with Done c => c | Raised c => c end.

Definition raised (a : attempt) : bool :=
  match a with Done _ => false | Raised _ => true end.

(** The body of the [try] under [if REFRESH_AUX_CODE and aux_map]. *)
Definition refresh_aux_code (userdb : bool) (word : str) (aux_map : gmap str str)
    (cols : list str) : attempt :=
  let seg_idx := if userdb then 0%nat else 1%nat in
  let cols1 :=
    if negb userdb && (length cols =? 1)%nat then py_insert 1 [] cols
    else if userdb && (length cols <? 2)%nat then cols ++ [[]]
    else cols in
  let '(raw_segs, cols2) :=
    if (seg_idx <? length cols1)%nat
    then (py_split (py_strip (default [] (cols1 !! seg_idx))), cols1)
    else ([], if userdb then py_insert 0 [] cols1 else py_insert 1 [] cols1) in
  let aux_segs := build_seg_by_aux word aux_map in
  match merge_aux aux_segs 0 raw_segs with
  | None => Raised cols2
  | Some merged =>
      if userdb then
        match py_setitem cols2 0 (py_join [SPACE] merged) with
        | Some c => Done c
        | None => Raised cols2
        end
      else if bool_decide (merged ≠ []) then
        match py_setitem cols2 seg_idx (py_join [SPACE] merged) with
        | Some c => Done c
        | None => Raised cols2
        end
      else Done cols2
  end.

(** The step after both sub-operations: a user-dictionary line gets a
    space at the end of its first column when that column has none. *)
Definition userdb_trailing_space (userdb : bool) (cols : list str) : list str :=
  if userdb && bool_decide (cols ≠ []) && (0 <? length cols)%nat then
    match cols !! 0%nat with
    | Some c0 => if negb (endswith [SPACE] c0) then <[0%nat := c0 ++ [SPACE]]> cols else cols
    | None => cols
    end
  else cols.

(** The columns after the transcription step. *)
Definition after_pinyin (userdb : bool) (word : str) (cols : list str) : list str :=
  if REFRESH_PINYIN cfg && HAS_PYPINYIN cfg then
    default cols (refresh_pinyin userdb word cols)
  else cols.

(** The columns after the auxiliary-code step; [if aux_map] tests that the
    dictionary is not empty. *)
Definition after_aux (userdb : bool) (word : str) (aux_map : gmap str str)
    (cols : list str) : list str :=
  if REFRESH_AUX_CODE cfg && bool_decide (aux_map ≠ ∅) then
    cols_of (refresh_aux_code userdb word aux_map cols)
  else cols.

(** A data line with a non-blank word: both sub-operations, then the
    trailing space. *)
Definition refresh_cols (userdb : bool) (aux_map : gmap str str) (word : str)
    (cols : list str) : list str :=
  userdb_trailing_space userdb
    (after_aux userdb word aux_map (after_pinyin userdb word cols)).

(** One data line of [process_file_in_place]: the processed line and
    whether it counts as modified. *)
Definition process_data_line (userdb : bool) (aux_map : gmap str str) (line : str)
  : str * bool :=
  let cols := split_on TAB line in
  let original_line := py_join [TAB] cols in
  match cols !! (if userdb then 1%nat else 0%nat) with
  | None => (line, false)
  | Some word =>
      if is_blank word then (line, false)
      else
        let processed_line := py_join [TAB] (refresh_cols userdb aux_map word cols) in
        (processed_line, negb (bool_decide (processed_line = original_line)))
  end.

(** The state of the loop over the lines of one file. *)
Record scan := {
  userdb_mode : bool;
  modified : bool;
  processed_lines : list str
}.

Definition scan_start : scan :=
  {| userdb_mode := false; modified := false; processed_lines := [] |}.

(** One iteration of [for line in lines] in [process_file_in_place]. *)
Definition refresh_step (aux_map : gmap str str) (st : scan) (line : str) : scan :=
  if is_control line then
    {| userdb_mode := userdb_mode st || is_userdb_head line;
       modified := modified st;
       processed_lines := processed_lines st ++ [line] |}
  else if is_blank line then
    {| userdb_mode := userdb_mode st;
       modified := modified st;
       processed_lines := processed_lines st ++ [[]] |}
  else
    let '(processed_line, changed) := process_data_line (userdb_mode st) aux_map line in
    {| userdb_mode := userdb_mode st;
       modified := modified st || changed;
       processed_lines := processed_lines st ++ [processed_line] |}.

Definition refresh_lines (aux_map : gmap str str) (lines : list str) : scan :=
  foldl (refresh_step aux_map) scan_start lines.

(** One iteration of [for line in lines] in [remove_auxiliary_code_in_file]. *)
Definition strip_step (st : scan) (line : str) : scan :=
  if is_control line then
    {| userdb_mode := userdb_mode st || is_userdb_head line;
       modified := modified st;
       processed_lines := processed_lines st ++ [line] |}
  else if is_blank line then
    {| userdb_mode := userdb_mode st;
       modified := modified st;
       processed_lines := processed_lines st ++ [[]] |}
  else
    let new_line := remove_auxiliary_code_from_line line (userdb_mode st) in
    {| userdb_mode := userdb_mode st;
       modified := modified st || negb (bool_decide (new_line = line));
       processed_lines := processed_lines st ++ [new_line] |}.

Definition strip_lines (lines : list str) : scan := foldl strip_step scan_start lines.

End Refresh.

(** ** Encoding-tolerant reader *)

Inductive encoding := UTF8 | GBK | LATIN1.

(** Text mode with the default [newline=None]: a carriage return, alone or
    followed by a line feed, reads as one line feed. *)
Fixpoint translate_newlines (s : str) : str :=
  match s with
  | [] => []
  | c :: r =>
      if c =? CR then
        LF :: match r with
              | d :: r' => if d =? LF then translate_newlines r' else translate_newlines r
              | [] => []
              end
      else c :: translate_newlines r
  end.

(** [for line in f]: the lines of a text, each with its terminator. *)
Fixpoint readlines (s : str) : list str :=
  match s with
  | [] => []
  | c :: r =>
      if c =? LF then [LF] :: readlines r
      else match readlines r with
           | l :: ls => (c :: l) :: ls
           | [] => [[c]]
           end
  end.

(** [line.rstrip('\n')]. *)
Definition rstrip_lf (line : str) : str :=
  reverse (drop_while (N.eqb LF) (reverse line)).

Section Reader.
Context `{Platform}.

(** [open(file_path, encoding=e)] read to the end: [None] is
    [UnicodeDecodeError]. Latin-1 maps each byte to the code point of the
    same number. *)
Definition decode (e : encoding) (bs : list byte) : option str :=
  match e with
  | UTF8 => decode_utf8 bs
  | GBK => decode_gbk bs
  | LATIN1 => Some (Byte.to_N <$> bs)
  end.

(** The loop [for encoding in encodings] of [read_file_safely]. *)
Fixpoint try_encodings (encodings : list encoding) (bs : list byte)
  : option (list str) :=
  match encodings with
  | [] => None
  | e :: rest =>
      match decode e bs with
      | Some text => Some (rstrip_lf <$> readlines (translate_newlines text))
      | None => try_encodings rest bs
      end
  end.

(** [read_file_safely], on the bytes of the file. *)
Definition read_file_safely (bs : list byte) : option (list str) :=
  try_encodings [UTF8; GBK; LATIN1] bs.
End Reader.

(** ** File system and the rewrite of one file *)

Record file := { content : list byte; writable : bool }.

Abbreviation fsys := (gmap string file).

(** The step of the rewrite that raises, if any. [WriteFails written]: the
    write raises after [written] has reached the temporary file. *)
Inductive fault :=
| NoFault
| CreateFails
| WriteFails (written : list byte)
| CloseFails
| UnlinkFails
| MoveFails.

(** How the call on one file ends. *)
Inductive report :=
| Skipped
| NotWritable
| Undecodable
| Unmodified
| Replaced
| ReplaceFailed
| WriteFailed.

(** The boolean [process_file_in_place] returns. *)
Definition returned (r : report) : bool :=
  match r with
  | Unmodified | Replaced => true
  | _ => false
  end.

Definition os_access_w (fs : fsys) (path : string) : bool :=
  match fs !! path with
  | Some f => writable f
  | None => false
  end.

Definition os_path_exists (fs : fsys) (path : string) : bool :=
  bool_decide (is_Some (fs !! path)).

(** [os.unlink(path)]: raises when [fails], or when there is no such file. *)
Definition os_unlink (fails : bool) (path : string) (fs : fsys) : option fsys :=
  if fails then None
  else if os_path_exists fs path then Some (delete path fs)
  else None.

(** [shutil.move(src, dst)] within one directory. *)
Definition shutil_move (fails : bool) (src dst : string) (fs : fsys) : option fsys :=
  if fails then None
  else f ← fs !! src; Some (<[dst := f]> (delete src fs)).

(** The [except] clauses:
    [if temp_path and os.path.exists(temp_path): os.unlink(temp_path)]. *)
Definition cleanup (temp_path : option string) (fs : fsys) : fsys :=
  match temp_path with
  | Some p => if os_path_exists fs p then delete p fs else fs
  | None => fs
  end.

Definition is_unlink_fault (ft : fault) : bool :=
  match ft with UnlinkFails => true | _ => false end.

Definition is_move_fault (ft : fault) : bool :=
  match ft with MoveFails => true | _ => false end.

Section Rewrite.
Context `{Pypinyin} `{Platform}.
Variable cfg : config.

(** Step 2 of both per-file functions: write [text] to the temporary file
    [tmp], then unlink [file_path] and move [tmp] onto it. [temp_path] is
    assigned after the write, inside the [with] block. *)
Definition write_and_replace (ft : fault) (tmp file_path : string) (text : str)
    (fs : fsys) : report * fsys :=
  match ft with
  | CreateFails => (WriteFailed, cleanup None fs)
  | _ =>
      let fs1 := <[tmp := {| content := []; writable := true |}]> fs in
      match ft, encode_text text with
      | WriteFails written, _ =>
          (WriteFailed, cleanup None (<[tmp := {| content := written; writable := true |}]> fs1))
      | _, None => (WriteFailed, cleanup None fs1)
      | _, Some data =>
          let temp_path := Some tmp in
          match ft with
          | CloseFails => (WriteFailed, cleanup temp_path fs1)
          | _ =>
              let fs2 := <[tmp := {| content := data; writable := true |}]> fs1 in
              match (if os_path_exists fs2 file_path
                     then os_unlink (is_unlink_fault ft) file_path fs2
                     else Some fs2) with
              | None => (ReplaceFailed, cleanup temp_path fs2)
              | Some fs3 =>
                  match shutil_move (is_move_fault ft) tmp file_path fs3 with
                  | None => (ReplaceFailed, cleanup temp_path fs3)
                  | Some fs4 => (Replaced, fs4)
                  end
              end
          end
      end
  end.

(** The bytes of a file that [os.access] has found. *)
Definition file_bytes (fs : fsys) (path : string) : list byte :=
  default [] (content <$> fs !! path).

(** [process_file_in_place], MainRime.py. *)
Definition process_file_in_place (ft : fault) (tmp file_path : string)
    (aux_map : gmap str str) (fs : fsys) : report * fsys :=
  if bool_decide (basename file_path ∈ skip_set) then (Skipped, fs)
  else if negb (os_access_w fs file_path) then (NotWritable, fs)
  else
    match read_file_safely (file_bytes fs file_path) with
    | None => (Undecodable, fs)
    | Some lines =>
        let st := refresh_lines cfg aux_map lines in
        if negb (modified st) then (Unmodified, fs)
        else write_and_replace ft tmp file_path
               (py_join [LF] (processed_lines st) ++ [LF]) fs
    end.

(** [remove_auxiliary_code_in_file], MainRime.py. *)
Definition remove_auxiliary_code_in_file (ft : fault) (tmp file_path : string)
    (fs : fsys) : report * fsys :=
  if bool_decide (basename file_path ∈ skip_set) then (Skipped, fs)
  else if negb (os_access_w fs file_path) then (NotWritable, fs)
  else
    match read_file_safely (file_bytes fs file_path) with
    | None => (Undecodable, fs)
    | Some lines =>
        let st := strip_lines lines in
        if negb (modified st) then (Unmodified, fs)
        else write_and_replace ft tmp file_path
               (py_join [LF] (processed_lines st) ++ [LF]) fs
    end.
End Rewrite.

(** ** Auxiliary-code table loader *)

Definition EQUALS : N := 61.

(** [re.split(AUX_SEP_REGEX, s, maxsplit=1)]: cut at the first separator
    only. *)
Definition re_split_aux_sep_once (s : str) : list str :=
  match drop_while (λ c, negb (aux_sep c)) s with
  | [] => [s]
  | _ :: rest => [take_while (λ c, negb (aux_sep c)) s; rest]
  end.

(** One iteration of [for line in f] in [load_aux_metadata]; [line] still
    carries its terminator. The table entry is assigned, then reset to the
    empty string when it is a lone semicolon or empty. *)
Definition aux_line_step (aux_map : gmap str str) (line : str) : gmap str str :=
  if is_blank line || startswith [HASH] line then aux_map
  else
    let parts_of :=
      if contains [TAB] line then Some (split_on TAB (rstrip_lf line))
      else if contains [EQUALS] line then Some (split_on EQUALS (rstrip_lf line))
      else None in
    match parts_of with
    | None => aux_map
    | Some parts =>
        if (length parts <? 2)%nat
           || negb (length (default [] (parts !! 0%nat)) =? 1)%nat
        then aux_map
        else
          let char := py_strip (default [] (parts !! 0%nat)) in
          let seg_full := py_strip (default [] (parts !! 1%nat)) in
          let seg_parts := re_split_aux_sep_once seg_full in
          let assigned :=
            if (1 <? length seg_parts)%nat
            then <[char := py_strip (default [] (seg_parts !! 1%nat))]> aux_map
            else <[char := py_strip seg_full]> aux_map in
          let stored := default [] (assigned !! char) in
          if bool_decide (stored = [SEMI]) || negb (nonempty stored)
          then <[char := []]> assigned
          else assigned
    end.

(** The loop of [load_aux_metadata] over the lines of a table file that
    decodes as UTF-8. *)
Definition load_aux_lines (lines : list str) : gmap str str :=
  foldl aux_line_step ∅ lines.

(** [load_aux_metadata] on the decoded text of the table file. *)
Definition load_aux_text (text : str) : gmap str str :=
  load_aux_lines (readlines (translate_newlines text)).

(** ** The earlier tool, rime_dict_replace_in_place_base.py *)

Module Base.
Section Refresh.
Context `{Pypinyin} `{Platform}.
Variable cfg : config.

(** The body of the [try] under [if REFRESH_AUX_CODE and aux_map] as this
    file writes it: the [else] branch tests [userdb] once more under
    [if merged]. *)
Definition refresh_aux_code (userdb : bool) (word : str) (aux_map : gmap str str)
    (cols : list str) : attempt :=
  let seg_idx := if userdb then 0%nat else 1%nat in
  let cols1 :=
    if negb userdb && (length cols =? 1)%nat then py_insert 1 [] cols
    else if userdb && (length cols <? 2)%nat then cols ++ [[]]
    else cols in
  let '(raw_segs, cols2) :=
    if (seg_idx <? length cols1)%nat
    then (py_split (py_strip (default [] (cols1 !! seg_idx))), cols1)
    else ([], if userdb then py_insert 0 [] cols1 else py_insert 1 [] cols1) in
  let aux_segs := build_seg_by_aux word aux_map in
  match merge_aux aux_segs 0 raw_segs with
  | None => Raised cols2
  | Some merged =>
      if userdb then
        match py_setitem cols2 0 (py_join [SPACE] merged) with
        | Some c => Done c
        | None => Raised cols2
        end
      else if bool_decide (merged ≠ []) then
        if userdb then
          match py_setitem cols2 0 (py_join [SPACE] merged) with
          | Some c => Done c
          | None => Raised cols2
          end
        else
          match py_setitem cols2 seg_idx (py_join [SPACE] merged) with
          | Some c => Done c
          | None => Raised cols2
          end
      else Done cols2
  end.

(** A data line with a non-blank word: the transcription step (the same
    text as in MainRime.py), the auxiliary-code step, the trailing space. *)
Definition refresh_cols (userdb : bool) (aux_map : gmap str str) (word : str)
    (cols : list str) : list str :=
  let cols1 := after_pinyin cfg userdb word cols in
  let cols2 :=
    if REFRESH_AUX_CODE cfg && bool_decide (aux_map ≠ ∅)
    then cols_of (refresh_aux_code userdb word aux_map cols1)
    else cols1 in
  userdb_trailing_space userdb cols2.

(** One iteration of [for line in lines]; the state is [userdb] and
    [processed_lines], there is no [modified] flag. *)
Definition refresh_step (aux_map : gmap str str) (st : bool * list str) (line : str)
  : bool * list str :=
  let '(userdb, processed_lines) := st in
  if is_control line then (userdb || is_userdb_head line, processed_lines ++ [line])
  else if is_blank line then (userdb, processed_lines ++ [[]])
  else
    let cols := split_on TAB line in
    match cols !! (if userdb then 1%nat else 0%nat) with
    | None => (userdb, processed_lines ++ [line])
    | Some word =>
        if is_blank word then (userdb, processed_lines ++ [line])
        else (userdb, processed_lines ++ [py_join [TAB] (refresh_cols userdb aux_map word cols)])
    end.

Definition refresh_lines (aux_map : gmap str str) (lines : list str) : bool * list str :=
  foldl (refresh_step aux_map) (false, []) lines.

(** [process_file_in_place] of this file: the rewrite follows the loop in
    every case. *)
Definition process_file_in_place (ft : fault) (tmp file_path : string)
    (aux_map : gmap str str) (fs : fsys) : report * fsys :=
  if bool_decide (basename file_path ∈ skip_set) then (Skipped, fs)
  else if negb (os_access_w fs file_path) then (NotWritable, fs)
  else
    match read_file_safely (file_bytes fs file_path) with
    | None => (Undecodable, fs)
    | Some lines =>
        write_and_replace ft tmp file_path
          (py_join [LF] (refresh_lines aux_map lines).2 ++ [LF]) fs
    end.
End Refresh.
End Base.

(** ** Batch drivers *)

(** [os.path.isfile(path)]: the directory model holds files only. *)
Definition os_path_isfile (fs : fsys) (path : string) : bool := os_path_exists fs path.

(** [s.endswith(suffix)] on file names. *)
Definition string_endswith (suffix s : string) : bool :=
  (String.length suffix <=? String.length s)%nat
  && String.eqb
       (String.substring (String.length s - String.length suffix) (String.length suffix) s)
       suffix.

(** [fn.endswith(('.txt', '.yaml'))]. *)
Definition dict_extension (fn : string) : bool :=
  string_endswith ".txt" fn || string_endswith ".yaml" fn.

Section Batch.
Context `{Pypinyin} `{Platform}.
Variable cfg : config.

(** [os.path.join], and what happens at the rewrite of each file: the step
    that fails, if any, and the name the temporary file gets. *)
Variable os_path_join : string → string → string.
Variable rewrite_of : string → fault * string.

(** The list [tasks], from the pairs of directory and file names that
    [os.walk] yields. *)
Definition walk_tasks (walk : list (string * list string)) : list string :=
  walk ≫= (λ entry, os_path_join entry.1 <$> filter (λ fn, dict_extension fn = true) entry.2).

(** One iteration of [for file_path in tasks], with [success_count]; the
    loop is the same with and without the progress bar. *)
Definition batch_step (call : fault → string → string → fsys → report * fsys)
    (st : fsys * nat) (file_path : string) : fsys * nat :=
  let run := call (rewrite_of file_path).1 (rewrite_of file_path).2 file_path st.1 in
  (run.2, if returned run.1 then S st.2 else st.2).

(** The shape both drivers of MainRime.py share: one call for a file; for a
    directory the loop over [tasks], unless there is none. The number is the
    [success_count] that is logged. *)
Definition batch (call : fault → string → string → fsys → report * fsys)
    (path : string) (walk : list (string * list string)) (fs : fsys)
  : fsys * option nat :=
  if os_path_isfile fs path then
    ((call (rewrite_of path).1 (rewrite_of path).2 path fs).2, None)
  else
    let tasks := walk_tasks walk in
    if bool_decide (tasks = []) then (fs, None)
    else
      let st := foldl (batch_step call) (fs, 0%nat) tasks in
      (st.1, Some st.2).

Definition batch_remove_auxiliary_code (path : string)
    (walk : list (string * list string)) (fs : fsys) : fsys * option nat :=
  batch (λ ft tmp file_path fs', remove_auxiliary_code_in_file ft tmp file_path fs')
    path walk fs.

Definition batch_refresh_dict_files (path : string)
    (walk : list (string * list string)) (aux_map : gmap str str) (fs : fsys)
  : fsys * option nat :=
  batch (λ ft tmp file_path fs', process_file_in_place cfg ft tmp file_path aux_map fs')
    path walk fs.

(** [process_files_in_place] of the earlier tool: no count, and no test for
    an empty task list. *)
Definition process_files_in_place (path : string)
    (walk : list (string * list string)) (aux_map : gmap str str) (fs : fsys) : fsys :=
  if os_path_isfile fs path then
    (Base.process_file_in_place cfg (rewrite_of path).1 (rewrite_of path).2 path aux_map fs).2
  else
    foldl (λ fs' file_path,
             (Base.process_file_in_place cfg (rewrite_of file_path).1
                (rewrite_of file_path).2 file_path aux_map fs').2)
      fs (walk_tasks walk).
End Batch.

(** ** Custom transcription loader *)

Definition COMMA : N := 44.

(** The two dictionaries [load_custom_pinyin_from_directory] builds:
    [s_map] from code points to comma-joined readings, [p_map] from phrases
    to one singleton list per reading. *)
Record custom_maps := {
  s_map : gmap N str;
  p_map : gmap str (list (list str))
}.

Definition no_custom : custom_maps := {| s_map := ∅; p_map := ∅ |}.

(** [ord(word)]: [TypeError] unless [word] is one character. *)
Definition py_ord (word : str) : option N :=
  match word with
  | [c] => Some c
  | _ => None
  end.

(** One iteration of [for line in f]; [None] when a statement raises. The
    unpacking [word, *py = ...] raises on an empty list. *)
Definition custom_line_step (maps : custom_maps) (line : str) : option custom_maps :=
  match split_on TAB (rstrip_lf line) with
  | [] => None
  | word :: py =>
      if negb (bool_decide (py ≠ [])) then Some maps
      else
        py0 ← py !! 0%nat;
        let plist := py_split py0 in
        if (length word =? 1)%nat then
          k ← py_ord word;
          Some {| s_map := <[k := py_join [COMMA] plist]> (s_map maps);
                  p_map := p_map maps |}
        else
          Some {| s_map := s_map maps;
                  p_map := <[word := (λ p, [p]) <$> plist]> (p_map maps) |}
  end.

(** The loop over the lines of one file. *)
Fixpoint load_custom_lines (maps : custom_maps) (lines : list str) : option custom_maps :=
  match lines with
  | [] => Some maps
  | line :: rest =>
      maps' ← custom_line_step maps line;
      load_custom_lines maps' rest
  end.

(** ** The ad-hoc script remove_auxiliary_code.py *)

(** One iteration of [for line in lines]; the state is [in_metadata] and
    [processed_lines]. *)
Definition script_step (st : bool * list str) (line : str) : bool * list str :=
  if bool_decide (py_strip line = lit "---") then (true, st.2 ++ [line])
  else if bool_decide (py_strip line = lit "...") then (false, st.2 ++ [line])
  else if st.1 then (st.1, st.2 ++ [line])
  else if startswith [HASH] (py_strip line) then (st.1, st.2 ++ [line])
  else (st.1, st.2 ++ [variant_strip_line line]).

Definition script_lines (lines : list str) : bool * list str :=
  foldl script_step (false, []) lines.

(** What the script writes for the text it read: [content.split('\n')],
    the loop, ['\n'.join(processed_lines)]. *)
Definition script_text (content : str) : str :=
  py_join [LF] (script_lines (split_on LF content)).2.

(** ** Vocabulary of the properties *)

(** The root of a segment: its text before the first semicolon or opening
    bracket. *)
Definition before_sep (seg : str) : str := take_while (λ c, negb (aux_sep c)) seg.

(** The suffix of a segment: all text from its first separator onward. *)
Definition suffix_of (seg : str) : str := drop_while (λ c, negb (aux_sep c)) seg.

(** The auxiliary code for character [i] of [word]: empty when the map has
    no entry, and when [word] has no such character. *)
Definition aux_code_at (aux_map : gmap str str) (word : str) (i : nat) : str :=
  match word !! i with
  | Some ch => default [] (aux_map !! [ch])
  | None => []
  end.

(** The number of spaces at the end of a string. *)
Definition trailing_spaces (s : str) : nat :=
  length (take_while (N.eqb SPACE) (reverse s)).

(** No control line of the file carries a user-dictionary marker. *)
Definition no_userdb_marker (lines : list str) : bool :=
  forallb (λ l, negb (is_control l && is_userdb_head l)) lines.

(** Every data line has a first column that ends with a space. *)
Definition first_columns_spaced (lines : list str) : bool :=
  forallb (λ l, is_control l || is_blank l || endswith [SPACE] (pinyin_column l true)) lines.

(** A string with no whitespace at either end. *)
Definition trimmed (s : str) : Prop :=
  (∀ c, head s = Some c → isspace c = false)
  ∧ (∀ c, last s = Some c → isspace c = false).

(** What the table may hold: a key of at most one character, never a
    whitespace character; a code without whitespace at its ends, never a lone
    semicolon. *)
Definition aux_entry_ok (k v : str) : Prop :=
  (length k ≤ 1)%nat ∧ Forall (λ c, isspace c = false) k
  ∧ trimmed v ∧ v ≠ [SEMI].

(** A transcription column that strip mode has nothing to do on: no
    semicolon, and its segments separated by single spaces with no whitespace
    around them. *)
Definition clean_column (col : str) : Prop :=
(SEMI ∉ col) ∧ py_join [SPACE] (py_split col) = col.

(** Whether a control line with a user-dictionary marker stands among the
    first [i] lines. *)
Definition marker_before (lines : list str) (i : nat) : bool :=
  existsb (λ l, is_control l && is_userdb_head l) (take i lines).

(** What the strip pass writes for one line, in a given mode. *)
Definition strip_one (userdb : bool) (line : str) : str :=
  if is_control line then line
  else if is_blank line then []
  else remove_auxiliary_code_from_line line userdb.

(** What a pass writes for one line, given what it does to a data line. *)
Definition pass_line (g : bool → str → str * bool) (userdb : bool) (line : str) : str :=
  if is_control line then line
  else if is_blank line then []
  else (g userdb line).1.

(** A data line: neither a control line nor blank. *)
Definition is_data (line : str) : bool := negb (is_control line) && negb (is_blank line).

(** The strip of a data line, with its modified flag. *)
Definition strip_data_line (userdb : bool) (line : str) : str * bool :=
  (remove_auxiliary_code_from_line line userdb,
   negb (bool_decide (remove_auxiliary_code_from_line line userdb = line))).

(** What the refresh pass writes for one line, in a given mode. *)
Definition refresh_one `{Pypinyin} `{Platform} (cfg : config) (aux_map : gmap str str)
    (userdb : bool) (line : str) : str :=
  if is_control line then line
  else if is_blank line then []
  else (process_data_line cfg userdb aux_map line).1.

(** No segment of the column begins with a semicolon. *)
Definition rooted_column (col : str) : Prop :=
  Forall (λ seg, head seg ≠ Some SEMI) (py_split col).

(** A reading as the service is expected to give it: non-empty, without
    whitespace and without separator characters. *)
Definition plain_reading (py : str) : Prop :=
  py ≠ [] ∧ Forall (λ c, isspace c = false ∧ aux_sep c = false) py.

(** What a pass writes for a line it does not change: the line, or the
    empty string for a whitespace-only line. *)
Definition kept_line (line : str) : str :=
  if is_control line then line
  else if is_blank line then []
  else line.

(** What the per-file functions have in common, as far as the directory is
    concerned: a call touches the file and its temporary file only, and
    nothing when the file is in the skip set or not writable. *)
Definition local_call `{Platform}
    (call : fault → string → string → fsys → report * fsys) : Prop :=
  (∀ ft tmp t fs p, p ≠ t → p ≠ tmp → (call ft tmp t fs).2 !! p = fs !! p)
  ∧ (∀ ft tmp t fs, basename t ∈ skip_set ∨ os_access_w fs t = false →
       (call ft tmp t fs).2 = fs).

(** What the custom maps may hold: under a code point other than the tab,
    readings joined by commas with no whitespace left; under a phrase that is
    not one character long and holds no tab, one singleton list per reading,
    each reading non-empty and free of whitespace. *)
Definition custom_maps_ok (maps : custom_maps) : Prop :=
  (∀ k v, s_map maps !! k = Some v → k ≠ TAB ∧ Forall (λ c, isspace c = false) v)
  ∧ (∀ w v, p_map maps !! w = Some v →
       length w ≠ 1%nat ∧ (TAB ∉ w)
       ∧ Forall (λ r, ∃ p, r = [p] ∧ p ≠ [] ∧ Forall (λ c, isspace c = false) p) v).

(** The configuration with the transcription refresh switched off. *)
Definition pinyin_off (cfg : config) : config :=
  {| REFRESH_PINYIN := false;
     REFRESH_AUX_CODE := REFRESH_AUX_CODE cfg;
     HAS_PYPINYIN := HAS_PYPINYIN cfg |}.

(** One segment as the auxiliary refresh writes it: the root, a semicolon,
    the code of the table. *)
Definition aux_segment (aux_map : gmap str str) (word : str) (i : nat) (seg : str) : str :=
  before_sep seg ++ [SEMI] ++ aux_code_at aux_map word i.

(** ** Stand-ins for the collaborators, for concrete runs *)

Module Demo.

(** A two-entry lexicon: U+4F60 and U+597D. *)
Definition lexicon (c : N) : option str :=
  if c =? 20320 then Some [110; 464]
  else if c =? 22909 then Some [104; 462; 111]
  else None.

Definition flush (run : str) : list (list str) :=
  match run with [] => [] | _ => [[run]] end.

(** Characters of the lexicon give their reading; a run of other characters
    is one unit, returned as it is, or dropped with [errors='ignore']. *)
Fixpoint units (ignore : bool) (run : str) (text : str) : list (list str) :=
  match text with
  | [] => flush run
  | c :: r =>
      match lexicon c with
      | Some py => flush run ++ [py] :: units ignore [] r
      | None => units ignore (if ignore then [] else run ++ [c]) r
      end
  end.

#[export] Instance pypinyin : Pypinyin :=
  {| pinyin := λ ignore text, Some (units ignore [] text) |}.

(** A service that always raises. *)
Definition broken_pypinyin : Pypinyin :=
  {| pinyin := λ _ _, None |}.

Definition is_cont (b : N) : bool := (128 <=? b) && (b <? 192).

(** Strict UTF-8, bytes as numbers. *)
Fixpoint utf8_decode (bs : list N) : option str :=
  match bs with
  | [] => Some []
  | b0 :: r0 =>
      if b0 <? 128 then cons b0 <$> utf8_decode r0
      else if (194 <=? b0) && (b0 <? 224) then
        match r0 with
        | b1 :: r1 =>
            if is_cont b1
            then cons ((b0 - 192) * 64 + (b1 - 128)) <$> utf8_decode r1
            else None
        | _ => None
        end
      else if (224 <=? b0) && (b0 <? 240) then
        match r0 with
        | b1 :: b2 :: r2 =>
            let c := (b0 - 224) * 4096 + (b1 - 128) * 64 + (b2 - 128) in
            if is_cont b1 && is_cont b2 && (2048 <=? c)
               && negb ((55296 <=? c) && (c <=? 57343))
            then cons c <$> utf8_decode r2
            else None
        | _ => None
        end
      else if (240 <=? b0) && (b0 <? 245) then
        match r0 with
        | b1 :: b2 :: b3 :: r3 =>
            let c := (b0 - 240) * 262144 + (b1 - 128) * 4096
                     + (b2 - 128) * 64 + (b3 - 128) in
            if is_cont b1 && is_cont b2 && is_cont b3
               && (65536 <=? c) && (c <? 1114112)
            then cons c <$> utf8_decode r3
            else None
        | _ => None
        end
      else None
  end.

Definition utf8_encode_char (c : N) : option (list N) :=
  if c <? 128 then Some [c]
  else if c <? 2048 then Some [192 + c / 64; 128 + c mod 64]
  else if (55296 <=? c) && (c <=? 57343) then None
  else if c <? 65536 then
    Some [224 + c / 4096; 128 + (c / 64) mod 64; 128 + c mod 64]
  else if c <? 1114112 then
    Some [240 + c / 262144; 128 + (c / 4096) mod 64;
          128 + (c / 64) mod 64; 128 + c mod 64]
  else None.

Definition utf8_encode (text : str) : option (list byte) :=
  chunks ← mapM utf8_encode_char text;
  mapM Byte.of_N (concat chunks).

(** The part of a path after its last slash. *)
Fixpoint posix_basename (p : string) : string :=
  match p with
  | EmptyString => EmptyString
  | String a r =>
      if Ascii.eqb a (Ascii.ascii_of_nat 47) then posix_basename r
      else if bool_decide (String.index 0%nat "/"%string r = None) then p
      else posix_basename r
  end.

(** UTF-8 as above, a GBK decoder that accepts its one-byte range only,
    ASCII digits, no newline translation on writing. *)
#[export] Instance platform : Platform :=
  {| unicode_isdigit := λ c, (48 <=? c) && (c <=? 57);
     decode_utf8 := λ bs, utf8_decode (Byte.to_N <$> bs);
     decode_gbk := λ bs,
       if forallb (λ b, Byte.to_N b <? 128) bs then Some (Byte.to_N <$> bs) else None;
     encode_text := utf8_encode;
     basename := posix_basename |}.

(** ASCII text as file content. *)
Definition bytes_of (s : string) : list byte := String.list_byte_of_string s.

Definition NI : str := [20320].
Definition HAO : str := [22909].

(** A plain line: the word, then two segments with auxiliary codes. *)
Definition plain_nihao : str :=
  NI ++ HAO ++ [TAB] ++ [110; 464] ++ lit ";x h" ++ [462] ++ lit "o;y".

Definition toggles_off : config :=
  {| REFRESH_PINYIN := false; REFRESH_AUX_CODE := false; HAS_PYPINYIN := true |}.

(** A user-dictionary line whose first column ends in two spaces. *)
Definition userdb_two_spaces : str := lit "ni  " ++ [TAB] ++ NI ++ [TAB] ++ lit "1".

(** A user-dictionary line of two columns, the input of the third
    end-to-end scenario of the specification. *)
Definition userdb_short : str := [110; 464] ++ lit ";x " ++ [TAB] ++ NI.

Definition TAB_byte : byte := Init.Byte.x09.
Definition LF_byte : byte := Init.Byte.x0a.

(** The UTF-8 bytes of U+4F60. *)
Definition NI_bytes : list byte := [Init.Byte.xe4; Init.Byte.xbd; Init.Byte.xa0].

(** A user dictionary: the marker line, then one data line whose first
    column has no auxiliary suffix and no space at its end. *)
Definition userdb_file : file :=
  {| content := bytes_of "# Rime user dictionary" ++ [LF_byte]
                ++ bytes_of "ni" ++ [TAB_byte] ++ NI_bytes ++ [TAB_byte]
                ++ bytes_of "1" ++ [LF_byte];
     writable := true |}.

(** A plain dictionary with one entry. *)
Definition plain_file : file :=
  {| content := NI_bytes ++ [TAB_byte] ++ bytes_of "ni;x" ++ [LF_byte];
     writable := true |}.

(** A plain dictionary with one entry and no auxiliary suffix. *)
Definition clean_file : file :=
  {| content := NI_bytes ++ [TAB_byte] ++ bytes_of "ni" ++ [LF_byte];
     writable := true |}.

Definition user_path : string := "dicts/user.dict.yaml".
Definition plain_path : string := "dicts/base.dict.yaml".
Definition tmp_path : string := "dicts/tmpk3v9.tmp".

(** The auxiliary map with one entry, U+4F60 to z. *)
Definition aux_z : gmap str str := {[ NI := lit "z" ]}.

(** A table file of one line: U+4F60, a tab, the reading and the code. *)
Definition aux_lines : list str := [NI ++ [TAB] ++ lit "ni;z" ++ [LF]].

(** The bytes of the refreshed plain dictionary: the reading re-marked, the
    code of the table attached. *)
Definition refreshed_bytes : list byte :=
  NI_bytes ++ [TAB_byte] ++ [Init.Byte.x6e; Init.Byte.xc7; Init.Byte.x90]
  ++ bytes_of ";z" ++ [LF_byte].

(** A plain dictionary with one entry, then a line of two spaces with no
    line terminator. *)
Definition ragged_file : file :=
  {| content := NI_bytes ++ [TAB_byte] ++ bytes_of "ni" ++ [LF_byte] ++ bytes_of "  ";
     writable := true |}.

(** A directory listing: one directory with a dictionary and a file of
    another kind. *)
Definition dicts_walk : list (string * list string) :=
  [("dicts", ["base.dict.yaml"; "notes.md"])]%string.

Definition posix_join (root fn : string) : string := (root +:+ "/" +:+ fn)%string.

(** Every rewrite fails at the move, with the same temporary name. *)
Definition move_fails (file_path : string) : fault * string := (MoveFails, tmp_path).

(** Two lines of a custom transcription file: a character with two
    readings, and a phrase. *)
Definition custom_lines : list str :=
  [NI ++ [TAB] ++ lit "ni  nai" ++ [LF]; NI ++ HAO ++ [TAB] ++ lit "ni hao" ++ [LF]].

(** A dictionary text for the ad-hoc script: a header between its markers
    with a tabbed line in it, then one entry; no final line terminator. *)
Definition script_content : str :=
  lit "---" ++ [LF] ++ lit "name:" ++ [TAB] ++ lit "a;b" ++ [LF] ++ lit "..." ++ [LF]
  ++ NI ++ [TAB] ++ lit "ni;x".

(** Only the auxiliary codes are refreshed. *)
Definition aux_only : config :=
  {| REFRESH_PINYIN := false; REFRESH_AUX_CODE := true; HAS_PYPINYIN := true |}.


End Demo.

(** * Properties *)

(** ** Splitting and joining *)

Lemma py_join_cons2 (sep x y : str) (r : list str) :
  py_join sep (x :: y :: r) = x ++ sep ++ py_join sep (y :: r).
Proof. reflexivity. Qed.

Lemma split_by_not_nil (p : N → bool) (s : str) : split_by p s ≠ [].
Proof.
  induction s as [|c r IH]; simpl; [done|].
  destruct (p c); [done|]. destruct (split_by p r); done.
Qed.

Lemma split_by_length_pos (p : N → bool) (s : str) : (1 ≤ length (split_by p s))%nat.
Proof.
  pose proof (split_by_not_nil p s). destruct (split_by p s); simpl; [done|lia].
Qed.

(** No piece of a split contains a separator. *)
Lemma split_by_pieces (p : N → bool) (s : str) :
  Forall (Forall (λ c, p c = false)) (split_by p s).
Proof.
  induction s as [|c r IH]; simpl.
  - repeat constructor.
  - destruct (p c) eqn:E.
    + constructor; [constructor | exact IH].
    + destruct (split_by p r) as [|w ws]; [repeat constructor; done|].
      inversion IH; subst. constructor; [constructor; done | done].
Qed.

Lemma split_by_clean (p : N → bool) (x : str) :
  Forall (λ c, p c = false) x → split_by p x = [x].
Proof.
  induction 1 as [|c r Hc _ IH]; simpl; [done|]. by rewrite Hc, IH.
Qed.

Lemma split_by_app_sep (p : N → bool) (x : str) (sep : N) (rest : str) :
  Forall (λ c, p c = false) x → p sep = true →
  split_by p (x ++ sep :: rest) = x :: split_by p rest.
Proof.
  intros Hx Hsep. induction Hx as [|c r Hc _ IH]; simpl.
  - by rewrite Hsep.
  - by rewrite Hc, IH.
Qed.

(** Splitting a join gives the pieces back, when no piece holds a separator. *)
Lemma split_by_join (p : N → bool) (sep : N) (ls : list str) :
  p sep = true → ls ≠ [] → Forall (Forall (λ c, p c = false)) ls →
  split_by p (py_join [sep] ls) = ls.
Proof.
  intros Hsep Hne Hall. induction Hall as [|x r Hx Hr IH]; [done|].
  destruct r as [|y r'].
  - simpl. by apply split_by_clean.
  - rewrite py_join_cons2. simpl app.
    rewrite split_by_app_sep by done. f_equal. by apply IH.
Qed.

(** Joining a split gives the string back. *)
Lemma join_split_on (sep : N) (s : str) : py_join [sep] (split_on sep s) = s.
Proof.
  unfold split_on. induction s as [|c r IH]; [done|]. simpl.
  pose proof (split_by_not_nil (N.eqb sep) r) as Hne.
  destruct (N.eqb sep c) eqn:E.
  - apply N.eqb_eq in E. subst c.
    destruct (split_by (N.eqb sep) r) as [|w ws]; [done|].
    rewrite py_join_cons2. cbn [app]. by rewrite IH.
  - destruct (split_by (N.eqb sep) r) as [|w ws]; [done|].
    destruct ws as [|w' ws'].
    + simpl in *. by rewrite IH.
    + rewrite py_join_cons2 in *. cbn [app] in *. by rewrite IH.
Qed.

Lemma split_by_head (p : N → bool) (s : str) :
  split_by p s !! 0%nat = Some (take_while (λ c, negb (p c)) s).
Proof.
  induction s as [|c r IH]; simpl; [done|].
  destruct (p c); simpl; [done|].
  destruct (split_by p r) as [|w ws]; simpl in *; [done|]. by simplify_eq.
Qed.

Lemma take_while_all (p : N → bool) (s : str) :
  Forall (λ c, p c = true) s → take_while p s = s.
Proof. induction 1 as [|c r Hc _ IH]; simpl; [done|]. by rewrite Hc, IH. Qed.

Lemma take_while_holds (p : N → bool) (s : str) :
  Forall (λ c, p c = true) (take_while p s).
Proof.
  induction s as [|c r IH]; simpl; [constructor|].
  destruct (p c) eqn:E; [by constructor | constructor].
Qed.

Lemma take_while_sub (p : N → bool) (P : N → Prop) (s : str) :
  Forall P s → Forall P (take_while p s).
Proof.
  induction 1 as [|c r Hc _ IH]; simpl; [constructor|].
  destruct (p c); [by constructor | constructor].
Qed.

Lemma take_drop_while (p : N → bool) (s : str) :
  take_while p s ++ drop_while p s = s.
Proof. induction s as [|c r IH]; simpl; [done|]. destruct (p c); simpl; by f_equal. Qed.

Lemma drop_length_take_while (p : N → bool) (s : str) :
  drop (length (take_while p s)) s = drop_while p s.
Proof. induction s as [|c r IH]; simpl; [done|]. destruct (p c); simpl; done. Qed.

Lemma filter_keeps_all {A} (P : A → Prop) `{!∀ x, Decision (P x)} (l : list A) :
  Forall P l → filter P l = l.
Proof.
  induction 1 as [|x r Hx _ IH]; [done|]. rewrite filter_cons_True by done. by f_equal.
Qed.

(** The tokens of [py_split] are non-empty and free of whitespace. *)
Lemma py_split_tokens (s : str) :
  Forall (λ w, w ≠ [] ∧ Forall (λ c, isspace c = false) w) (py_split s).
Proof.
  unfold py_split. apply Forall_forall. intros w Hw.
  apply list_elem_of_filter in Hw as [Hne Hin]. split.
  - by destruct w.
  - pose proof (split_by_pieces isspace s) as Hall.
    rewrite Forall_forall in Hall. by apply Hall.
Qed.

(** Tokens joined with single spaces split back into the same tokens. *)
Lemma py_split_join (ws : list str) :
  Forall (λ w, w ≠ [] ∧ Forall (λ c, isspace c = false) w) ws →
  py_split (py_join [SPACE] ws) = ws.
Proof.
  intros Hall. unfold py_split. destruct ws as [|x r]; [done|].
  rewrite split_by_join; [| done | done |].
  - apply filter_keeps_all. eapply Forall_impl; [exact Hall|].
    intros w [Hne _]. by destruct w.
  - eapply Forall_impl; [exact Hall|]. by intros w [_ ?].
Qed.

(** ** Strip mode *)

Lemma Forall_py_join (P : N → Prop) (sep : str) (ls : list str) :
  Forall P sep → Forall (Forall P) ls → Forall P (py_join sep ls).
Proof.
  intros Hsep Hall. induction Hall as [|x r Hx Hr IH]; [constructor|].
  destruct r as [|y r']; [done|].
  rewrite py_join_cons2. repeat (apply Forall_app; split); done.
Qed.

Lemma keep_first_piece (segs : list str) :
  segs ≫= (λ part, match split_on SEMI part with p0 :: _ => [p0] | [] => [] end)
  = before_semicolon <$> segs.
Proof.
  induction segs as [|seg r IH]; [done|].
  cbn [mbind list_bind fmap list_fmap]. rewrite IH.
  pose proof (split_by_head (N.eqb SEMI) seg) as Hh. unfold split_on.
  destruct (split_by (N.eqb SEMI) seg) as [|p0 ps]; simpl in Hh; [done|].
  by simplify_eq.
Qed.

Lemma isspace_TAB_free (w : str) :
  Forall (λ c, isspace c = false) w → Forall (λ c, N.eqb TAB c = false) w.
Proof.
  intros Hw. eapply Forall_impl; [exact Hw|].
  intros c Hc. simpl in *. destruct (N.eqb TAB c) eqn:E; [|done].
  apply N.eqb_eq in E. subst c. done.
Qed.

Lemma stripped_column_TAB_free (col : str) :
  Forall (λ c, N.eqb TAB c = false) (stripped_column col).
Proof.
  unfold stripped_column. apply Forall_py_join; [by repeat constructor|].
  apply Forall_fmap. eapply Forall_impl; [apply py_split_tokens|].
  intros w [_ Hw]. simpl. apply take_while_sub. by apply isspace_TAB_free.
Qed.

(** The strip, in one equation: the transcription column is replaced by its
    stripped form when the line has that column. *)
Lemma strip_equation (line : str) (userdb : bool) :
  remove_auxiliary_code_from_line line userdb =
  if (pinyin_index userdb <? length (split_on TAB line))%nat then
    py_join [TAB] (<[pinyin_index userdb := stripped_column (pinyin_column line userdb)]>
                     (split_on TAB line))
  else line.
Proof.
  unfold remove_auxiliary_code_from_line, pinyin_column, stripped_column.
  pose proof (split_by_length_pos (N.eqb TAB) line) as Hlen. fold (split_on TAB line) in Hlen.
  destruct userdb; simpl pinyin_index; rewrite !keep_first_piece.
  - replace (1 <=? length (split_on TAB line))%nat with true
      by (symmetry; apply Nat.leb_le; lia).
    replace (0 <? length (split_on TAB line))%nat with true
      by (symmetry; apply Nat.ltb_lt; lia).
    done.
  - cbn [negb andb]. destruct (Nat.leb_spec 2 (length (split_on TAB line))) as [E|E].
    + rewrite (proj2 (Nat.ltb_lt 1 _)) by lia. done.
    + rewrite (proj2 (Nat.ltb_ge 1 _)) by lia. done.
Qed.

(** The columns of the stripped line. *)
Lemma strip_columns (line : str) (userdb : bool) :
  split_on TAB (remove_auxiliary_code_from_line line userdb) =
  if (pinyin_index userdb <? length (split_on TAB line))%nat then
    <[pinyin_index userdb := stripped_column (pinyin_column line userdb)]> (split_on TAB line)
  else split_on TAB line.
Proof.
  rewrite strip_equation.
  destruct (pinyin_index userdb <? length (split_on TAB line))%nat eqn:E; [|done].
  unfold split_on at 1. apply split_by_join.
  - apply N.eqb_refl.
  - intros Hnil. apply (f_equal length) in Hnil. rewrite length_insert in Hnil.
    apply Nat.ltb_lt in E. simpl in Hnil. lia.
  - apply Forall_insert; [apply split_by_pieces | apply stripped_column_TAB_free].
Qed.

Lemma before_semicolon_twice (seg : str) :
  before_semicolon (before_semicolon seg) = before_semicolon seg.
Proof. unfold before_semicolon. apply take_while_all, take_while_holds. Qed.

Lemma before_semicolon_nonempty (seg : str) :
  seg ≠ [] → head seg ≠ Some SEMI → before_semicolon seg ≠ [].
Proof.
  destruct seg as [|c r]; [done|]. intros _ Hh. unfold before_semicolon.
  cbn [take_while]. destruct (N.eqb SEMI c) eqn:E; [|done].
  apply N.eqb_eq in E. subst c. by destruct Hh.
Qed.

(** A column whose segments all have a root is stripped once and for all. *)
Lemma stripped_column_idem (col : str) :
  Forall (λ seg, head seg ≠ Some SEMI) (py_split col) →
  stripped_column (stripped_column col) = stripped_column col.
Proof.
  intros Hroot. unfold stripped_column at 1 3. f_equal. unfold stripped_column.
  rewrite py_split_join.
  - rewrite <- list_fmap_compose. apply list_fmap_ext. intros _ seg _. simpl.
    apply before_semicolon_twice.
  - apply Forall_fmap. pose proof (py_split_tokens col) as Htok.
    rewrite Forall_forall in *. intros seg Hin. simpl.
    destruct (Htok seg Hin) as [Hne Hws]. split.
    + apply before_semicolon_nonempty; [done | by apply Hroot].
    + by apply take_while_sub.
Qed.

(** C4, as amended: for every data line and either format mode in which no
    segment of the transcription column begins with a semicolon, applying the
    strip operation twice yields exactly the same line as applying it once. *)
Theorem strip_idempotent_rooted (line : str) (userdb : bool) :
  Forall (λ seg, head seg ≠ Some SEMI) (py_split (pinyin_column line userdb)) →
  remove_auxiliary_code_from_line (remove_auxiliary_code_from_line line userdb) userdb
  = remove_auxiliary_code_from_line line userdb.
Proof.
  intros Hroot.
  rewrite (strip_equation (remove_auxiliary_code_from_line line userdb)).
  unfold pinyin_column at 1. rewrite strip_columns.
  destruct (pinyin_index userdb <? length (split_on TAB line))%nat eqn:E.
  - rewrite length_insert, E. apply Nat.ltb_lt in E.
    rewrite list_lookup_insert_eq by done. simpl default.
    rewrite stripped_column_idem by done.
    rewrite list_insert_insert_eq. by rewrite strip_equation, (proj2 (Nat.ltb_lt _ _) E).
  - rewrite E. rewrite strip_equation, E. done.
Qed.

Lemma strip_idempotent_rooted_witness :
  let line := lit "w" ++ [TAB] ++ lit "a;x b[y;z" in
  Forall (λ seg, head seg ≠ Some SEMI) (py_split (pinyin_column line false))
  ∧ remove_auxiliary_code_from_line (remove_auxiliary_code_from_line line false) false
    = remove_auxiliary_code_from_line line false.
Proof.
  assert (Hroot : Forall (λ seg, head seg ≠ Some SEMI)
                    (py_split (pinyin_column (lit "w" ++ [TAB] ++ lit "a;x b[y;z") false))).
  { vm_compute. repeat constructor; discriminate. }
  split; [exact Hroot | exact (strip_idempotent_rooted _ false Hroot)].
Defined.

(** C4, as stated, fails: a segment that begins with a semicolon strips to an
    empty root, which leaves two spaces side by side; the second strip merges
    them. Plain mode, line [w<TAB>a ;x b]. *)
Lemma strip_not_idempotent :
  let line := lit "w" ++ [TAB] ++ lit "a ;x b" in
  remove_auxiliary_code_from_line line false = lit "w" ++ [TAB] ++ lit "a  b"
  ∧ remove_auxiliary_code_from_line (remove_auxiliary_code_from_line line false) false
    = lit "w" ++ [TAB] ++ lit "a b"
  ∧ remove_auxiliary_code_from_line (remove_auxiliary_code_from_line line false) false
    ≠ remove_auxiliary_code_from_line line false.
Proof. vm_compute. split; [reflexivity|]. split; [reflexivity | discriminate]. Qed.

(** C10: for every data line, the strip operation preserves the number of
    tab-separated columns and leaves every column other than the selected
    transcription column (column 0 in UserDB mode, column 1 in Plain mode)
    unchanged character for character. *)
Theorem strip_frame (line : str) (userdb : bool) :
  length (split_on TAB (remove_auxiliary_code_from_line line userdb))
  = length (split_on TAB line)
  ∧ ∀ i : nat, i ≠ pinyin_index userdb →
      split_on TAB (remove_auxiliary_code_from_line line userdb) !! i
      = split_on TAB line !! i.
Proof.
  rewrite strip_columns.
  destruct (pinyin_index userdb <? length (split_on TAB line))%nat; [|done].
  split; [apply length_insert|].
  intros i Hi. by apply list_lookup_insert_ne.
Qed.

(** C8: for every tab-separated data line with at least 2 columns, the
    per-line strip of the ad-hoc script returns exactly the same string as
    [remove_auxiliary_code_from_line] in Plain mode. *)
Theorem variant_strip_agrees (line : str) :
  (2 ≤ length (split_on TAB line))%nat →
  variant_strip_line line = remove_auxiliary_code_from_line line false.
Proof.
  intros Hlen. unfold variant_strip_line, remove_auxiliary_code_from_line.
  cbn [negb andb]. by rewrite (proj2 (Nat.leb_le 2 _) Hlen).
Qed.

Lemma variant_strip_agrees_witness :
  (2 ≤ length (split_on TAB Demo.plain_nihao))%nat
  ∧ variant_strip_line Demo.plain_nihao
    = remove_auxiliary_code_from_line Demo.plain_nihao false.
Proof.
  assert (Hlen : (2 ≤ length (split_on TAB Demo.plain_nihao))%nat).
  { vm_compute. lia. }
  split; [exact Hlen | exact (variant_strip_agrees _ Hlen)].
Defined.

(** ** The reader *)

Lemma drop_while_absent (c : N) (s : str) : c ∉ s → drop_while (N.eqb c) s = s.
Proof.
  destruct s as [|d r]; [done|]. intros Hc. simpl.
  destruct (N.eqb c d) eqn:E; [|done].
  apply N.eqb_eq in E. subst d. destruct Hc. by left.
Qed.

(** A line as the file iterator yields it: a body free of line feeds, with
    or without one line feed after it. *)
Lemma readlines_shape (text : str) :
  Forall (λ l, ∃ body, (LF ∉ body) ∧ (l = body ∨ l = body ++ [LF])) (readlines text).
Proof.
  induction text as [|c r IH]; simpl; [constructor|].
  destruct (c =? LF) eqn:E.
  - constructor; [|done]. exists []. split; [apply not_elem_of_nil | right; done].
  - apply N.eqb_neq in E. destruct (readlines r) as [|l ls].
    + repeat constructor. exists [c]. split; [|left; done].
      apply not_elem_of_cons. split; [done | apply not_elem_of_nil].
    + inversion IH as [|? ? (body & Hb & Hl) Hls]; subst. constructor; [|done].
      exists (c :: body). split.
      * apply not_elem_of_cons. by split.
      * destruct Hl as [->| ->]; [left; done | right; done].
Qed.

Lemma rstrip_lf_line (l body : str) :
  LF ∉ body → l = body ∨ l = body ++ [LF] → rstrip_lf l = body.
Proof.
  intros Hb Hl. unfold rstrip_lf.
  assert (Hr : LF ∉ reverse body) by (by rewrite elem_of_reverse).
  destruct Hl as [->| ->].
  - rewrite drop_while_absent by done. apply reverse_involutive.
  - rewrite reverse_snoc. cbn [drop_while]. rewrite N.eqb_refl.
    rewrite drop_while_absent by done. apply reverse_involutive.
Qed.

Lemma stripped_lines_have_no_LF (text : str) :
  Forall (λ l, LF ∉ l) (rstrip_lf <$> readlines text).
Proof.
  apply Forall_fmap. eapply Forall_impl; [apply readlines_shape|].
  intros l (body & Hb & Hl). simpl. by rewrite (rstrip_lf_line l body).
Qed.

(** C9: for every byte content of an input file, the encoding-tolerant read
    succeeds and returns a list of lines with terminators stripped: the last
    candidate encoding, latin-1, decodes every byte sequence, so the branch
    that returns [None] is unreachable. *)
Theorem read_file_safely_total `{Platform} (bs : list byte) :
  read_file_safely bs ≠ None
  ∧ ∃ lines, read_file_safely bs = Some lines ∧ Forall (λ l, LF ∉ l) lines.
Proof.
  assert (Hex : ∃ text,
             read_file_safely bs = Some (rstrip_lf <$> readlines (translate_newlines text))).
  { unfold read_file_safely. cbn [try_encodings decode].
    destruct (decode_utf8 bs) as [t|]; [by exists t|].
    destruct (decode_gbk bs) as [t|]; [by exists t|].
    by eexists. }
  destruct Hex as [text Htext]. split; [by rewrite Htext|].
  eexists. split; [exact Htext | apply stripped_lines_have_no_LF].
Qed.

(** ** The auxiliary-code refresh *)

Lemma seg_root_total (seg : str) : seg_root seg = Some (before_sep seg).
Proof. apply split_by_head. Qed.

Lemma build_seg_by_aux_lookup (aux_map : gmap str str) (word : str) (i : nat) :
  (if (i <? length (build_seg_by_aux word aux_map))%nat
   then build_seg_by_aux word aux_map !! i else Some [])
  = Some (aux_code_at aux_map word i).
Proof.
  unfold build_seg_by_aux, aux_code_at. rewrite length_fmap, list_lookup_fmap.
  destruct (Nat.ltb_spec i (length word)) as [Hlt|Hge].
  - destruct (lookup_lt_is_Some_2 word i Hlt) as [ch ->]. done.
  - by rewrite (lookup_ge_None_2 word i Hge).
Qed.

(** The merge loop never raises. *)
Lemma merge_aux_total (aux_map : gmap str str) (word : str) (i : nat) (raw_segs : list str) :
  merge_aux (build_seg_by_aux word aux_map) i raw_segs
  = Some (imap (λ j seg, before_sep seg ++ [SEMI] ++ aux_code_at aux_map word (i + j)) raw_segs).
Proof.
  revert i. induction raw_segs as [|seg rest IH]; intros i; [done|].
  cbn [merge_aux]. rewrite build_seg_by_aux_lookup, seg_root_total, IH.
  cbn [mbind option_bind]. rewrite imap_cons, Nat.add_0_r. do 2 f_equal.
  apply imap_ext. intros j x _. simpl. do 3 f_equal. lia.
Qed.

(** The auxiliary refresh of a user-dictionary line with a word column. *)
Lemma refresh_aux_code_userdb (word : str) (aux_map : gmap str str) (cols : list str) :
  (2 ≤ length cols)%nat →
  refresh_aux_code true word aux_map cols
  = Done (<[0%nat := py_join [SPACE]
             (imap (λ i seg, before_sep seg ++ [SEMI] ++ aux_code_at aux_map word i)
                (py_split (py_strip (default [] (cols !! 0%nat)))))]> cols).
Proof.
  intros Hlen. unfold refresh_aux_code. cbn [negb andb].
  rewrite (proj2 (Nat.ltb_ge _ 2)) by lia.
  rewrite (proj2 (Nat.ltb_lt 0 _)) by lia.
  rewrite merge_aux_total. unfold py_setitem.
  rewrite (proj2 (Nat.ltb_lt 0 _)) by lia. done.
Qed.

(** C5: for every data line with a non-blank word, the auxiliary-code refresh
    never raises, whatever the lengths of the word and of the segment list:
    raw segment [i] becomes [root;aux], [root] the text before the first
    semicolon or opening bracket, [aux] the AuxMap code of character [i] of
    the word, empty when the map has none or the word is too short; a missing
    transcription column is inserted empty. *)
Theorem aux_refresh_never_raises (userdb : bool) (word : str) (aux_map : gmap str str)
    (cols : list str) :
  ((if userdb then 1 else 0) < length cols)%nat →
  let idx := pinyin_index userdb in
  let padded := if (idx <? length cols)%nat then cols else cols ++ [[]] in
  let raw_segs := py_split (py_strip (default [] (cols !! idx))) in
  let merged :=
    imap (λ i seg, before_sep seg ++ [SEMI] ++ aux_code_at aux_map word i) raw_segs in
  refresh_aux_code userdb word aux_map cols
  = Done (if userdb || bool_decide (merged ≠ [])
          then <[idx := py_join [SPACE] merged]> padded
          else padded).
Proof.
  intros Hlen. destruct userdb; cbn [pinyin_index negb andb orb].
  - rewrite (proj2 (Nat.ltb_lt 0 _)) by lia. by apply refresh_aux_code_userdb.
  - unfold refresh_aux_code. cbn [negb andb].
    destruct (Nat.eqb_spec (length cols) 1) as [H1|H1].
    + destruct cols as [|w [|? ?]]; simpl in H1; try lia.
      cbn. done.
    + rewrite (proj2 (Nat.ltb_lt 1 _)) by lia.
      rewrite merge_aux_total. cbn [Nat.add]. case_bool_decide; [|done].
      unfold py_setitem. rewrite (proj2 (Nat.ltb_lt 1 _)) by lia. done.
Qed.

Lemma aux_refresh_never_raises_witness :
  refresh_aux_code false (Demo.NI ++ Demo.HAO) Demo.aux_z
    [Demo.NI ++ Demo.HAO; lit "ni[old hao;y zzz"]
  = Done [Demo.NI ++ Demo.HAO; lit "ni;z hao; zzz;"].
Proof.
  assert (Hlen : (0 < length [Demo.NI ++ Demo.HAO; lit "ni[old hao;y zzz"])%nat)
    by (simpl; lia).
  exact (aux_refresh_never_raises false (Demo.NI ++ Demo.HAO) Demo.aux_z _ Hlen).
Defined.

(** ** Transcription regeneration *)

Lemma suffix_is_slice (seg : str) : drop (length (before_sep seg)) seg = suffix_of seg.
Proof. apply drop_length_take_while. Qed.

Lemma root_suffix (seg : str) : before_sep seg ++ suffix_of seg = seg.
Proof. apply take_drop_while. Qed.

(** The plain loop never raises: entry [i] of [char_py] gets the suffix of
    segment [i], or nothing when there is no such segment. *)
Lemma plain_new_segs_total (segs char_py : list str) (i : nat) :
  plain_new_segs segs i char_py
  = Some (imap (λ j py, py ++ default [] (suffix_of <$> segs !! (i + j)%nat)) char_py).
Proof.
  revert i. induction char_py as [|py rest IH]; intros i; [done|].
  cbn [plain_new_segs]. rewrite IH, imap_cons, Nat.add_0_r.
  assert (Hs : (if (i <? length segs)%nat
                then seg ← segs !! i; root ← seg_root seg; Some (drop (length root) seg)
                else Some []) = Some (default [] (suffix_of <$> segs !! i))).
  { destruct (Nat.ltb_spec i (length segs)) as [Hlt|Hge].
    - destruct (lookup_lt_is_Some_2 segs i Hlt) as [seg ->]. simpl.
      by rewrite seg_root_total; simpl; rewrite suffix_is_slice.
    - by rewrite (lookup_ge_None_2 segs i Hge). }
  rewrite Hs. cbn [mbind option_bind]. do 2 f_equal.
  apply imap_ext. intros j x _. simpl. do 4 f_equal. lia.
Qed.

Section Regeneration.
Context `{Pypinyin} `{Platform}.
Variable cfg : config.

(** What the user-dictionary loop returns, segment by segment. *)
Lemma userdb_new_segs_Some (char_py segs new_segs : list str) (i : nat) :
  userdb_new_segs cfg char_py i segs = Some new_segs →
  ∀ (j : nat) (seg : str), segs !! j = Some seg →
    ∃ base_py, base_py_for cfg char_py (i + j) seg = Some base_py
               ∧ new_segs !! j = Some (base_py ++ suffix_of seg).
Proof.
  revert i new_segs. induction segs as [|s rest IH]; intros i new_segs Hrun j seg Hj.
  - by rewrite lookup_nil in Hj.
  - cbn [userdb_new_segs] in Hrun.
    destruct (base_py_for cfg char_py i s) as [b|] eqn:Hb; [|done].
    rewrite seg_root_total in Hrun. cbn [mbind option_bind] in Hrun.
    destruct (userdb_new_segs cfg char_py (S i) rest) as [nr|] eqn:Hr; [|done].
    cbn [mbind option_bind] in Hrun. simplify_eq.
    destruct j as [|j]; simpl in Hj.
    + simplify_eq. exists b. rewrite Nat.add_0_r, suffix_is_slice. done.
    + destruct (IH _ _ Hr j seg Hj) as (b' & Hb' & Hn).
      exists b'. replace (i + S j)%nat with (S i + j)%nat by lia. done.
Qed.

(** The user-dictionary loop does not raise when every segment has an entry
    of [char_py]. *)
Lemma userdb_new_segs_covered (char_py segs : list str) (i : nat) :
  (i + length segs ≤ length char_py)%nat →
  is_Some (userdb_new_segs cfg char_py i segs).
Proof.
  revert i. induction segs as [|s rest IH]; intros i Hlen; [done|].
  simpl in Hlen. cbn [userdb_new_segs]. unfold base_py_for.
  rewrite (proj2 (Nat.ltb_lt i _)) by lia.
  destruct (lookup_lt_is_Some_2 char_py i) as [b ->]; [lia|].
  rewrite seg_root_total. cbn [mbind option_bind].
  destruct (IH (S i)) as [nr ->]; [lia|]. done.
Qed.

(** Where the word supplies the reading: the new segment is that reading
    followed by the old suffix, all text from the first separator onward.
    In the user-dictionary loop the reading of a segment past the end of
    [char_py] is [tone_mark seg]. *)
Lemma covered_segment_keeps_suffix (char_py segs : list str) (i : nat) (seg : str) :
  segs !! i = Some seg →
  before_sep seg ++ suffix_of seg = seg
  ∧ (∀ py, char_py !! i = Some py →
       ∃ new_segs, plain_new_segs segs 0 char_py = Some new_segs
                   ∧ new_segs !! i = Some (py ++ suffix_of seg))
  ∧ (∀ new_segs, userdb_new_segs cfg char_py 0 segs = Some new_segs →
       ∃ base_py, base_py_for cfg char_py i seg = Some base_py
                  ∧ new_segs !! i = Some (base_py ++ suffix_of seg))
  ∧ ((length segs ≤ length char_py)%nat →
       ∃ new_segs py, userdb_new_segs cfg char_py 0 segs = Some new_segs
                      ∧ char_py !! i = Some py
                      ∧ new_segs !! i = Some (py ++ suffix_of seg)).
Proof.
  intros Hseg. split; [apply root_suffix|]. split; [|split].
  - intros py Hpy. eexists. split; [apply plain_new_segs_total|].
    rewrite list_lookup_imap, Hpy. simpl. by rewrite Hseg.
  - intros new_segs Hrun.
    exact (userdb_new_segs_Some char_py segs new_segs 0 Hrun i seg Hseg).
  - intros Hlen.
    destruct (userdb_new_segs_covered char_py segs 0) as [new_segs Hrun]; [simpl; lia|].
    destruct (userdb_new_segs_Some char_py segs new_segs 0 Hrun i seg Hseg)
      as (b & Hb & Hn).
    pose proof (lookup_lt_Some _ _ _ Hseg) as Hi.
    unfold base_py_for in Hb. simpl in Hb.
    rewrite (proj2 (Nat.ltb_lt i _)) in Hb by lia.
    by exists new_segs, b.
Qed.
End Regeneration.

(** [tone_mark] returns the segment with its suffix, as its docstring says. *)
Lemma tone_mark_ends_with_suffix `{Pypinyin} (cfg : config) (seg marked : str) :
  tone_mark cfg seg = Some marked → ∃ r, marked = r ++ suffix_of seg.
Proof.
  unfold tone_mark. destruct (negb (HAS_PYPINYIN cfg)).
  - intros [= <-]. exists (before_sep seg). by rewrite root_suffix.
  - rewrite seg_root_total. cbn [mbind option_bind]. rewrite suffix_is_slice.
    destruct (pinyin true (before_sep seg)) as [py|]; [|done]. cbn [mbind option_bind].
    destruct py as [|p ?]; [intros [= <-]; by eexists|].
    destruct (p !! 0%nat) as [c|]; [|done]. intros [= <-]. by eexists.
Qed.

(** A segment past the end of [char_py] comes out with its suffix twice. *)
Lemma fallback_segment_suffix_twice `{Pypinyin} (cfg : config)
    (char_py segs new_segs : list str) (i : nat) (seg : str) :
  userdb_new_segs cfg char_py 0 segs = Some new_segs →
  segs !! i = Some seg → (length char_py ≤ i)%nat →
  ∃ r, new_segs !! i = Some (r ++ suffix_of seg ++ suffix_of seg).
Proof.
  intros Hrun Hseg Hlen.
  destruct (userdb_new_segs_Some cfg char_py segs new_segs 0 Hrun i seg Hseg)
    as (b & Hb & Hn).
  unfold base_py_for in Hb. cbn [Nat.add] in Hb.
  rewrite (proj2 (Nat.ltb_ge i _)) in Hb by lia.
  destruct (tone_mark_ends_with_suffix cfg seg b Hb) as [r ->].
  exists r. by rewrite Hn, <- app_assoc.
Qed.

Example covered_segment_example :
  plain_new_segs [lit "ni;abc"] 0 [[110; 464]] = Some [[110; 464] ++ lit ";abc"]
  ∧ userdb_new_segs (H := Demo.pypinyin) shipped_config [[110; 464]] 0 [lit "ni;abc"]
    = Some [[110; 464] ++ lit ";abc"].
Proof. vm_compute. split; reflexivity. Qed.

(** C6 asks that, during transcription regeneration, every segment whose
    root is replaced by a regenerated transcription keeps its suffix
    unchanged, re-attached after the new root. The code at a user-dictionary
    line whose first column has more segments than the word has readings:
    the extra segment is passed to [tone_mark], which returns it with its
    suffix, and the suffix is attached once more. *)
Theorem fallback_repeats_suffix :
  userdb_new_segs (H := Demo.pypinyin) shipped_config [[110; 464]] 0
    [lit "ni;x"; Demo.HAO ++ lit ";y"]
  = Some [[110; 464] ++ lit ";x"; [104; 462; 111] ++ lit ";y;y"]
  ∧ userdb_new_segs (H := Demo.pypinyin) shipped_config [[110; 464]] 0
      [lit "ni;x"; lit "hao;y"]
    = Some [[110; 464] ++ lit ";x"; lit "hao;y;y"]
  ∧ process_data_line (H := Demo.pypinyin) (H0 := Demo.platform) shipped_config true ∅
      (lit "ni;x " ++ Demo.HAO ++ lit ";y " ++ [TAB] ++ Demo.NI ++ [TAB] ++ lit "1")
    = ([110; 464] ++ lit ";x " ++ [104; 462; 111] ++ lit ";y;y "
       ++ [TAB] ++ Demo.NI ++ [TAB] ++ lit "1", true).
Proof. vm_compute. repeat split. Qed.


(** ** The trailing space of user-dictionary lines *)

Lemma endswith_space (s : str) : endswith [SPACE] s = bool_decide (last s = Some SPACE).
Proof.
  unfold endswith. rewrite <- head_reverse. change (reverse [SPACE]) with [SPACE].
  destruct (reverse s) as [|c r]; [done|]. cbn [startswith head].
  rewrite andb_true_r. destruct (N.eqb_spec SPACE c) as [Heq|Hne].
  - subst c. by rewrite bool_decide_eq_true_2.
  - rewrite bool_decide_eq_false_2; [done|]. intros Heq. by simplify_eq.
Qed.

Lemma trailing_spaces_snoc (s : str) :
  trailing_spaces (s ++ [SPACE]) = S (trailing_spaces s).
Proof. unfold trailing_spaces. rewrite reverse_snoc. cbn [take_while]. by rewrite N.eqb_refl. Qed.

Lemma trailing_spaces_none (s : str) : last s ≠ Some SPACE → trailing_spaces s = 0%nat.
Proof.
  unfold trailing_spaces. rewrite <- head_reverse.
  destruct (reverse s) as [|c r]; [done|]. cbn [head take_while]. intros Hc.
  destruct (N.eqb_spec SPACE c) as [Heq|Hne]; [|done].
  subst c. by destruct Hc.
Qed.

Lemma trailing_spaces_some (s : str) : last s = Some SPACE → (1 ≤ trailing_spaces s)%nat.
Proof.
  unfold trailing_spaces. rewrite <- head_reverse.
  destruct (reverse s) as [|c r]; [done|]. cbn [head take_while]. intros Hc.
  simplify_eq. rewrite N.eqb_refl. simpl. lia.
Qed.

Lemma last_py_join (sep : str) (xs : list str) (x : str) :
  last xs = Some x → x ≠ [] → last (py_join sep xs) = last x.
Proof.
  intros Hlast Hne. induction xs as [|y r IH]; [done|].
  destruct r as [|z r'].
  - simpl in *. by simplify_eq.
  - rewrite py_join_cons2. rewrite last_cons_cons in Hlast.
    rewrite !last_app, (IH Hlast).
    destruct (last x) eqn:E; [done|]. by apply last_None in E.
Qed.

(** A column written by the auxiliary refresh does not end with a space,
    when no code of the map does. *)
Lemma merged_column_last (aux_map : gmap str str) (word : str) (raw_segs : list str) :
  (∀ ch aux, aux_map !! ch = Some aux → last aux ≠ Some SPACE) →
  last (py_join [SPACE]
          (imap (λ i seg, before_sep seg ++ [SEMI] ++ aux_code_at aux_map word i) raw_segs))
  ≠ Some SPACE.
Proof.
  intros Haux.
  set (merged := imap _ raw_segs).
  destruct (last merged) as [x|] eqn:Hl.
  - pose proof (last_Some_elem_of _ _ Hl) as Hin.
    apply list_elem_of_lookup in Hin as [i Hi]. subst merged.
    rewrite list_lookup_imap in Hi.
    destruct (raw_segs !! i) as [seg|]; [|done]. simpl in Hi. simplify_eq.
    rewrite (last_py_join _ _ _ Hl); [|by destruct (before_sep seg)].
    rewrite last_app. cbn [app]. rewrite last_cons.
    assert (Hlast : last (aux_code_at aux_map word i) ≠ Some SPACE).
    { unfold aux_code_at. destruct (word !! i) as [ch|]; [|done].
      destruct (aux_map !! [ch]) as [aux|] eqn:Hch; [|done]. simpl. by eapply Haux. }
    destruct (last (aux_code_at aux_map word i)); [done | discriminate].
  - apply last_None in Hl. by rewrite Hl.
Qed.

Section TrailingSpace.
Context `{Pypinyin} `{Platform}.
Variable cfg : config.

(** The transcription step never leaves a user-dictionary line with fewer
    than two columns. *)
Lemma after_pinyin_length (word : str) (cols : list str) :
  (2 ≤ length cols)%nat → (2 ≤ length (after_pinyin cfg true word cols))%nat.
Proof.
  intros Hlen. unfold after_pinyin.
  destruct (REFRESH_PINYIN cfg && HAS_PYPINYIN cfg); [|done].
  destruct (refresh_pinyin cfg true word cols) as [c|] eqn:Hr; [|done]. simpl.
  unfold refresh_pinyin in Hr. cbn [andb] in Hr.
  destruct (3 <=? length cols)%nat.
  - destruct (char_py_of word) as [cp|]; [|done]. cbn [mbind option_bind] in Hr.
    destruct (userdb_new_segs cfg cp 0 _) as [ns|]; [|done].
    cbn [mbind option_bind] in Hr. simplify_eq. by rewrite length_insert.
  - destruct (char_py_of word) as [cp|]; [|done]. cbn [mbind option_bind] in Hr.
    rewrite (proj2 (Nat.eqb_neq (length cols) 1)) in Hr by lia.
    rewrite (proj2 (Nat.leb_le 2 _) Hlen) in Hr. cbn [andb] in Hr.
    destruct (py_isdigit _).
    + simplify_eq. rewrite length_app, length_drop. simpl. lia.
    + destruct (plain_new_segs _ 0 cp) as [ns|]; [|done].
      cbn [mbind option_bind] in Hr. simplify_eq. by rewrite length_insert.
Qed.

(** C3, as amended: for every UserDB-mode data line with a word, the
    resulting transcription column (column 0) ends in at least one space:
    one is appended exactly when the column left by the two sub-operations
    has none, and none is ever removed, so the column ends in one space or
    in as many as the sub-operations left. It ends in exactly one space
    whenever the auxiliary-code refresh ran with codes that do not end in
    a space. *)
Theorem userdb_trailing_space_kept (aux_map : gmap str str) (word : str)
    (cols : list str) :
  (2 ≤ length cols)%nat →
  ∃ c0 r0 : str,
    after_aux cfg true word aux_map (after_pinyin cfg true word cols) !! 0%nat = Some c0
    ∧ refresh_cols cfg true aux_map word cols !! 0%nat = Some r0
    ∧ r0 = (if endswith [SPACE] c0 then c0 else c0 ++ [SPACE])
    ∧ trailing_spaces r0 = (1 `max` trailing_spaces c0)%nat
    ∧ (REFRESH_AUX_CODE cfg = true → aux_map ≠ ∅ →
       (∀ ch aux, aux_map !! ch = Some aux → last aux ≠ Some SPACE) →
       trailing_spaces r0 = 1%nat).
Proof.
  intros Hlen. pose proof (after_pinyin_length word cols Hlen) as Hp.
  set (cp := after_pinyin cfg true word cols) in *.
  set (merged := imap (λ i seg, before_sep seg ++ [SEMI] ++ aux_code_at aux_map word i)
                   (py_split (py_strip (default [] (cp !! 0%nat))))).
  assert (Haux : after_aux cfg true word aux_map cp
                 = if REFRESH_AUX_CODE cfg && bool_decide (aux_map ≠ ∅)
                   then <[0%nat := py_join [SPACE] merged]> cp else cp).
  { unfold after_aux. destruct (REFRESH_AUX_CODE cfg && bool_decide (aux_map ≠ ∅)); [|done].
    by rewrite refresh_aux_code_userdb by lia. }
  set (ca := after_aux cfg true word aux_map cp) in *.
  assert (Hca : (0 < length ca)%nat).
  { rewrite Haux. destruct (_ && _); [rewrite length_insert|]; lia. }
  destruct (lookup_lt_is_Some_2 ca 0 Hca) as [c0 Hc0].
  exists c0, (if endswith [SPACE] c0 then c0 else c0 ++ [SPACE]).
  assert (Hts : trailing_spaces (if endswith [SPACE] c0 then c0 else c0 ++ [SPACE])
                = (1 `max` trailing_spaces c0)%nat).
  { rewrite endswith_space. destruct (decide (last c0 = Some SPACE)) as [Hl|Hl].
    - rewrite bool_decide_eq_true_2 by done.
      pose proof (trailing_spaces_some _ Hl). lia.
    - rewrite bool_decide_eq_false_2 by done.
      rewrite trailing_spaces_snoc, (trailing_spaces_none _ Hl). done. }
  split; [done|]. split; [|split; [done|split; [done|]]].
  - unfold refresh_cols. fold cp. fold ca. unfold userdb_trailing_space.
    cbn [andb]. rewrite bool_decide_eq_true_2 by (by destruct ca).
    rewrite (proj2 (Nat.ltb_lt 0 _) Hca), Hc0.
    destruct (endswith [SPACE] c0); cbn [negb andb]; [done|].
    by rewrite list_lookup_insert_eq.
  - intros Hflag Hne Hcodes. rewrite Hts.
    rewrite Hflag, bool_decide_eq_true_2 in Haux by done. cbn [andb] in Haux.
    rewrite Haux in Hc0. rewrite list_lookup_insert_eq in Hc0 by lia. simplify_eq.
    rewrite trailing_spaces_none; [done|]. by apply merged_column_last.
Qed.
End TrailingSpace.

Lemma userdb_trailing_space_kept_witness :
  ∃ r0 : str,
    refresh_cols (H := Demo.pypinyin) (H0 := Demo.platform) shipped_config true Demo.aux_z
      Demo.NI [lit "ni;x  "; Demo.NI; lit "1"] !! 0%nat = Some r0
    ∧ trailing_spaces r0 = 1%nat.
Proof.
  assert (Hlen : (2 ≤ length [lit "ni;x  "; Demo.NI; lit "1"])%nat) by (simpl; lia).
  destruct (userdb_trailing_space_kept (H := Demo.pypinyin) (H0 := Demo.platform)
              shipped_config Demo.aux_z Demo.NI _ Hlen)
    as (c0 & r0 & _ & Hr & _ & _ & Hone).
  exists r0. split; [exact Hr|]. apply Hone.
  - reflexivity.
  - intros Heq. apply (f_equal (lookup Demo.NI)) in Heq.
    unfold Demo.aux_z in Heq. rewrite lookup_singleton_eq, lookup_empty in Heq. discriminate.
  - intros ch aux Hch. unfold Demo.aux_z in Hch.
    apply lookup_singleton_Some in Hch as [_ <-]. discriminate.
Defined.

(** C3, as stated, fails: a first column that ends in two spaces keeps both
    when neither sub-operation rewrites it, with both toggles off, and with
    the shipped toggles, an empty auxiliary map and a line of two columns. *)
Lemma userdb_two_spaces_survive :
  trailing_spaces
    (pinyin_column
       (process_data_line (H := Demo.pypinyin) (H0 := Demo.platform) Demo.toggles_off
          true Demo.aux_z Demo.userdb_two_spaces).1 true) = 2%nat
  ∧ trailing_spaces
      (pinyin_column
         (process_data_line (H := Demo.pypinyin) (H0 := Demo.platform) shipped_config
            true ∅ (lit "ni  " ++ [TAB] ++ Demo.NI)).1 true) = 2%nat
  ∧ refresh_cols (H := Demo.pypinyin) (H0 := Demo.platform) Demo.toggles_off true Demo.aux_z
      Demo.NI (split_on TAB Demo.userdb_two_spaces) !! 0%nat = Some (lit "ni  ").
Proof. vm_compute. repeat split. Qed.

(** ** User-dictionary lines of two columns *)

Section ShortLines.
Context `{Pypinyin} `{Platform}.
Variable cfg : config.

(** A user-dictionary line of two columns fails the test
    [userdb and len(cols) >= 3] and is handled by the [else] branch: the
    second column, which holds the word, is rebuilt around the readings. *)
Lemma userdb_two_columns_take_plain_branch (word c0 c1 : str) :
  refresh_pinyin cfg true word [c0; c1]
  = (char_py ← char_py_of word;
     if py_isdigit c1 then Some [word; py_join [SPACE] char_py; c1]
     else new_segs ← plain_new_segs (py_split c1) 0 char_py;
          Some [c0; py_join [SPACE] new_segs]).
Proof.
  unfold refresh_pinyin. cbn [length andb Nat.leb Nat.eqb].
  destruct (char_py_of word) as [char_py|]; [|done]. cbn [mbind option_bind].
  cbn [lookup list_lookup default]. unfold id.
  destruct (py_isdigit c1); [reflexivity|].
  by destruct (plain_new_segs (py_split c1) 0 char_py).
Qed.
End ShortLines.

(** C1 asks that, with transcription regeneration enabled, a UserDB-mode line
    with a non-blank word and fewer than 3 columns has its regeneration
    skipped and its transcription left as it is. The code at such a line,
    [n<U+01D0>;x <TAB>U+4F60]: the branch written for the plain layout runs
    and replaces the word column by the reading. *)
Theorem userdb_short_line_regenerated :
  refresh_pinyin (H := Demo.pypinyin) (H0 := Demo.platform) shipped_config true Demo.NI
    (split_on TAB Demo.userdb_short) = Some [[110; 464] ++ lit ";x "; [110; 464]]
  ∧ after_pinyin (H := Demo.pypinyin) (H0 := Demo.platform) shipped_config true Demo.NI
      (split_on TAB Demo.userdb_short) ≠ split_on TAB Demo.userdb_short
  ∧ process_data_line (H := Demo.pypinyin) (H0 := Demo.platform) shipped_config true
      Demo.aux_z Demo.userdb_short
    = ([110; 464] ++ lit ";z " ++ [TAB] ++ [110; 464], true).
Proof. vm_compute. split; [reflexivity|]. split; [discriminate | reflexivity]. Qed.

(** ** Unmodified files *)

Section Unmodified.
Context `{Pypinyin} `{Platform}.

(** A data line counts as modified exactly when the processed line differs
    from the line read. *)
Lemma modified_iff_differs (cfg : config) (userdb : bool) (aux_map : gmap str str)
    (line : str) :
  (process_data_line cfg userdb aux_map line).2 = true
  ↔ (process_data_line cfg userdb aux_map line).1 ≠ line.
Proof.
  unfold process_data_line. rewrite join_split_on.
  destruct (split_on TAB line !! _) as [word|]; [|done].
  destruct (is_blank word); [done|]. simpl.
  rewrite negb_true_iff, bool_decide_eq_false. done.
Qed.

Lemma refresh_cols_off (cfg : config) (userdb : bool) (aux_map : gmap str str)
    (word : str) (cols : list str) :
  REFRESH_PINYIN cfg = false → REFRESH_AUX_CODE cfg = false →
  refresh_cols cfg userdb aux_map word cols = userdb_trailing_space userdb cols.
Proof.
  intros Hp Ha. unfold refresh_cols, after_aux, after_pinyin. by rewrite Hp, Ha.
Qed.

Lemma trailing_space_present (userdb : bool) (cols : list str) :
  userdb = false ∨ endswith [SPACE] (default [] (cols !! 0%nat)) = true →
  userdb_trailing_space userdb cols = cols.
Proof.
  unfold userdb_trailing_space. intros [->|Hend]; [done|].
  destruct (userdb && _ && _); [|done].
  destruct (cols !! 0%nat) as [c0|]; [|done]. simpl in Hend. by rewrite Hend.
Qed.

Lemma data_line_untouched (cfg : config) (userdb : bool) (aux_map : gmap str str)
    (line : str) :
  REFRESH_PINYIN cfg = false → REFRESH_AUX_CODE cfg = false →
  userdb = false ∨ endswith [SPACE] (pinyin_column line true) = true →
  process_data_line cfg userdb aux_map line = (line, false).
Proof.
  intros Hp Ha Hsp. unfold process_data_line.
  destruct (split_on TAB line !! _) as [word|]; [|done].
  destruct (is_blank word); [done|].
  rewrite refresh_cols_off, trailing_space_present by done.
  rewrite join_split_on. by rewrite bool_decide_eq_true_2.
Qed.

(** With both toggles off the loop sets [modified] for no line, in a file
    without a user-dictionary marker or with spaced first columns. *)
Lemma refresh_fold_unmodified (cfg : config) (aux_map : gmap str str)
    (lines : list str) (st : scan) :
  REFRESH_PINYIN cfg = false → REFRESH_AUX_CODE cfg = false →
  modified st = false →
  (no_userdb_marker lines = true ∧ userdb_mode st = false)
  ∨ first_columns_spaced lines = true →
  modified (foldl (refresh_step cfg aux_map) st lines) = false.
Proof.
  intros Hp Ha. revert st. induction lines as [|line rest IH]; intros st Hm Hok; [done|].
  cbn [foldl]. apply IH.
  - unfold refresh_step. destruct (is_control line) eqn:Hc; [done|].
    destruct (is_blank line) eqn:Hb; [done|].
    rewrite data_line_untouched; [simpl; by rewrite Hm | done | done |].
    destruct Hok as [[_ Hu]|Hs]; [by left|right].
    cbn [first_columns_spaced forallb] in Hs. rewrite Hc, Hb in Hs.
    by apply andb_prop in Hs as [Hs _].
  - destruct Hok as [[Hn Hu]|Hs].
    + left. cbn [no_userdb_marker forallb] in Hn. apply andb_prop in Hn as [Hl Hr].
      split; [done|]. unfold refresh_step.
      destruct (is_control line) eqn:Hc.
      * simpl. rewrite Hu. simpl. by destruct (is_userdb_head line).
      * destruct (is_blank line); [done|].
        by destruct (process_data_line cfg (userdb_mode st) aux_map line).
    + right. cbn [first_columns_spaced forallb] in Hs. by apply andb_prop in Hs as [_ Hs].
Qed.

(** A file in which no line is modified is not written. *)
Lemma unmodified_no_write (cfg : config) (ft : fault) (tmp file_path : string)
    (aux_map : gmap str str) (fs : fsys) (lines : list str) :
  basename file_path ∉ skip_set → os_access_w fs file_path = true →
  read_file_safely (file_bytes fs file_path) = Some lines →
  modified (refresh_lines cfg aux_map lines) = false →
  process_file_in_place cfg ft tmp file_path aux_map fs = (Unmodified, fs).
Proof.
  intros Hskip Hw Hread Hm. unfold process_file_in_place.
  rewrite bool_decide_eq_false_2 by done. by rewrite Hw, Hread, Hm.
Qed.

(** C7, as amended: for every file without a user-dictionary marker, or
    whose data lines all have a first column ending in a space, processing
    with refreshTranscription=false and refreshAuxCode=false reports the
    file as unmodified and performs no write, leaving its bytes unchanged;
    in general a line counts as modified exactly when its serialized form
    differs from the original line, and a file in which no line is
    modified produces no write. *)
Theorem noop_refresh_leaves_file (cfg : config) (ft : fault) (tmp file_path : string)
    (aux_map : gmap str str) (fs : fsys) (lines : list str) :
  REFRESH_PINYIN cfg = false → REFRESH_AUX_CODE cfg = false →
  basename file_path ∉ skip_set → os_access_w fs file_path = true →
  read_file_safely (file_bytes fs file_path) = Some lines →
  no_userdb_marker lines = true ∨ first_columns_spaced lines = true →
  process_file_in_place cfg ft tmp file_path aux_map fs = (Unmodified, fs)
  ∧ (∀ (cfg' : config) (userdb : bool) (line : str),
       (process_data_line cfg' userdb aux_map line).2 = true
       ↔ (process_data_line cfg' userdb aux_map line).1 ≠ line)
  ∧ (∀ cfg' : config, modified (refresh_lines cfg' aux_map lines) = false →
       process_file_in_place cfg' ft tmp file_path aux_map fs = (Unmodified, fs)).
Proof.
  intros Hp Ha Hskip Hw Hread Hok. split; [|split].
  - apply (unmodified_no_write _ _ _ _ _ _ lines); try done.
    apply refresh_fold_unmodified; try done. destruct Hok; [left|right]; done.
  - intros. apply modified_iff_differs.
  - intros cfg' Hm. by apply (unmodified_no_write _ _ _ _ _ _ lines).
Qed.
End Unmodified.

Lemma noop_refresh_leaves_file_witness :
  process_file_in_place (H := Demo.pypinyin) (H0 := Demo.platform) Demo.toggles_off
    NoFault Demo.tmp_path Demo.plain_path Demo.aux_z {[ Demo.plain_path := Demo.clean_file ]}
  = (Unmodified, {[ Demo.plain_path := Demo.clean_file ]}).
Proof.
  refine (proj1 (noop_refresh_leaves_file (H := Demo.pypinyin) (H0 := Demo.platform)
            Demo.toggles_off NoFault Demo.tmp_path Demo.plain_path Demo.aux_z
            {[ Demo.plain_path := Demo.clean_file ]}
            [Demo.NI ++ [TAB] ++ lit "ni"] _ _ _ _ _ _)).
  - reflexivity.
  - reflexivity.
  - vm_compute. intros Hin. repeat (apply elem_of_cons in Hin as [Hin|Hin]; [discriminate|]).
    by apply elem_of_nil in Hin.
  - vm_compute. reflexivity.
  - vm_compute. reflexivity.
  - left. vm_compute. reflexivity.
Defined.

(** C7, as stated, fails: a user dictionary whose one data line has no
    auxiliary suffix, and no space at the end of its first column, is
    rewritten with both toggles off: the space is added. *)
Lemma noop_refresh_rewrites_userdb :
  let fs : fsys := {[ Demo.user_path := Demo.userdb_file ]} in
  let run := process_file_in_place (H := Demo.pypinyin) (H0 := Demo.platform)
               Demo.toggles_off NoFault Demo.tmp_path Demo.user_path ∅ fs in
  run.1 = Replaced
  ∧ content <$> (run.2 !! Demo.user_path)
    = Some (Demo.bytes_of "# Rime user dictionary" ++ [Demo.LF_byte]
            ++ Demo.bytes_of "ni " ++ [Demo.TAB_byte] ++ Demo.NI_bytes ++ [Demo.TAB_byte]
            ++ Demo.bytes_of "1" ++ [Demo.LF_byte])
  ∧ run.2 ≠ fs.
Proof.
  vm_compute. split; [reflexivity|]. split; [reflexivity|]. discriminate.
Qed.

(** ** Failures while rewriting *)

Section Failures.
Context `{Platform}.

Lemma exists_insert_other (fs : fsys) (p q : string) (f : file) :
  p ≠ q → os_path_exists (<[p := f]> fs) q = os_path_exists fs q.
Proof. intros Hne. unfold os_path_exists. by rewrite lookup_insert_ne. Qed.

Lemma exists_insert_same (fs : fsys) (p : string) (f : file) :
  os_path_exists (<[p := f]> fs) p = true.
Proof.
  unfold os_path_exists. rewrite lookup_insert_eq. by apply bool_decide_eq_true_2.
Qed.

Lemma exists_delete_other (fs : fsys) (p q : string) :
  p ≠ q → os_path_exists (delete p fs) q = os_path_exists fs q.
Proof. intros Hne. unfold os_path_exists. by rewrite lookup_delete_ne. Qed.

Lemma exists_present (fs : fsys) (p : string) :
  is_Some (fs !! p) → os_path_exists fs p = true.
Proof. intros Hex. unfold os_path_exists. by apply bool_decide_eq_true_2. Qed.

(** A failure to create the temporary file, to close it, or to unlink the
    original leaves the directory as it was. *)
Lemma early_failure_harmless (ft : fault) (tmp file_path : string) (text : str)
    (data : list byte) (fs : fsys) :
  ft = CreateFails ∨ ft = CloseFails ∨ ft = UnlinkFails →
  tmp ≠ file_path → fs !! tmp = None → is_Some (fs !! file_path) →
  encode_text text = Some data →
  (write_and_replace ft tmp file_path text fs).2 = fs
  ∧ returned (write_and_replace ft tmp file_path text fs).1 = false.
Proof.
  intros Hft Hne Htmp Hex Henc. unfold write_and_replace.
  pose proof (exists_present fs file_path Hex) as Hexb.
  destruct Hft as [->|[->| ->]].
  - cbn. done.
  - rewrite Henc. cbn [cleanup]. rewrite exists_insert_same. split; [|done]. cbn [snd].
    by rewrite delete_insert_eq, delete_id.
  - rewrite Henc. rewrite !exists_insert_other, Hexb by done.
    cbn [os_unlink is_unlink_fault cleanup snd fst]. rewrite exists_insert_same.
    split; [|done]. rewrite insert_insert_eq, delete_insert_eq. by apply delete_id.
Qed.

(** A failure of the write leaves the temporary file behind: [temp_path]
    is still [None] when the [except] clause runs. *)
Lemma write_failure_leaves_temp (written : list byte) (tmp file_path : string)
    (text : str) (fs : fsys) :
  (write_and_replace (WriteFails written) tmp file_path text fs).1 = WriteFailed
  ∧ content <$> (write_and_replace (WriteFails written) tmp file_path text fs).2 !! tmp
    = Some written.
Proof.
  unfold write_and_replace. cbn [cleanup fst snd]. split; [done|].
  by rewrite lookup_insert_eq.
Qed.

(** A failure of the move comes after the unlink: neither the original nor
    the temporary file is left. *)
Lemma move_failure_loses_original (tmp file_path : string) (text : str)
    (data : list byte) (fs : fsys) :
  tmp ≠ file_path → is_Some (fs !! file_path) → encode_text text = Some data →
  (write_and_replace MoveFails tmp file_path text fs).1 = ReplaceFailed
  ∧ (write_and_replace MoveFails tmp file_path text fs).2 !! file_path = None
  ∧ (write_and_replace MoveFails tmp file_path text fs).2 !! tmp = None.
Proof.
  intros Hne Hex Henc. unfold write_and_replace. rewrite Henc.
  pose proof (exists_present fs file_path Hex) as Hexb.
  rewrite !exists_insert_other, Hexb by done.
  cbn [os_unlink is_unlink_fault]. rewrite !exists_insert_other, Hexb by done.
  cbn [shutil_move is_move_fault cleanup fst snd].
  rewrite exists_delete_other, exists_insert_same by done.
  split; [done|]. split.
  - rewrite lookup_delete_ne by done. by rewrite lookup_delete_eq.
  - by rewrite lookup_delete_eq.
Qed.
End Failures.

(** C2 asks that, whenever writing the temporary file or the replace step
    fails, the original file keeps its bytes, no temporary file remains and
    the file is reported as failed. The code at a move that fails, for both
    per-file functions: the original was unlinked before the move, so the
    directory is left empty; and at a write that fails: the original is
    kept, the file is reported as failed, and the temporary file stays. *)
Theorem failed_replace_loses_original :
  let fs : fsys := {[ Demo.plain_path := Demo.plain_file ]} in
  let refresh ft := process_file_in_place (H := Demo.pypinyin) (H0 := Demo.platform)
                      shipped_config ft Demo.tmp_path Demo.plain_path Demo.aux_z fs in
  let strip ft := remove_auxiliary_code_in_file (H0 := Demo.platform)
                    ft Demo.tmp_path Demo.plain_path fs in
  refresh MoveFails = (ReplaceFailed, ∅)
  ∧ strip MoveFails = (ReplaceFailed, ∅)
  ∧ (refresh (WriteFails Demo.NI_bytes)).1 = WriteFailed
  ∧ (refresh (WriteFails Demo.NI_bytes)).2 !! Demo.plain_path = Some Demo.plain_file
  ∧ (refresh (WriteFails Demo.NI_bytes)).2 !! Demo.tmp_path
    = Some {| content := Demo.NI_bytes; writable := true |}.
Proof. vm_compute. repeat split. Qed.

(** ** The scenarios of the specification *)

Example aux_only_scenario :
  process_data_line (H := Demo.pypinyin) (H0 := Demo.platform)
    {| REFRESH_PINYIN := false; REFRESH_AUX_CODE := true; HAS_PYPINYIN := true |}
    false {[ Demo.NI := lit "q" ]} (Demo.NI ++ [TAB] ++ [110; 464])
  = (Demo.NI ++ [TAB] ++ [110; 464] ++ lit ";q", true).
Proof. vm_compute. reflexivity. Qed.

Example userdb_scenario_3cols :
  process_data_line (H := Demo.pypinyin) (H0 := Demo.platform) shipped_config
    true Demo.aux_z ([110; 464] ++ lit ";x " ++ [TAB] ++ Demo.NI ++ [TAB] ++ lit "1")
  = ([110; 464] ++ lit ";z " ++ [TAB] ++ Demo.NI ++ [TAB] ++ lit "1", true).
Proof. vm_compute. reflexivity. Qed.



(** A service that raises: the transcription is left as it is and the
    auxiliary codes are still refreshed. *)
Example service_failure_is_caught :
  process_data_line (H := Demo.broken_pypinyin) (H0 := Demo.platform) shipped_config
    false Demo.aux_z (Demo.NI ++ [TAB] ++ lit "ni;x")
  = (Demo.NI ++ [TAB] ++ lit "ni;z", true).
Proof. vm_compute. reflexivity. Qed.

(** * Further properties of the code *)

(** ** Stripping whitespace *)

Lemma drop_while_head (p : N → bool) (s : str) (c : N) :
  head (drop_while p s) = Some c → p c = false.
Proof.
  induction s as [|d r IH]; simpl; [done|].
  destruct (p d) eqn:E; [done|]. simpl. by intros [= <-].
Qed.

Lemma drop_while_keep (p : N → bool) (s : str) :
  (∀ c, head s = Some c → p c = false) → drop_while p s = s.
Proof.
  destruct s as [|d r]; [done|]. intros Hh. simpl. by rewrite (Hh d).
Qed.

Lemma py_strip_trimmed (s : str) : trimmed (py_strip s).
Proof.
  unfold py_strip. set (a := drop_while isspace s).
  set (b := drop_while isspace (reverse a)). split; intros c Hc.
  - rewrite head_reverse in Hc.
    pose proof (take_drop_while isspace (reverse a)) as Hsplit. fold b in Hsplit.
    assert (Hla : last (reverse a) = Some c).
    { rewrite <- Hsplit, last_app, Hc. done. }
    rewrite last_reverse in Hla. by apply (drop_while_head isspace s).
  - rewrite last_reverse in Hc. by apply (drop_while_head isspace (reverse a)).
Qed.

Lemma trimmed_strip_id (s : str) : trimmed s → py_strip s = s.
Proof.
  intros [Hh Hl]. unfold py_strip. rewrite (drop_while_keep isspace s) by done.
  rewrite drop_while_keep; [apply reverse_involutive|].
  intros c Hc. rewrite head_reverse in Hc. by apply Hl.
Qed.

Lemma trimmed_last_not_space (s : str) : trimmed s → last s ≠ Some SPACE.
Proof. intros [_ Hl] Hs. by specialize (Hl _ Hs). Qed.

Lemma py_strip_single (c : N) : py_strip [c] = if isspace c then [] else [c].
Proof. unfold py_strip. simpl. destruct (isspace c) eqn:E; [done|]. simpl. by rewrite E. Qed.

(** ** The auxiliary-code table *)

Lemma trimmed_nil : trimmed [].
Proof. split; intros c Hc; done. Qed.

(** A line of the table file leaves the table alone or sets one entry. *)
Lemma aux_line_step_cases (m : gmap str str) (line : str) :
  aux_line_step m line = m
  ∨ ∃ k v, aux_entry_ok k v ∧ aux_line_step m line = <[k := v]> m.
Proof.
  unfold aux_line_step.
  destruct (is_blank line || startswith [HASH] line); [by left|].
  set (parts_of := if contains [TAB] line then _ else _).
  destruct parts_of as [parts|]; [|by left].
  destruct (length parts <? 2)%nat; [by left|]. cbn [orb].
  destruct (length (default [] (parts !! 0%nat)) =? 1)%nat eqn:Hk; [|by left].
  cbn [negb]. right.
  set (k := py_strip (default [] (parts !! 0%nat))).
  assert (Hkey : (length k ≤ 1)%nat ∧ Forall (λ c, isspace c = false) k).
  { apply Nat.eqb_eq in Hk. subst k.
    destruct (default [] (parts !! 0%nat)) as [|c [|? ?]]; simpl in Hk; try lia.
    rewrite py_strip_single. destruct (isspace c) eqn:E; (split; [simpl; lia|]).
    - constructor.
    - by repeat constructor. }
  set (seg_full := py_strip (default [] (parts !! 1%nat))).
  set (code := if (1 <? length (re_split_aux_sep_once seg_full))%nat
               then py_strip (default [] (re_split_aux_sep_once seg_full !! 1%nat))
               else py_strip seg_full).
  assert (Hassigned :
    (if (1 <? length (re_split_aux_sep_once seg_full))%nat
     then <[k := py_strip (default [] (re_split_aux_sep_once seg_full !! 1%nat))]> m
     else <[k := py_strip seg_full]> m) = <[k := code]> m).
  { subst code. by destruct (1 <? length (re_split_aux_sep_once seg_full))%nat. }
  rewrite Hassigned, lookup_insert_eq. cbn [default].
  assert (Hcode : trimmed code).
  { subst code. destruct (1 <? _)%nat; apply py_strip_trimmed. }
  pose proof trimmed_nil as Hnil.
  destruct (decide (code = [SEMI])) as [Hs|Hs].
  - rewrite bool_decide_eq_true_2 by done. cbn [orb].
    exists k, []. rewrite insert_insert_eq. split; [|done].
    destruct Hkey. unfold aux_entry_ok. done.
  - rewrite bool_decide_eq_false_2 by done. cbn [orb].
    destruct code as [|c0 code'] eqn:Hc; cbn [nonempty negb].
    + exists k, []. rewrite insert_insert_eq. split; [|done].
      destruct Hkey. unfold aux_entry_ok. done.
    + exists k, (c0 :: code'). split; [|done]. destruct Hkey. unfold aux_entry_ok. done.
Qed.

Lemma load_aux_invariant (lines : list str) (m : gmap str str) :
  map_Forall aux_entry_ok m → map_Forall aux_entry_ok (foldl aux_line_step m lines).
Proof.
  revert m. induction lines as [|line rest IH]; intros m Hm; [done|].
  cbn [foldl]. apply IH.
  destruct (aux_line_step_cases m line) as [->|(k & v & Hok & ->)]; [done|].
  by apply map_Forall_insert_2.
Qed.

(** X1: every code that [load_aux_metadata] stores has no whitespace at
    either end, so it never ends in a space, and is never a lone semicolon. *)
Theorem aux_table_codes_trimmed (lines : list str) (k v : str) :
  load_aux_lines lines !! k = Some v →
  trimmed v ∧ v ≠ [SEMI] ∧ last v ≠ Some SPACE.
Proof.
  intros Hkv.
  pose proof (load_aux_invariant lines ∅ (map_Forall_empty _)) as Hall.
  destruct (Hall k v Hkv) as (_ & _ & Ht & Hs).
  split; [done|]. split; [done|]. by apply trimmed_last_not_space.
Qed.

(** X2: every key of the loaded table is at most one character long and is
    never a whitespace character; the character of a line whose first field
    is one whitespace character is stored under the empty key. *)
Theorem aux_table_keys (lines : list str) (k : str) :
  is_Some (load_aux_lines lines !! k) →
  (length k ≤ 1)%nat ∧ Forall (λ c, isspace c = false) k.
Proof.
  intros [v Hkv].
  pose proof (load_aux_invariant lines ∅ (map_Forall_empty _)) as Hall.
  destruct (Hall k v Hkv) as (Hlen & Hws & _). done.
Qed.

Lemma aux_table_codes_trimmed_witness :
  load_aux_lines Demo.aux_lines !! Demo.NI = Some (lit "z")
  ∧ last (lit "z") ≠ Some SPACE.
Proof.
  assert (Hkv : load_aux_lines Demo.aux_lines !! Demo.NI = Some (lit "z"))
    by (vm_compute; reflexivity).
  split; [exact Hkv|].
  exact (proj2 (proj2 (aux_table_codes_trimmed Demo.aux_lines Demo.NI (lit "z") Hkv))).
Defined.

Lemma aux_table_keys_witness :
  is_Some (load_aux_lines Demo.aux_lines !! Demo.NI)
  ∧ (length Demo.NI ≤ 1)%nat.
Proof.
  assert (Hk : is_Some (load_aux_lines Demo.aux_lines !! Demo.NI))
    by (exists (lit "z"); vm_compute; reflexivity).
  split; [exact Hk|].
  exact (proj1 (aux_table_keys Demo.aux_lines Demo.NI Hk)).
Defined.

Lemma drop_while_snoc_stop (p : N → bool) (l : str) (c : N) :
  p c = false → drop_while p (l ++ [c]) ≠ [].
Proof.
  intros Hc. induction l as [|d r IH]; simpl; [by rewrite Hc|].
  by destruct (p d).
Qed.

Lemma not_blank_head (c : N) (rest : str) : isspace c = false → is_blank (c :: rest) = false.
Proof.
  intros Hc. unfold is_blank, py_strip. cbn [drop_while]. rewrite Hc.
  rewrite reverse_cons.
  pose proof (drop_while_snoc_stop isspace (reverse rest) c Hc) as Hne.
  destruct (drop_while isspace (reverse rest ++ [c])) as [|d r] eqn:E; [done|].
  rewrite reverse_cons. by destruct (reverse r).
Qed.

Lemma contains_at_second (t c : N) (rest : str) : contains [t] (c :: t :: rest) = true.
Proof.
  cbn [contains startswith]. rewrite N.eqb_refl. cbn [andb orb].
  apply orb_true_r.
Qed.

Lemma aux_sep_not_space (sep : N) : aux_sep sep = true → isspace sep = false.
Proof.
  unfold aux_sep. intros Hs. apply orb_prop in Hs as [Hs|Hs];
    apply N.eqb_eq in Hs; by subst sep.
Qed.

Lemma split_once_at_first (root code : str) (sep : N) :
  Forall (λ d, aux_sep d = false) root → aux_sep sep = true →
  re_split_aux_sep_once (root ++ sep :: code) = [root; code].
Proof.
  intros Hroot Hsep. unfold re_split_aux_sep_once.
  assert (Hd : drop_while (λ c, negb (aux_sep c)) (root ++ sep :: code) = sep :: code
               ∧ take_while (λ c, negb (aux_sep c)) (root ++ sep :: code) = root).
  { induction Hroot as [|d r Hd _ [IH1 IH2]]; cbn [app drop_while take_while].
    - by rewrite Hsep.
    - by rewrite Hd, IH1, IH2. }
  destruct Hd as [-> ->]. done.
Qed.

(** X3: a table line [c<TAB>root;code], with [c] one character that is not
    whitespace or [#], [root] free of whitespace and separators, and [code]
    non-empty, not a lone semicolon and without whitespace at its ends, maps
    [c] to exactly [code]; it overrides what earlier lines said of [c] and
    changes no other entry. The separator may be a semicolon or an opening
    bracket. *)
Theorem aux_table_line_parsed (prefix : list str) (c sep : N) (root code : str) :
  isspace c = false → c ≠ HASH → aux_sep sep = true →
  Forall (λ d, isspace d = false ∧ aux_sep d = false) root →
  code ≠ [] → code ≠ [SEMI] → trimmed code → TAB ∉ code → LF ∉ code →
  load_aux_lines (prefix ++ [[c; TAB] ++ root ++ [sep] ++ code ++ [LF]])
  = <[[c] := code]> (load_aux_lines prefix).
Proof.
  intros Hc Hhash Hsep Hroot Hne Hsemi Htrim Htab Hlf.
  unfold load_aux_lines. rewrite foldl_snoc. set (m := foldl aux_line_step ∅ prefix).
  set (payload := root ++ [sep] ++ code).
  assert (Hline : [c; TAB] ++ root ++ [sep] ++ code ++ [LF] = ([c; TAB] ++ payload) ++ [LF]).
  { subst payload. by rewrite <- !app_assoc. }
  rewrite Hline. clear Hline.
  pose proof (aux_sep_not_space sep Hsep) as Hsepws.
  assert (Hroot_ws : Forall (λ d, isspace d = false) root).
  { eapply Forall_impl; [exact Hroot|]. by intros d [? _]. }
  assert (Hroot_sep : Forall (λ d, aux_sep d = false) root).
  { eapply Forall_impl; [exact Hroot|]. by intros d [_ ?]. }
  assert (Hpay_tab : Forall (λ d, N.eqb TAB d = false) payload).
  { subst payload. rewrite !Forall_app. split; [by apply isspace_TAB_free|]. split.
    - repeat constructor. destruct (N.eqb_spec TAB sep) as [<-|]; done.
    - apply Forall_forall. intros d Hd. destruct (N.eqb_spec TAB d) as [<-|]; done. }
  assert (Hpay_lf : LF ∉ payload).
  { subst payload. rewrite !not_elem_of_app. split; [|split; [|done]].
    - intros Hin. rewrite Forall_forall in Hroot_ws. by specialize (Hroot_ws _ Hin).
    - apply not_elem_of_cons. split; [by intros <-|apply not_elem_of_nil]. }
  assert (Hpay_trim : trimmed payload).
  { subst payload. split; intros d Hd.
    - destruct root as [|r0 root']; simpl in Hd; simplify_eq; [done|].
      by inversion Hroot_ws.
    - rewrite !last_app in Hd. destruct (last code) as [l0|] eqn:El.
      + simplify_eq. by apply Htrim.
      + by apply last_None in El. }
  unfold aux_line_step. change (([c; TAB] ++ payload) ++ [LF]) with (c :: TAB :: payload ++ [LF]).
  rewrite not_blank_head by done. cbn [orb startswith].
  rewrite (proj2 (N.eqb_neq HASH c)) by done. cbn [andb].
  rewrite contains_at_second.
  rewrite (rstrip_lf_line (c :: TAB :: payload ++ [LF]) (c :: TAB :: payload)).
  2:{ rewrite !not_elem_of_cons. split; [by intros <-|]. split; [done|done]. }
  2:{ by right. }
  assert (Hsplit : split_on TAB (c :: TAB :: payload) = [[c]; payload]).
  { unfold split_on. change (c :: TAB :: payload) with ([c] ++ TAB :: payload).
    rewrite split_by_app_sep; [| |apply N.eqb_refl].
    - by rewrite split_by_clean.
    - repeat constructor. destruct (N.eqb_spec TAB c) as [<-|]; done. }
  rewrite Hsplit. cbn [length lookup list_lookup default Nat.eqb Nat.ltb Nat.leb orb negb].
  unfold id. rewrite py_strip_single, Hc. rewrite (trimmed_strip_id payload) by done.
  subst payload. cbn [app]. rewrite split_once_at_first by done.
  cbn [length lookup list_lookup default]. unfold id.
  rewrite (trimmed_strip_id code) by done. rewrite lookup_insert_eq. cbn [default]. unfold id.
  rewrite bool_decide_eq_false_2 by done. cbn [orb].
  destruct code; [done|]. done.
Qed.

Lemma aux_table_line_parsed_witness :
  load_aux_lines ([] ++ [[20320; TAB] ++ lit "ni" ++ [LBRACK] ++ lit "z" ++ [LF]])
  = <[[20320] := lit "z"]> (load_aux_lines []).
Proof.
  apply aux_table_line_parsed.
  - reflexivity.
  - discriminate.
  - reflexivity.
  - vm_compute. repeat constructor.
  - discriminate.
  - discriminate.
  - split; intros c [= <-]; reflexivity.
  - vm_compute. intros Hin. apply elem_of_cons in Hin as [Hin|Hin]; [discriminate|].
    by apply elem_of_nil in Hin.
  - vm_compute. intros Hin. apply elem_of_cons in Hin as [Hin|Hin]; [discriminate|].
    by apply elem_of_nil in Hin.
Defined.

(** ** Loaded table and the trailing space *)

Section LoadedTable.
Context `{Pypinyin} `{Platform}.
Variable cfg : config.

End LoadedTable.


(** ** What strip mode leaves behind *)

Lemma split_by_chars (p : N → bool) (P : N → Prop) (s : str) :
  Forall P s → Forall (Forall P) (split_by p s).
Proof.
  induction 1 as [|c r Hc Hr IH]; simpl; [repeat constructor|].
  destruct (p c).
  - constructor; [constructor | done].
  - destruct (split_by p r) as [|w ws]; [repeat constructor; done|].
    inversion IH; subst. constructor; [by constructor | done].
Qed.

Lemma py_split_chars (P : N → Prop) (s : str) :
  Forall P s → Forall (Forall P) (py_split s).
Proof.
  intros Hs. unfold py_split. apply Forall_forall. intros w Hw.
  apply list_elem_of_filter in Hw as [_ Hin].
  pose proof (split_by_chars isspace P s Hs) as Hall.
  rewrite Forall_forall in Hall. by apply Hall.
Qed.

Lemma stripped_column_no_semicolon (col : str) : SEMI ∉ stripped_column col.
Proof.
  assert (Hall : Forall (λ c, negb (N.eqb SEMI c) = true) (stripped_column col)).
  { unfold stripped_column. apply Forall_py_join; [by repeat constructor|].
    apply Forall_fmap, Forall_forall. intros seg _. apply take_while_holds. }
  intros Hin. rewrite Forall_forall in Hall. specialize (Hall _ Hin).
  by rewrite N.eqb_refl in Hall.
Qed.

Lemma before_semicolon_id (seg : str) : SEMI ∉ seg → before_semicolon seg = seg.
Proof.
  intros Hs. apply take_while_all, Forall_forall. intros c Hc.
  destruct (N.eqb_spec SEMI c) as [Heq|]; [by subst c | done].
Qed.

Lemma stripped_column_fixpoint (col : str) :
  stripped_column col = col ↔ clean_column col.
Proof.
  assert (Hid : SEMI ∉ col → before_semicolon <$> py_split col = py_split col).
  { intros Hs. rewrite <- (list_fmap_id (py_split col)) at 2.
    apply Forall_fmap_ext_1.
    assert (Hall : Forall (Forall (λ c, c ≠ SEMI)) (py_split col)).
    { apply py_split_chars, Forall_forall. intros c Hc Heq. by subst c. }
    eapply Forall_impl; [exact Hall|]. intros seg Hseg. simpl.
    apply before_semicolon_id. intros Hin. rewrite Forall_forall in Hseg.
    by apply (Hseg _ Hin). }
  unfold clean_column. split.
  - intros Heq. assert (Hs : SEMI ∉ col).
    { rewrite <- Heq. apply stripped_column_no_semicolon. }
    split; [done|]. unfold stripped_column in Heq. by rewrite Hid in Heq.
  - intros [Hs Hj]. unfold stripped_column. by rewrite Hid.
Qed.

(** X5: after the strip, the transcription column of the line holds no
    semicolon, in either mode. *)
Theorem strip_leaves_no_semicolon (line : str) (userdb : bool) :
  SEMI ∉ pinyin_column (remove_auxiliary_code_from_line line userdb) userdb.
Proof.
  unfold pinyin_column at 1. rewrite strip_columns.
  destruct (pinyin_index userdb <? length (split_on TAB line))%nat eqn:E.
  - apply Nat.ltb_lt in E. rewrite list_lookup_insert_eq by done.
    apply stripped_column_no_semicolon.
  - apply Nat.ltb_ge in E. rewrite lookup_ge_None_2 by done. apply not_elem_of_nil.
Qed.

Lemma strip_unchanged_iff_column (line : str) (userdb : bool) :
  (pinyin_index userdb < length (split_on TAB line))%nat →
  remove_auxiliary_code_from_line line userdb = line
  ↔ stripped_column (pinyin_column line userdb) = pinyin_column line userdb.
Proof.
  intros Hidx. split.
  - intros Heq. apply (f_equal (split_on TAB)) in Heq.
    rewrite strip_columns, (proj2 (Nat.ltb_lt _ _) Hidx) in Heq.
    apply (f_equal (λ l, default [] (l !! pinyin_index userdb))) in Heq.
    by rewrite list_lookup_insert_eq in Heq.
  - intros Heq. rewrite strip_equation, (proj2 (Nat.ltb_lt _ _) Hidx), Heq.
    unfold pinyin_column. destruct (lookup_lt_is_Some_2 _ _ Hidx) as [col Hcol].
    rewrite Hcol. cbn [default]. unfold id.
    rewrite list_insert_id by done. apply join_split_on.
Qed.

(** X6: a line that has a transcription column is returned unchanged by the
    strip exactly when that column is clean: no semicolon, and equal to its
    own segments joined by single spaces. *)
Theorem strip_fixpoint (line : str) (userdb : bool) :
  (pinyin_index userdb < length (split_on TAB line))%nat →
  remove_auxiliary_code_from_line line userdb = line
  ↔ clean_column (pinyin_column line userdb).
Proof.
  intros Hidx. rewrite <- stripped_column_fixpoint.
  by apply strip_unchanged_iff_column.
Qed.

Lemma strip_fixpoint_witness :
  remove_auxiliary_code_from_line (lit "w" ++ [TAB] ++ lit "ni[x hao") false
  = lit "w" ++ [TAB] ++ lit "ni[x hao".
Proof.
  apply strip_fixpoint.
  - vm_compute. lia.
  - split.
    + vm_compute. intros Hin.
      repeat (apply elem_of_cons in Hin as [Hin|Hin]; [discriminate|]).
      by apply elem_of_nil in Hin.
    + vm_compute. reflexivity.
Defined.

(** The last character of a column joined from segments is not whitespace. *)
Lemma joined_tokens_end (toks : list str) :
  Forall (λ w, w ≠ [] ∧ Forall (λ c, isspace c = false) w) toks →
  last (py_join [SPACE] toks) ≠ Some SPACE.
Proof.
  intros Hall. destruct (last toks) as [x|] eqn:Hl.
  - pose proof (last_Some_elem_of _ _ Hl) as Hin.
    rewrite Forall_forall in Hall. destruct (Hall x Hin) as [Hne Hws].
    rewrite (last_py_join _ _ _ Hl) by done.
    intros Hsp. pose proof (last_Some_elem_of _ _ Hsp) as Hin2.
    rewrite Forall_forall in Hws. by specialize (Hws _ Hin2).
  - apply last_None in Hl. by rewrite Hl.
Qed.

(** X7: a user-dictionary line whose first column ends in a space, as the
    refresh pass leaves it, is never returned unchanged by the strip: the
    strip pass counts every such line as modified. *)
Theorem strip_changes_spaced_userdb_line (line : str) :
  endswith [SPACE] (pinyin_column line true) = true →
  remove_auxiliary_code_from_line line true ≠ line.
Proof.
  intros Hend Heq.
  pose proof (split_by_length_pos (N.eqb TAB) line) as Hlen. fold (split_on TAB line) in Hlen.
  apply (f_equal (split_on TAB)) in Heq.
  rewrite strip_columns in Heq. cbn [pinyin_index] in Heq.
  rewrite (proj2 (Nat.ltb_lt 0 _)) in Heq by lia.
  apply (f_equal (λ l, default [] (l !! 0%nat))) in Heq.
  rewrite list_lookup_insert_eq in Heq by lia.
  change (stripped_column (pinyin_column line true) = pinyin_column line true) in Heq.
  apply stripped_column_fixpoint in Heq. destruct Heq as [_ Hj].
  rewrite endswith_space in Hend. apply bool_decide_eq_true_1 in Hend.
  rewrite <- Hj in Hend.
  exact (joined_tokens_end _ (py_split_tokens (pinyin_column line true)) Hend).
Qed.

Lemma strip_changes_spaced_userdb_line_witness :
  remove_auxiliary_code_from_line Demo.userdb_two_spaces true ≠ Demo.userdb_two_spaces.
Proof.
  apply strip_changes_spaced_userdb_line. vm_compute. reflexivity.
Defined.

(** ** The loop over the lines of a file *)

Section Scan.
Variable step : scan → str → scan.
Variable g : bool → str → str * bool.

Hypothesis step_control : ∀ st l, is_control l = true →
  step st l = {| userdb_mode := userdb_mode st || is_userdb_head l;
                 modified := modified st;
                 processed_lines := processed_lines st ++ [l] |}.
Hypothesis step_blank : ∀ st l, is_control l = false → is_blank l = true →
  step st l = {| userdb_mode := userdb_mode st;
                 modified := modified st;
                 processed_lines := processed_lines st ++ [[]] |}.
Hypothesis step_data : ∀ st l, is_control l = false → is_blank l = false →
  step st l = {| userdb_mode := userdb_mode st;
                 modified := modified st || (g (userdb_mode st) l).2;
                 processed_lines := processed_lines st ++ [(g (userdb_mode st) l).1] |}.

Lemma marker_before_snoc_le (ls : list str) (l : str) (i : nat) :
  (i ≤ length ls)%nat → marker_before (ls ++ [l]) i = marker_before ls i.
Proof. intros Hi. unfold marker_before. by rewrite take_app_le. Qed.

Lemma marker_before_snoc_all (ls : list str) (l : str) :
  marker_before (ls ++ [l]) (length (ls ++ [l]))
  = marker_before ls (length ls) || (is_control l && is_userdb_head l).
Proof.
  unfold marker_before. rewrite !take_ge by lia.
  rewrite existsb_app. simpl. by rewrite orb_false_r.
Qed.

(** The loop, line by line: the mode a line is handled in is decided by the
    control lines before it. *)
Lemma scan_pointwise (lines : list str) :
  userdb_mode (foldl step scan_start lines) = marker_before lines (length lines)
  ∧ processed_lines (foldl step scan_start lines)
    = imap (λ i l, pass_line g (marker_before lines i) l) lines
  ∧ (modified (foldl step scan_start lines) = true
     ↔ ∃ i l, lines !! i = Some l ∧ is_data l = true
              ∧ (g (marker_before lines i) l).2 = true).
Proof.
  induction lines as [|l ls (IHm & IHp & IHc)] using rev_ind.
  - split; [done|]. split; [done|]. split; [done|].
    intros (i & l & Hl & _). by rewrite lookup_nil in Hl.
  - rewrite foldl_snoc. set (st := foldl step scan_start ls) in *.
    assert (Hout : imap (λ i x, pass_line g (marker_before (ls ++ [l]) i) x) (ls ++ [l])
                   = imap (λ i x, pass_line g (marker_before ls i) x) ls
                     ++ [pass_line g (marker_before ls (length ls)) l]).
    { rewrite imap_app. cbn [imap]. rewrite Nat.add_0_r.
      rewrite marker_before_snoc_le by lia. f_equal.
      apply imap_ext. intros i x Hi. apply lookup_lt_Some in Hi.
      by rewrite marker_before_snoc_le by lia. }
    rewrite marker_before_snoc_all, Hout, <- IHm, <- IHp.
    destruct (is_control l) eqn:Hc; [|destruct (is_blank l) eqn:Hb].
    + rewrite step_control by done. cbn [userdb_mode modified processed_lines andb].
      unfold pass_line. rewrite Hc. split; [done|]. split; [done|].
      rewrite IHc. split.
      * intros (i & x & Hx & Hd & Hg). pose proof (lookup_lt_Some _ _ _ Hx) as Hi.
        exists i, x. rewrite lookup_app_l, marker_before_snoc_le by lia. done.
      * intros (i & x & Hx & Hd & Hg). apply lookup_app_Some in Hx as [Hx|[Hge Hx]].
        -- pose proof (lookup_lt_Some _ _ _ Hx) as Hi. exists i, x.
           rewrite marker_before_snoc_le in Hg by lia. done.
        -- apply list_lookup_singleton_Some in Hx as [_ <-].
           unfold is_data in Hd. by rewrite Hc in Hd.
    + rewrite step_blank by done. cbn [userdb_mode modified processed_lines andb].
      unfold pass_line. rewrite Hc, Hb, orb_false_r. split; [done|]. split; [done|].
      rewrite IHc. split.
      * intros (i & x & Hx & Hd & Hg). pose proof (lookup_lt_Some _ _ _ Hx) as Hi.
        exists i, x. rewrite lookup_app_l, marker_before_snoc_le by lia. done.
      * intros (i & x & Hx & Hd & Hg). apply lookup_app_Some in Hx as [Hx|[Hge Hx]].
        -- pose proof (lookup_lt_Some _ _ _ Hx) as Hi. exists i, x.
           rewrite marker_before_snoc_le in Hg by lia. done.
        -- apply list_lookup_singleton_Some in Hx as [_ <-].
           unfold is_data in Hd. by rewrite Hc, Hb in Hd.
    + rewrite step_data by done. cbn [userdb_mode modified processed_lines andb].
      unfold pass_line. rewrite Hc, Hb, orb_false_r. split; [done|]. split; [done|].
      rewrite orb_true_iff, IHc. split.
      * intros [(i & x & Hx & Hd & Hg)|Hg].
        -- pose proof (lookup_lt_Some _ _ _ Hx) as Hi. exists i, x.
           rewrite lookup_app_l, marker_before_snoc_le by lia. done.
        -- exists (length ls), l. rewrite list_lookup_middle by done.
           rewrite marker_before_snoc_le by lia. rewrite <- IHm.
           split; [done|]. split; [|done]. unfold is_data. by rewrite Hc, Hb.
      * intros (i & x & Hx & Hd & Hg). apply lookup_app_Some in Hx as [Hx|[Hge Hx]].
        -- left. pose proof (lookup_lt_Some _ _ _ Hx) as Hi. exists i, x.
           rewrite marker_before_snoc_le in Hg by lia. done.
        -- right. apply list_lookup_singleton_Some in Hx as [Hi <-].
           assert (i = length ls) as -> by lia.
           rewrite marker_before_snoc_le in Hg by lia. by rewrite <- IHm in Hg.
Qed.
End Scan.

(** X8: the strip pass keeps the number of lines and writes each line from
    that line alone and the mode in force: control lines as they are,
    whitespace-only lines empty, data lines stripped; the mode of a line is
    UserDB exactly when a control line above it carries a marker, so a
    marker further down, or inside a data line, does not reach it, and the
    mode is never reset. *)
Theorem strip_pass_pointwise (lines : list str) :
  processed_lines (strip_lines lines)
  = imap (λ i l, strip_one (marker_before lines i) l) lines
  ∧ length (processed_lines (strip_lines lines)) = length lines
  ∧ userdb_mode (strip_lines lines) = marker_before lines (length lines).
Proof.
  destruct (scan_pointwise strip_step strip_data_line) with (lines := lines)
    as (Hm & Hp & _).
  - intros st l Hc. unfold strip_step. by rewrite Hc.
  - intros st l Hc Hb. unfold strip_step. by rewrite Hc, Hb.
  - intros st l Hc Hb. unfold strip_step. by rewrite Hc, Hb.
  - unfold strip_lines. rewrite Hp. split; [done|]. split; [apply length_imap | done].
Qed.

(** X9: the strip pass reports a file as unmodified exactly when every data
    line that has a transcription column, in the mode in force at that line,
    has a clean one. *)
Theorem strip_pass_unmodified_iff (lines : list str) :
  modified (strip_lines lines) = false
  ↔ ∀ i l, lines !! i = Some l → is_data l = true →
      (pinyin_index (marker_before lines i) < length (split_on TAB l))%nat →
      clean_column (pinyin_column l (marker_before lines i)).
Proof.
  destruct (scan_pointwise strip_step strip_data_line) with (lines := lines)
    as (_ & _ & Hc).
  - intros st l Hl. unfold strip_step. by rewrite Hl.
  - intros st l Hl Hb. unfold strip_step. by rewrite Hl, Hb.
  - intros st l Hl Hb. unfold strip_step. by rewrite Hl, Hb.
  - fold (strip_lines lines) in Hc. rewrite <- not_true_iff_false, Hc. split.
    + intros Hno i l Hl Hd Hidx. apply stripped_column_fixpoint.
      apply strip_unchanged_iff_column; [done|].
      destruct (decide (remove_auxiliary_code_from_line l (marker_before lines i) = l))
        as [Heq|Hne]; [done|].
      exfalso. apply Hno. exists i, l. split; [done|]. split; [done|].
      unfold strip_data_line. cbn [snd]. by rewrite bool_decide_eq_false_2.
    + intros Hall (i & l & Hl & Hd & Hg). unfold strip_data_line in Hg. cbn [snd] in Hg.
      apply negb_true_iff, bool_decide_eq_false in Hg. apply Hg.
      destruct (Nat.ltb_spec (pinyin_index (marker_before lines i))
                  (length (split_on TAB l))) as [Hidx|Hidx].
      * apply strip_unchanged_iff_column; [done|].
        by apply stripped_column_fixpoint, Hall.
      * rewrite strip_equation. by rewrite (proj2 (Nat.ltb_ge _ _)).
Qed.

Section RefreshScan.
Context `{Pypinyin} `{Platform}.
Variable cfg : config.

(** X10: the refresh pass keeps the number of lines and writes each line
    from that line alone and the mode in force: control lines as they are,
    whitespace-only lines empty, data lines as [process_data_line] returns
    them; as in the strip pass the mode of a line is UserDB exactly when a
    control line above it carries a marker. *)
Theorem refresh_pass_pointwise (aux_map : gmap str str) (lines : list str) :
  processed_lines (refresh_lines cfg aux_map lines)
  = imap (λ i l, refresh_one cfg aux_map (marker_before lines i) l) lines
  ∧ length (processed_lines (refresh_lines cfg aux_map lines)) = length lines
  ∧ userdb_mode (refresh_lines cfg aux_map lines) = marker_before lines (length lines).
Proof.
  destruct (scan_pointwise (refresh_step cfg aux_map)
              (λ u l, process_data_line cfg u aux_map l)) with (lines := lines)
    as (Hm & Hp & _).
  - intros st l Hc. unfold refresh_step. by rewrite Hc.
  - intros st l Hc Hb. unfold refresh_step. by rewrite Hc, Hb.
  - intros st l Hc Hb. unfold refresh_step. rewrite Hc, Hb.
    by destruct (process_data_line cfg (userdb_mode st) aux_map l).
  - unfold refresh_lines. rewrite Hp. split; [done|]. split; [apply length_imap | done].
Qed.
End RefreshScan.

(** ** The directory around one rewrite *)

Section Directory.
Context `{Pypinyin} `{Platform}.

(** Whatever fails, the write-and-replace step touches two paths only. *)
Lemma write_and_replace_frame (ft : fault) (tmp file_path : string) (text : str)
    (fs : fsys) (p : string) :
  p ≠ file_path → p ≠ tmp →
  (write_and_replace ft tmp file_path text fs).2 !! p = fs !! p.
Proof.
  intros Hp Ht. unfold write_and_replace, cleanup, os_unlink, shutil_move.
  destruct ft; cbn [is_unlink_fault is_move_fault snd];
    repeat (first
      [ progress cbn [snd mbind option_bind]
      | rewrite lookup_insert_ne by done
      | rewrite lookup_delete_ne by done
      | match goal with
        | |- context [encode_text ?t] => destruct (encode_text t)
        | |- context [if os_path_exists ?f ?q then _ else _] =>
            destruct (os_path_exists f q)
        | |- context [@lookup string file _ _ tmp ?m ≫= _] =>
            destruct (@lookup string file _ _ tmp m)
        end ]);
    done.
Qed.

(** X11: whatever step of the rewrite fails, [process_file_in_place] and
    [remove_auxiliary_code_in_file] leave every path other than the file
    and its temporary file as it was; and they leave the whole directory as
    it was when the file is in the skip set, is not writable, or has no
    modified line. *)
Theorem per_file_frame (cfg : config) (ft : fault) (tmp file_path : string)
    (aux_map : gmap str str) (fs : fsys) :
  (∀ p, p ≠ file_path → p ≠ tmp →
     (process_file_in_place cfg ft tmp file_path aux_map fs).2 !! p = fs !! p
     ∧ (remove_auxiliary_code_in_file ft tmp file_path fs).2 !! p = fs !! p)
  ∧ ((basename file_path ∈ skip_set ∨ os_access_w fs file_path = false
      ∨ (∀ lines, read_file_safely (file_bytes fs file_path) = Some lines →
           modified (refresh_lines cfg aux_map lines) = false)) →
     (process_file_in_place cfg ft tmp file_path aux_map fs).2 = fs
     ∧ returned (process_file_in_place cfg ft tmp file_path aux_map fs).1
       = bool_decide (basename file_path ∉ skip_set) && os_access_w fs file_path).
Proof.
  split.
  - intros p Hp Ht. unfold process_file_in_place, remove_auxiliary_code_in_file.
    destruct (bool_decide (basename file_path ∈ skip_set)); [done|].
    destruct (os_access_w fs file_path); [|done]. cbn [negb].
    destruct (read_file_safely (file_bytes fs file_path)) as [lines|]; [|done].
    split.
    + destruct (modified (refresh_lines cfg aux_map lines)); [|done].
      by apply write_and_replace_frame.
    + destruct (modified (strip_lines lines)); [|done].
      by apply write_and_replace_frame.
  - intros Hcase. unfold process_file_in_place.
    destruct (decide (basename file_path ∈ skip_set)) as [Hs|Hs].
    { rewrite bool_decide_eq_true_2 by done. rewrite bool_decide_eq_false_2; [done|].
      by intros Hn. }
    rewrite bool_decide_eq_false_2 by done. rewrite bool_decide_eq_true_2 by done.
    destruct (os_access_w fs file_path) eqn:Hw; [|done]. cbn [negb andb].
    destruct Hcase as [Hin|[Hno|Hun]]; [done|done|].
    destruct (read_file_safely (file_bytes fs file_path)) as [lines|] eqn:Hr.
    + by rewrite (Hun lines eq_refl).
    + exfalso. unfold read_file_safely in Hr. cbn [try_encodings decode] in Hr.
      destruct (decode_utf8 _); [done|]. by destruct (decode_gbk _).
Qed.

(** The write-and-replace step when nothing fails. *)
Lemma write_and_replace_ok (tmp file_path : string) (text : str) (data : list byte)
    (fs : fsys) :
  is_Some (fs !! file_path) → encode_text text = Some data →
  tmp ≠ file_path → fs !! tmp = None →
  write_and_replace NoFault tmp file_path text fs
  = (Replaced, <[file_path := {| content := data; writable := true |}]> fs).
Proof.
  intros Hsome Henc Hne Htmp. unfold write_and_replace. rewrite Henc.
  pose proof (exists_present fs file_path Hsome) as Hex.
  rewrite !exists_insert_other, Hex by done.
  cbn [os_unlink is_unlink_fault]. rewrite !exists_insert_other, Hex by done.
  unfold shutil_move. cbn [is_move_fault].
  rewrite lookup_delete_ne, lookup_insert_eq by done. cbn [mbind option_bind].
  f_equal. apply map_eq. intros p.
  destruct (decide (p = file_path)) as [->|Hp].
  - by rewrite !lookup_insert_eq.
  - rewrite !lookup_insert_ne by done.
    destruct (decide (p = tmp)) as [->|Ht].
    + by rewrite lookup_delete_eq.
    + rewrite lookup_delete_ne by done. rewrite lookup_delete_ne by done.
      by rewrite !lookup_insert_ne by done.
Qed.

Lemma writable_exists (fs : fsys) (p : string) :
  os_access_w fs p = true → is_Some (fs !! p).
Proof. unfold os_access_w. by destruct (fs !! p). Qed.

(** X12: when nothing fails, a rewrite replaces the target by the encoded
    lines, joined by line feeds and ended by one, and leaves nothing else
    behind: the temporary file is gone and every other path is as before. *)
Theorem rewrite_succeeds (cfg : config) (tmp file_path : string)
    (aux_map : gmap str str) (fs : fsys) (lines : list str) (data : list byte) :
  basename file_path ∉ skip_set → os_access_w fs file_path = true →
  read_file_safely (file_bytes fs file_path) = Some lines →
  modified (refresh_lines cfg aux_map lines) = true →
  encode_text (py_join [LF] (processed_lines (refresh_lines cfg aux_map lines)) ++ [LF])
  = Some data →
  tmp ≠ file_path → fs !! tmp = None →
  process_file_in_place cfg NoFault tmp file_path aux_map fs
  = (Replaced, <[file_path := {| content := data; writable := true |}]> fs).
Proof.
  intros Hs Hw Hr Hm Henc Hne Htmp. unfold process_file_in_place.
  rewrite bool_decide_eq_false_2 by done. rewrite Hw, Hr, Hm. cbn [negb].
  apply write_and_replace_ok; try done. by apply writable_exists.
Qed.
End Directory.

(** ** Reading back what was written *)

Lemma translate_newlines_no_CR (s : str) : CR ∉ translate_newlines s.
Proof.
  remember (length s) as n eqn:Hn. revert s Hn.
  induction n as [n IH] using lt_wf_ind. intros s Hn.
  destruct s as [|c r]; [apply not_elem_of_nil|].
  cbn [translate_newlines]. destruct (N.eqb_spec c CR) as [Hc|Hc].
  - apply not_elem_of_cons. split; [done|].
    destruct r as [|d r']; [apply not_elem_of_nil|].
    destruct (d =? LF); (eapply IH; [|reflexivity]); simpl in Hn; simpl; lia.
  - apply not_elem_of_cons. split; [done|].
    eapply IH; [|reflexivity]. simpl in Hn. lia.
Qed.

Lemma translate_newlines_clean (s : str) : CR ∉ s → translate_newlines s = s.
Proof.
  induction s as [|c r IH]; [done|]. intros Hc.
  apply not_elem_of_cons in Hc as [Hne Hr]. cbn [translate_newlines].
  rewrite (proj2 (N.eqb_neq c CR)) by done. by rewrite IH.
Qed.

Lemma readlines_chars (P : N → Prop) (text : str) :
  Forall P text → Forall (Forall P) (readlines text).
Proof.
  induction 1 as [|c r Hc Hr IH]; cbn [readlines]; [constructor|].
  destruct (N.eqb_spec c LF) as [Heq|Hne].
  - subst c. constructor; [by repeat constructor | done].
  - destruct (readlines r) as [|l ls]; [by repeat constructor|].
    inversion IH; subst. constructor; [by constructor | done].
Qed.

Lemma drop_while_sub (p : N → bool) (P : N → Prop) (s : str) :
  Forall P s → Forall P (drop_while p s).
Proof.
  induction 1 as [|c r Hc Hr IH]; simpl; [constructor|].
  destruct (p c); [done | by constructor].
Qed.

Lemma rstrip_lf_chars (P : N → Prop) (l : str) : Forall P l → Forall P (rstrip_lf l).
Proof.
  intros Hl. unfold rstrip_lf. apply Forall_reverse, drop_while_sub.
  by apply Forall_reverse.
Qed.

(** The lines of a text that ends with a line feed. *)
Lemma readlines_join (lines : list str) :
  Forall (λ l, LF ∉ l) lines → lines ≠ [] →
  readlines (py_join [LF] lines ++ [LF]) = (λ l, l ++ [LF]) <$> lines.
Proof.
  assert (Hone : ∀ (l rest : str), LF ∉ l →
            readlines (l ++ LF :: rest) = (l ++ [LF]) :: readlines rest).
  { induction l as [|c l IH]; intros rest Hl.
    - cbn [app readlines]. by rewrite N.eqb_refl.
    - apply not_elem_of_cons in Hl as [Hc Hl]. cbn [app readlines].
      rewrite (proj2 (N.eqb_neq c LF)) by done. by rewrite IH. }
  intros Hall Hne. induction Hall as [|l r Hl Hr IH]; [done|].
  destruct r as [|l2 r'].
  - cbn [py_join fmap list_fmap]. change (l ++ [LF]) with (l ++ LF :: []).
    by rewrite Hone.
  - rewrite py_join_cons2. cbn [fmap list_fmap] in *.
    rewrite <- !app_assoc. cbn [app]. rewrite Hone by done. f_equal.
    by apply IH.
Qed.

(** X13: the text the writer produces, the lines joined by line feeds and
    ended by one, reads back through the text-mode reader as the same lines,
    when no line holds a line feed or a carriage return and there is at
    least one line. *)
Theorem written_text_reads_back (lines : list str) :
  Forall (λ l, (LF ∉ l) ∧ (CR ∉ l)) lines → lines ≠ [] →
  rstrip_lf <$> readlines (translate_newlines (py_join [LF] lines ++ [LF])) = lines.
Proof.
  intros Hall Hne.
  assert (Hlf : Forall (λ l, LF ∉ l) lines).
  { eapply Forall_impl; [exact Hall|]. by intros l [? _]. }
  assert (Hcr : CR ∉ py_join [LF] lines ++ [LF]).
  { assert (Hf : Forall (λ c, c ≠ CR) (py_join [LF] lines ++ [LF])).
    { apply Forall_app. split; [|by repeat constructor].
      apply Forall_py_join; [by repeat constructor|].
      eapply Forall_impl; [exact Hall|]. intros l [_ Hc].
      apply Forall_forall. intros c Hin Heq. by subst c. }
    intros Hin. rewrite Forall_forall in Hf. by apply (Hf _ Hin). }
  rewrite translate_newlines_clean by done. rewrite readlines_join by done.
  rewrite <- list_fmap_compose. rewrite <- (list_fmap_id lines) at 2.
  apply Forall_fmap_ext_1. eapply Forall_impl; [exact Hlf|].
  intros l Hl. simpl. apply (rstrip_lf_line _ l); [done | by right].
Qed.

Lemma written_text_reads_back_witness :
  rstrip_lf <$> readlines (translate_newlines
      (py_join [LF] [lit "# Rime user dictionary"; []; lit "ni " ++ [TAB] ++ Demo.NI] ++ [LF]))
  = [lit "# Rime user dictionary"; []; lit "ni " ++ [TAB] ++ Demo.NI].
Proof.
  apply written_text_reads_back; [|discriminate].
  repeat constructor; vm_compute; intros Hin;
    repeat (apply elem_of_cons in Hin as [Hin|Hin]; [discriminate|]);
    by apply elem_of_nil in Hin.
Defined.

Section ReadLines.
Context `{Platform}.

Lemma read_lines_shape (bs : list byte) (lines : list str) :
  read_file_safely bs = Some lines →
  ∃ text, lines = rstrip_lf <$> readlines (translate_newlines text).
Proof.
  unfold read_file_safely. cbn [try_encodings decode].
  destruct (decode_utf8 bs) as [t|]; [intros [= <-]; by exists t|].
  destruct (decode_gbk bs) as [t|]; [intros [= <-]; by exists t|].
  intros [= <-]. by eexists.
Qed.

Lemma read_lines_chars (bs : list byte) (lines : list str) :
  read_file_safely bs = Some lines →
  Forall (Forall (λ c, c ≠ LF ∧ c ≠ CR)) lines.
Proof.
  intros Hr. destruct (read_lines_shape bs lines Hr) as [text ->].
  pose proof (stripped_lines_have_no_LF (translate_newlines text)) as Hlf.
  assert (Hcr : Forall (Forall (λ c, c ≠ CR)) (rstrip_lf <$> readlines (translate_newlines text))).
  { apply Forall_fmap. eapply Forall_impl.
    - apply (readlines_chars (λ c, c ≠ CR)). apply Forall_forall.
      intros c Hin Heq. subst c. by apply (translate_newlines_no_CR text).
    - intros l Hl. simpl. by apply rstrip_lf_chars. }
  rewrite Forall_forall in *. intros l Hin. apply Forall_forall. intros c Hc. split.
  - intros Heq. subst c. by apply (Hlf l Hin).
  - specialize (Hcr l Hin). rewrite Forall_forall in Hcr. by apply Hcr.
Qed.

(** X14: no line that [read_file_safely] returns holds a line feed or a
    carriage return, whichever encoding decoded the file: CRLF and CR line
    ends are all read as line ends. *)
Theorem read_lines_no_terminator (bs : list byte) (lines : list str) :
  read_file_safely bs = Some lines →
  Forall (λ l, (LF ∉ l) ∧ (CR ∉ l)) lines.
Proof.
  intros Hr. pose proof (read_lines_chars bs lines Hr) as Hall.
  eapply Forall_impl; [exact Hall|]. intros l Hl. rewrite Forall_forall in Hl.
  split; intros Hin; destruct (Hl _ Hin) as [H1 H2]; done.
Qed.
End ReadLines.

Lemma read_lines_no_terminator_witness :
  Forall (λ l, (LF ∉ l) ∧ (CR ∉ l))
    [lit "# Rime user dictionary"; lit "ni" ++ [TAB] ++ Demo.NI ++ [TAB] ++ lit "1"].
Proof.
  apply (read_lines_no_terminator (H := Demo.platform) (content Demo.userdb_file)).
  vm_compute. reflexivity.
Defined.

(** ** The strip pass on its own output *)

Lemma strip_twice (line : str) (userdb : bool) :
  rooted_column (pinyin_column line userdb) →
  remove_auxiliary_code_from_line (remove_auxiliary_code_from_line line userdb) userdb
  = remove_auxiliary_code_from_line line userdb.
Proof.
  intros Hroot.
  destruct (Nat.ltb_spec (pinyin_index userdb) (length (split_on TAB line))) as [Hidx|Hidx].
  - apply strip_unchanged_iff_column.
    + rewrite strip_columns, (proj2 (Nat.ltb_lt _ _) Hidx). by rewrite length_insert.
    + unfold pinyin_column at 1 2. rewrite strip_columns, (proj2 (Nat.ltb_lt _ _) Hidx).
      rewrite list_lookup_insert_eq by done. cbn [default]. unfold id.
      by apply stripped_column_idem.
  - rewrite (strip_equation line), (proj2 (Nat.ltb_ge _ _) Hidx).
    by rewrite strip_equation, (proj2 (Nat.ltb_ge _ _) Hidx).
Qed.

Lemma strip_chars (P : N → Prop) (line : str) (userdb : bool) :
  P TAB → P SPACE → Forall P line →
  Forall P (remove_auxiliary_code_from_line line userdb).
Proof.
  intros Ptab Psp Hline. rewrite strip_equation.
  destruct (pinyin_index userdb <? length (split_on TAB line))%nat; [|done].
  apply Forall_py_join; [by repeat constructor|].
  apply Forall_insert; [by apply split_by_chars|].
  unfold stripped_column. apply Forall_py_join; [by repeat constructor|].
  apply Forall_fmap. unfold pinyin_column.
  assert (Hcol : Forall P (default [] (split_on TAB line !! pinyin_index userdb))).
  { destruct (split_on TAB line !! pinyin_index userdb) as [col|] eqn:E; [|constructor].
    simpl. eapply Forall_lookup_1; [|exact E]. by apply split_by_chars. }
  eapply Forall_impl; [apply (py_split_chars P _ Hcol)|].
  intros seg Hseg. simpl. by apply take_while_sub.
Qed.

Lemma startswith_past_tab (h c0 x y : str) :
  TAB ∉ h → startswith h (c0 ++ TAB :: x) = startswith h (c0 ++ TAB :: y).
Proof.
  revert c0. induction h as [|a h IH]; intros c0 Hh; [by destruct c0|].
  apply not_elem_of_cons in Hh as [Ha Hh]. destruct c0 as [|b c0]; cbn [app startswith].
  - by rewrite (proj2 (N.eqb_neq a TAB)) by done.
  - by rewrite (IH c0 Hh).
Qed.

Lemma is_control_past_tab (c0 x y : str) :
  is_control (c0 ++ TAB :: x) = is_control (c0 ++ TAB :: y).
Proof.
  assert (Hh : ∀ h, TAB ∉ h →
            startswith h (c0 ++ TAB :: x) = startswith h (c0 ++ TAB :: y)).
  { intros h. apply startswith_past_tab. }
  assert (Hfree : ∀ s : string, Forall (λ c, c ≠ TAB) (lit s) → TAB ∉ lit s).
  { intros s Hall Hin. rewrite Forall_forall in Hall. by apply (Hall _ Hin). }
  unfold is_control, yaml_heads. cbn [existsb].
  rewrite !(Hh (lit _)), (Hh [HASH]); [done|..];
    first [ apply Hfree; vm_compute; repeat constructor; discriminate
          | apply not_elem_of_cons; split; [discriminate | apply not_elem_of_nil] ].
Qed.

(** In Plain mode the strip does not turn a line into a control line, nor a
    control line into something else: the first column is not touched. *)
Lemma strip_plain_keeps_control (line : str) :
  is_control (remove_auxiliary_code_from_line line false) = is_control line.
Proof.
  rewrite strip_equation. cbn [pinyin_index].
  destruct (1 <? length (split_on TAB line))%nat eqn:E; [|done].
  apply Nat.ltb_lt in E. pose proof (join_split_on TAB line) as Hj.
  generalize (stripped_column (pinyin_column line false)). intros s.
  destruct (split_on TAB line) as [|c0 [|c1 rest]]; simpl in E; try lia.
  rewrite <- Hj. change (<[1%nat := s]> (c0 :: c1 :: rest)) with (c0 :: s :: rest).
  rewrite !py_join_cons2. cbn [app].
  apply is_control_past_tab.
Qed.

Lemma marker_before_S (lines : list str) (i : nat) (l : str) :
  lines !! i = Some l →
  marker_before lines (S i) = marker_before lines i || (is_control l && is_userdb_head l).
Proof.
  intros Hl. unfold marker_before. rewrite (take_S_r _ _ _ Hl), existsb_app.
  simpl. by rewrite orb_false_r.
Qed.

Lemma marker_before_ge (lines : list str) (i : nat) :
  (length lines ≤ i)%nat → marker_before lines i = marker_before lines (length lines).
Proof. intros Hi. unfold marker_before. by rewrite !take_ge by lia. Qed.

(** The strip pass leaves the markers where they are. *)
Lemma strip_pass_keeps_markers (lines : list str) (i : nat) :
  marker_before (imap (λ j l, strip_one (marker_before lines j) l) lines) i
  = marker_before lines i.
Proof.
  set (out := imap (λ j l, strip_one (marker_before lines j) l) lines).
  assert (Hlen : length out = length lines) by apply length_imap.
  induction i as [|i IH]; [done|].
  destruct (lines !! i) as [l|] eqn:Hl.
  - assert (Ho : out !! i = Some (strip_one (marker_before lines i) l)).
    { subst out. by rewrite list_lookup_imap, Hl. }
    rewrite (marker_before_S _ _ _ Ho), (marker_before_S _ _ _ Hl), IH.
    destruct (marker_before lines i) eqn:Hm; [done|]. cbn [orb].
    unfold strip_one. destruct (is_control l) eqn:Hc; [by rewrite Hc|].
    destruct (is_blank l); [done|].
    by rewrite strip_plain_keeps_control, Hc.
  - apply lookup_ge_None in Hl.
    rewrite (marker_before_ge out), (marker_before_ge lines) by lia.
    rewrite (marker_before_ge out i), (marker_before_ge lines i) in IH by lia.
    done.
Qed.

Lemma strip_scan_output (lines : list str) :
  processed_lines (strip_lines lines)
  = imap (λ i l, strip_one (marker_before lines i) l) lines.
Proof.
  destruct (scan_pointwise strip_step strip_data_line) with (lines := lines)
    as (_ & Hp & _).
  - intros st l Hc. unfold strip_step. by rewrite Hc.
  - intros st l Hc Hb. unfold strip_step. by rewrite Hc, Hb.
  - intros st l Hc Hb. unfold strip_step. by rewrite Hc, Hb.
  - exact Hp.
Qed.

Lemma strip_scan_modified (lines : list str) :
  modified (strip_lines lines) = true
  ↔ ∃ i l, lines !! i = Some l ∧ is_data l = true
           ∧ remove_auxiliary_code_from_line l (marker_before lines i) ≠ l.
Proof.
  destruct (scan_pointwise strip_step strip_data_line) with (lines := lines)
    as (_ & _ & Hc).
  - intros st l Hl. unfold strip_step. by rewrite Hl.
  - intros st l Hl Hb. unfold strip_step. by rewrite Hl, Hb.
  - intros st l Hl Hb. unfold strip_step. by rewrite Hl, Hb.
  - fold (strip_lines lines) in Hc. rewrite Hc.
    split; intros (i & l & Hl & Hd & Hg); exists i, l; (split; [done|]); (split; [done|]).
    + unfold strip_data_line in Hg. cbn [snd] in Hg.
      by apply negb_true_iff, bool_decide_eq_false in Hg.
    + unfold strip_data_line. cbn [snd]. by apply negb_true_iff, bool_decide_eq_false.
Qed.

(** A line of the strip pass's output that is still a data line is left as
    it is by the strip. *)
Lemma stripped_lines_settled (lines : list str) (i : nat) (l' : str) :
  (∀ i l, lines !! i = Some l → is_data l = true →
     rooted_column (pinyin_column l (marker_before lines i))) →
  processed_lines (strip_lines lines) !! i = Some l' → is_data l' = true →
  remove_auxiliary_code_from_line l'
    (marker_before (processed_lines (strip_lines lines)) i) = l'.
Proof.
  intros Hroot Hl' Hd. rewrite strip_scan_output in *.
  rewrite strip_pass_keeps_markers. rewrite list_lookup_imap in Hl'.
  destruct (lines !! i) as [l|] eqn:Hl; [|done]. simpl in Hl'. simplify_eq.
  unfold strip_one in *. destruct (is_control l) eqn:Hcl.
  { unfold is_data in Hd. by rewrite Hcl in Hd. }
  destruct (is_blank l) eqn:Hbl; [done|].
  apply strip_twice, (Hroot i l Hl). unfold is_data. by rewrite Hcl, Hbl.
Qed.

(** X15: the strip pass run over its own output reports nothing modified,
    when no segment of a data line's transcription column begins with a
    semicolon. *)
Theorem strip_pass_idempotent (lines : list str) :
  (∀ i l, lines !! i = Some l → is_data l = true →
     rooted_column (pinyin_column l (marker_before lines i))) →
  modified (strip_lines (processed_lines (strip_lines lines))) = false.
Proof.
  intros Hroot. apply not_true_iff_false. rewrite strip_scan_modified.
  intros (i & l' & Hl' & Hd & Hne). apply Hne.
  by apply stripped_lines_settled.
Qed.

Lemma strip_pass_idempotent_witness :
  modified (strip_lines (processed_lines (strip_lines
     [lit "# Rime user dictionary"; lit "ni;x hao[b;y " ++ [TAB] ++ Demo.NI ++ Demo.HAO])))
  = false.
Proof.
  apply strip_pass_idempotent. intros i l Hl Hd.
  destruct i as [|[|i]]; simpl in Hl; simplify_eq.
  vm_compute. repeat constructor; discriminate.
Defined.

Section SecondRun.
Context `{Platform}.

(** X16: after [remove_auxiliary_code_in_file] has rewritten a file, the
    file reads back as the lines the pass produced, and a second call
    reports it unmodified and writes nothing, whatever would fail: provided
    the UTF-8 decoder returns the text whose encoding was written, and no
    segment of a data line begins with a semicolon. *)
Theorem strip_file_second_run (ft : fault) (tmp tmp' file_path : string) (fs : fsys)
    (lines : list str) (data : list byte) :
  basename file_path ∉ skip_set → os_access_w fs file_path = true →
  read_file_safely (file_bytes fs file_path) = Some lines →
  modified (strip_lines lines) = true →
  encode_text (py_join [LF] (processed_lines (strip_lines lines)) ++ [LF]) = Some data →
  decode_utf8 data = Some (py_join [LF] (processed_lines (strip_lines lines)) ++ [LF]) →
  tmp ≠ file_path → fs !! tmp = None →
  (∀ i l, lines !! i = Some l → is_data l = true →
     rooted_column (pinyin_column l (marker_before lines i))) →
  ∃ fs', remove_auxiliary_code_in_file NoFault tmp file_path fs = (Replaced, fs')
         ∧ read_file_safely (file_bytes fs' file_path)
           = Some (processed_lines (strip_lines lines))
         ∧ remove_auxiliary_code_in_file ft tmp' file_path fs' = (Unmodified, fs').
Proof.
  intros Hs Hw Hr Hm Henc Hdec Hne Htmp Hroot.
  set (out := processed_lines (strip_lines lines)) in *.
  exists (<[file_path := {| content := data; writable := true |}]> fs).
  assert (Hrun : remove_auxiliary_code_in_file NoFault tmp file_path fs
                 = (Replaced, <[file_path := {| content := data; writable := true |}]> fs)).
  { unfold remove_auxiliary_code_in_file.
    rewrite bool_decide_eq_false_2 by done. rewrite Hw, Hr, Hm. cbn [negb].
    apply write_and_replace_ok; try done. by apply writable_exists. }
  assert (Hclean : Forall (Forall (λ c, c ≠ LF ∧ c ≠ CR)) out).
  { subst out. rewrite strip_scan_output. apply Forall_lookup. intros i l' Hl'.
    rewrite list_lookup_imap in Hl'. destruct (lines !! i) as [l|] eqn:Hl; [|done].
    simpl in Hl'. simplify_eq.
    pose proof (Forall_lookup_1 _ _ _ _ (read_lines_chars _ _ Hr) Hl) as Hlc.
    unfold strip_one. destruct (is_control l); [done|].
    destruct (is_blank l); [constructor|]. by apply strip_chars. }
  assert (Hnonempty : out ≠ []).
  { apply strip_scan_modified in Hm as (i & l & Hl & _).
    intros Hnil. apply (f_equal length) in Hnil. subst out.
    rewrite strip_scan_output, length_imap in Hnil.
    apply lookup_lt_Some in Hl. simpl in Hnil. lia. }
  assert (Hread : read_file_safely data = Some out).
  { unfold read_file_safely. cbn [try_encodings decode]. rewrite Hdec. f_equal.
    assert (Hlf : Forall (λ l, LF ∉ l) out).
    { eapply Forall_impl; [exact Hclean|]. intros l Hl Hin.
      rewrite Forall_forall in Hl. by destruct (Hl _ Hin). }
    assert (Hcr : CR ∉ py_join [LF] out ++ [LF]).
    { assert (Hf : Forall (λ c, c ≠ CR) (py_join [LF] out ++ [LF])).
      { apply Forall_app. split; [|by repeat constructor].
        apply Forall_py_join; [by repeat constructor|].
        eapply Forall_impl; [exact Hclean|]. intros l Hl.
        eapply Forall_impl; [exact Hl|]. by intros c [_ ?]. }
      intros Hin. rewrite Forall_forall in Hf. by apply (Hf _ Hin). }
    rewrite translate_newlines_clean by done. rewrite readlines_join by done.
    rewrite <- list_fmap_compose. rewrite <- (list_fmap_id out) at 2.
    apply Forall_fmap_ext_1. eapply Forall_impl; [exact Hlf|].
    intros l Hl. simpl. apply (rstrip_lf_line _ l); [done | by right]. }
  assert (Hbytes : file_bytes (<[file_path := {| content := data; writable := true |}]> fs)
                     file_path = data).
  { unfold file_bytes. by rewrite lookup_insert_eq. }
  split; [done|]. split; [by rewrite Hbytes|].
  unfold remove_auxiliary_code_in_file.
  rewrite bool_decide_eq_false_2 by done.
  unfold os_access_w at 1. rewrite lookup_insert_eq. cbn [writable negb].
  rewrite Hbytes, Hread.
  assert (Hun : modified (strip_lines out) = false).
  { apply not_true_iff_false. rewrite strip_scan_modified.
    intros (i & l' & Hl' & Hd & Hnot). apply Hnot. subst out.
    by apply stripped_lines_settled. }
  by rewrite Hun.
Qed.
End SecondRun.

Lemma rewrite_succeeds_witness :
  process_file_in_place (H := Demo.pypinyin) (H0 := Demo.platform) shipped_config NoFault
    Demo.tmp_path Demo.plain_path Demo.aux_z {[ Demo.plain_path := Demo.plain_file ]}
  = (Replaced,
     <[Demo.plain_path := {| content := Demo.refreshed_bytes; writable := true |}]>
       {[ Demo.plain_path := Demo.plain_file ]}).
Proof.
  apply (rewrite_succeeds (H := Demo.pypinyin) (H0 := Demo.platform) shipped_config
           Demo.tmp_path Demo.plain_path Demo.aux_z _ [Demo.NI ++ [TAB] ++ lit "ni;x"]).
  - vm_compute. intros Hin. repeat (apply elem_of_cons in Hin as [Hin|Hin]; [discriminate|]).
    by apply elem_of_nil in Hin.
  - vm_compute. reflexivity.
  - vm_compute. reflexivity.
  - vm_compute. reflexivity.
  - vm_compute. reflexivity.
  - discriminate.
  - vm_compute. reflexivity.
Defined.

Lemma strip_file_second_run_witness :
  ∃ fs', remove_auxiliary_code_in_file (H0 := Demo.platform) NoFault Demo.tmp_path
           Demo.plain_path {[ Demo.plain_path := Demo.plain_file ]} = (Replaced, fs')
         ∧ read_file_safely (H := Demo.platform) (file_bytes fs' Demo.plain_path)
           = Some (processed_lines (strip_lines [Demo.NI ++ [TAB] ++ lit "ni;x"]))
         ∧ remove_auxiliary_code_in_file (H0 := Demo.platform) MoveFails Demo.tmp_path
             Demo.plain_path fs' = (Unmodified, fs').
Proof.
  apply (strip_file_second_run (H := Demo.platform) MoveFails Demo.tmp_path Demo.tmp_path
           Demo.plain_path _ [Demo.NI ++ [TAB] ++ lit "ni;x"] (content Demo.clean_file)).
  - vm_compute. intros Hin. repeat (apply elem_of_cons in Hin as [Hin|Hin]; [discriminate|]).
    by apply elem_of_nil in Hin.
  - vm_compute. reflexivity.
  - vm_compute. reflexivity.
  - vm_compute. reflexivity.
  - vm_compute. reflexivity.
  - vm_compute. reflexivity.
  - discriminate.
  - vm_compute. reflexivity.
  - intros i l Hl Hd. destruct i as [|i]; simpl in Hl; simplify_eq.
    vm_compute. repeat constructor; discriminate.
Defined.

(** ** Splitting after stripping *)

Lemma py_split_cons_space (c : N) (r : str) : isspace c = true → py_split (c :: r) = py_split r.
Proof.
  intros Hc. unfold py_split. cbn [split_by]. rewrite Hc.
  by rewrite filter_cons_False by (by intros ?).
Qed.

Lemma py_split_lstrip (s : str) : py_split (drop_while isspace s) = py_split s.
Proof.
  induction s as [|c r IH]; [done|]. cbn [drop_while].
  destruct (isspace c) eqn:E; [|done]. by rewrite IH, py_split_cons_space.
Qed.

Lemma split_by_snoc_sep (p : N → bool) (t : str) (c : N) :
  p c = true → split_by p (t ++ [c]) = split_by p t ++ [[]].
Proof.
  intros Hc. induction t as [|d t IH]; cbn [app split_by].
  - by rewrite Hc.
  - rewrite IH. destruct (p d); [done|].
    pose proof (split_by_not_nil p t) as Hne.
    by destruct (split_by p t).
Qed.

Lemma py_split_app_spaces (t ws : str) :
  Forall (λ c, isspace c = true) ws → py_split (t ++ ws) = py_split t.
Proof.
  intros Hws. revert t. induction Hws as [|c ws Hc _ IH]; intros t.
  - by rewrite app_nil_r.
  - change (t ++ c :: ws) with (t ++ [c] ++ ws). rewrite app_assoc, IH.
    unfold py_split. rewrite split_by_snoc_sep by done.
    rewrite filter_app, filter_cons_False by (by intros ?). by rewrite app_nil_r.
Qed.

(** [s.strip().split()] is [s.split()]. *)
Lemma py_split_strip (s : str) : py_split (py_strip s) = py_split s.
Proof.
  unfold py_strip. rewrite <- (py_split_lstrip s). set (a := drop_while isspace s).
  pose proof (take_drop_while isspace (reverse a)) as Hsplit.
  apply (f_equal reverse) in Hsplit. rewrite reverse_app, reverse_involutive in Hsplit.
  rewrite <- Hsplit at 2. symmetry. apply py_split_app_spaces.
  apply Forall_reverse, take_while_holds.
Qed.

(** ** Refresh of a line when the service answers *)

Lemma imap_imap {A B C} (f : nat → B → C) (g : nat → A → B) (l : list A) :
  imap f (imap g l) = imap (λ i x, f i (g i x)) l.
Proof.
  apply list_eq. intros i. rewrite !list_lookup_imap. by destruct (l !! i).
Qed.

Lemma suffix_of_head (seg : str) (c : N) : head (suffix_of seg) = Some c → aux_sep c = true.
Proof.
  intros Hc. apply drop_while_head in Hc. by apply negb_false_iff in Hc.
Qed.

Lemma before_sep_app (py sfx : str) :
  Forall (λ c, aux_sep c = false) py → (∀ c, head sfx = Some c → aux_sep c = true) →
  before_sep (py ++ sfx) = py.
Proof.
  intros Hpy Hs. unfold before_sep. induction Hpy as [|c r Hc _ IH]; cbn [app take_while].
  - destruct sfx as [|d sfx']; [done|]. cbn [take_while]. by rewrite (Hs d eq_refl).
  - by rewrite Hc, IH.
Qed.

Lemma suffix_of_no_space (seg : str) :
  Forall (λ c, isspace c = false) seg → Forall (λ c, isspace c = false) (suffix_of seg).
Proof. apply drop_while_sub. Qed.

(** The auxiliary refresh of a plain line with a transcription column. *)
Lemma refresh_aux_code_plain (word : str) (aux_map : gmap str str) (cols : list str) :
  (2 ≤ length cols)%nat →
  refresh_aux_code false word aux_map cols
  = Done (let merged :=
            imap (λ i seg, before_sep seg ++ [SEMI] ++ aux_code_at aux_map word i)
              (py_split (py_strip (default [] (cols !! 1%nat)))) in
          if bool_decide (merged ≠ []) then <[1%nat := py_join [SPACE] merged]> cols
          else cols).
Proof.
  intros Hlen. unfold refresh_aux_code. cbn [negb andb].
  rewrite (proj2 (Nat.eqb_neq _ 1)) by lia.
  rewrite (proj2 (Nat.ltb_lt 1 _)) by lia.
  rewrite merge_aux_total. cbn [Nat.add]. cbv zeta. case_bool_decide; [|done].
  unfold py_setitem. by rewrite (proj2 (Nat.ltb_lt 1 _)) by lia.
Qed.

Lemma reading_tokens (new_segs : list str) :
  Forall (λ w, ∃ py sfx, w = py ++ sfx ∧ plain_reading py
                         ∧ Forall (λ c, isspace c = false) sfx) new_segs →
  Forall (λ w, w ≠ [] ∧ Forall (λ c, isspace c = false) w) new_segs.
Proof.
  intros Hf. eapply Forall_impl; [exact Hf|].
  intros w (py & sfx & -> & [Hne Hpy] & Hs). split.
  - by destruct py.
  - apply Forall_app. split; [|done].
    eapply Forall_impl; [exact Hpy|]. by intros c [? _].
Qed.

Lemma reading_sep_free (py : str) : plain_reading py → Forall (λ c, aux_sep c = false) py.
Proof. intros [_ Hpy]. eapply Forall_impl; [exact Hpy|]. by intros c [_ ?]. Qed.

Section HappyPath.
Context `{Pypinyin} `{Platform}.
Variable cfg : config.
Hypothesis pinyin_on : REFRESH_PINYIN cfg = true.
Hypothesis has_pinyin : HAS_PYPINYIN cfg = true.
Hypothesis aux_on : REFRESH_AUX_CODE cfg = true.

(** X17: in Plain mode, for a line of at least two columns whose second
    column is not a number, when the service returns one clean reading per
    unit of the word and the table is not empty, the refresh rewrites the
    second column to one segment [reading;code] per reading, joined by
    single spaces: old segments beyond the readings are dropped, every old
    suffix is replaced by the code of the table, and the other columns are
    kept. *)
Theorem plain_refresh_segments (aux_map : gmap str str) (word : str) (cols char_py : list str) :
  aux_map ≠ ∅ → (2 ≤ length cols)%nat →
  py_isdigit (default [] (cols !! 1%nat)) = false →
  char_py_of word = Some char_py → Forall plain_reading char_py →
  refresh_cols cfg false aux_map word cols
  = <[1%nat := py_join [SPACE]
        (imap (λ i py, py ++ [SEMI] ++ aux_code_at aux_map word i) char_py)]> cols.
Proof.
  intros Hmap Hlen Hdigit Hchar Hread.
  set (segs := py_split (default [] (cols !! 1%nat))).
  set (new_segs := imap (λ i py, py ++ default [] (suffix_of <$> segs !! (0 + i)%nat)) char_py).
  assert (Hp : after_pinyin cfg false word cols = <[1%nat := py_join [SPACE] new_segs]> cols).
  { unfold after_pinyin. rewrite pinyin_on, has_pinyin. cbn [andb].
    unfold refresh_pinyin. cbn [andb]. rewrite Hchar. cbn [mbind option_bind].
    rewrite (proj2 (Nat.eqb_neq _ 1)) by lia.
    rewrite (proj2 (Nat.leb_le 2 _)) by lia. rewrite Hdigit. cbn [andb].
    fold segs. by rewrite plain_new_segs_total. }
  assert (Htok : Forall (λ w, ∃ py sfx, w = py ++ sfx ∧ plain_reading py
                                ∧ Forall (λ c, isspace c = false) sfx) new_segs).
  { apply Forall_lookup. intros i w Hw. subst new_segs.
    rewrite list_lookup_imap in Hw. destruct (char_py !! i) as [py|] eqn:Hpy; [|done].
    simpl in Hw. simplify_eq. eexists py, _. split; [done|].
    split; [by eapply Forall_lookup_1|].
    destruct (segs !! i) as [seg|] eqn:Hseg; [|constructor]. simpl.
    apply suffix_of_no_space.
    pose proof (Forall_lookup_1 _ _ _ _ (py_split_tokens _) Hseg) as [_ Hws]. done. }
  assert (Hraw : py_split (py_strip (py_join [SPACE] new_segs)) = new_segs).
  { rewrite py_split_strip. by apply py_split_join, reading_tokens. }
  assert (Hmerged :
    imap (λ i seg, before_sep seg ++ [SEMI] ++ aux_code_at aux_map word i) new_segs
    = imap (λ i py, py ++ [SEMI] ++ aux_code_at aux_map word i) char_py).
  { subst new_segs. rewrite imap_imap. apply imap_ext. intros i py Hpy. simpl.
    rewrite before_sep_app; [done| |].
    - apply reading_sep_free. by eapply Forall_lookup_1.
    - destruct (segs !! i) as [seg|]; [|done]. simpl. apply suffix_of_head. }
  unfold refresh_cols. rewrite Hp. unfold after_aux. rewrite aux_on.
  rewrite bool_decide_eq_true_2 by done. cbn [andb].
  rewrite refresh_aux_code_plain by (rewrite length_insert; lia). cbv zeta.
  rewrite list_lookup_insert_eq by lia. cbn [default]. unfold id.
  rewrite Hraw, Hmerged. cbn [cols_of userdb_trailing_space andb].
  case_bool_decide as Hm.
  - by rewrite list_insert_insert_eq.
  - assert (Hnil : char_py = []).
    { destruct char_py; [done|]. rewrite imap_cons in Hm. discriminate Hm. }
    subst char_py. by subst new_segs.
Qed.

(** X18: in UserDB mode, for a line of at least three columns whose first
    column has no more segments than the word has readings, when the
    service returns clean readings and the table is not empty with codes
    that do not end in a space, the refresh rewrites the first column to one
    segment [reading;code] per old segment, joined by single spaces and
    ended by one space; the other columns are kept. *)
Theorem userdb_refresh_segments (aux_map : gmap str str) (word : str) (cols char_py : list str) :
  aux_map ≠ ∅ → (∀ ch aux, aux_map !! ch = Some aux → last aux ≠ Some SPACE) →
  (3 ≤ length cols)%nat →
  char_py_of word = Some char_py → Forall plain_reading char_py →
  (length (py_split (default [] (cols !! 0%nat))) ≤ length char_py)%nat →
  refresh_cols cfg true aux_map word cols
  = <[0%nat := py_join [SPACE]
        (imap (λ i (seg : str), default [] (char_py !! i) ++ [SEMI] ++ aux_code_at aux_map word i)
           (py_split (default [] (cols !! 0%nat)))) ++ [SPACE]]> cols.
Proof.
  intros Hmap Hcodes Hlen Hchar Hread Hcount.
  set (segs := py_split (default [] (cols !! 0%nat))) in *.
  set (new_segs := imap (λ i seg, default [] (char_py !! i) ++ suffix_of seg) segs).
  assert (Hloop : ∀ (l : list str) (i : nat), (i + length l ≤ length char_py)%nat →
            userdb_new_segs cfg char_py i l
            = Some (imap (λ j seg, default [] (char_py !! (i + j)%nat) ++ suffix_of seg) l)).
  { induction l as [|seg l IH]; intros i Hi; [done|]. simpl in Hi.
    cbn [userdb_new_segs]. unfold base_py_for.
    rewrite (proj2 (Nat.ltb_lt i _)) by lia.
    destruct (lookup_lt_is_Some_2 char_py i) as [b Hb]; [lia|].
    rewrite Hb. cbn [mbind option_bind]. rewrite seg_root_total. cbn [mbind option_bind].
    rewrite IH by lia. cbn [mbind option_bind]. rewrite imap_cons, Nat.add_0_r, Hb.
    rewrite suffix_is_slice. do 2 f_equal.
    apply imap_ext. intros j x _. simpl. do 3 f_equal. lia. }
  assert (Hp : after_pinyin cfg true word cols = <[0%nat := py_join [SPACE] new_segs]> cols).
  { unfold after_pinyin. rewrite pinyin_on, has_pinyin. cbn [andb].
    unfold refresh_pinyin. cbn [andb].
    rewrite (proj2 (Nat.leb_le 3 _)) by lia. rewrite Hchar. cbn [mbind option_bind].
    fold segs. by rewrite Hloop by (simpl; lia). }
  assert (Htok : Forall (λ w, ∃ py sfx, w = py ++ sfx ∧ plain_reading py
                                ∧ Forall (λ c, isspace c = false) sfx) new_segs).
  { apply Forall_lookup. intros i w Hw. subst new_segs.
    rewrite list_lookup_imap in Hw. destruct (segs !! i) as [seg|] eqn:Hseg; [|done].
    simpl in Hw. simplify_eq.
    destruct (lookup_lt_is_Some_2 char_py i) as [py Hpy].
    { apply lookup_lt_Some in Hseg. lia. }
    rewrite Hpy. eexists py, _. split; [done|].
    split; [by eapply Forall_lookup_1|]. apply suffix_of_no_space.
    pose proof (Forall_lookup_1 _ _ _ _ (py_split_tokens _) Hseg) as [_ Hws]. done. }
  assert (Hraw : py_split (py_strip (py_join [SPACE] new_segs)) = new_segs).
  { rewrite py_split_strip. by apply py_split_join, reading_tokens. }
  assert (Hmerged :
    imap (λ i seg, before_sep seg ++ [SEMI] ++ aux_code_at aux_map word i) new_segs
    = imap (λ i (seg : str), default [] (char_py !! i) ++ [SEMI] ++ aux_code_at aux_map word i)
        segs).
  { subst new_segs. rewrite imap_imap. apply imap_ext. intros i seg Hseg. simpl.
    rewrite before_sep_app; [done| |apply suffix_of_head].
    destruct (lookup_lt_is_Some_2 char_py i) as [py Hpy].
    { apply lookup_lt_Some in Hseg. lia. }
    rewrite Hpy. apply reading_sep_free. by eapply Forall_lookup_1. }
  assert (Hlast : last (py_join [SPACE]
            (imap (λ i (seg : str), default [] (char_py !! i) ++ [SEMI] ++ aux_code_at aux_map word i)
               segs)) ≠ Some SPACE).
  { rewrite <- Hmerged. by apply merged_column_last. }
  unfold refresh_cols. rewrite Hp. unfold after_aux. rewrite aux_on.
  rewrite bool_decide_eq_true_2 by done. cbn [andb].
  rewrite refresh_aux_code_userdb by (rewrite length_insert; lia).
  rewrite list_lookup_insert_eq by lia. cbn [default]. unfold id.
  rewrite Hraw, Hmerged. cbn [cols_of]. rewrite list_insert_insert_eq.
  unfold userdb_trailing_space. cbn [andb].
  rewrite bool_decide_eq_true_2.
  2:{ intros Hnil. apply (f_equal length) in Hnil. rewrite length_insert in Hnil.
      simpl in Hnil. lia. }
  rewrite length_insert, (proj2 (Nat.ltb_lt 0 _)) by lia.
  rewrite list_lookup_insert_eq by lia. cbn [andb].
  rewrite endswith_space, bool_decide_eq_false_2 by done. cbn [negb].
  by rewrite list_insert_insert_eq.
Qed.
End HappyPath.

Lemma plain_refresh_segments_witness :
  refresh_cols (H := Demo.pypinyin) (H0 := Demo.platform) shipped_config false Demo.aux_z
    (Demo.NI ++ Demo.HAO) (split_on TAB Demo.plain_nihao)
  = [Demo.NI ++ Demo.HAO; [110; 464] ++ lit ";z " ++ [104; 462; 111] ++ lit ";"].
Proof.
  apply (plain_refresh_segments (H := Demo.pypinyin) (H0 := Demo.platform) shipped_config
           eq_refl eq_refl eq_refl Demo.aux_z (Demo.NI ++ Demo.HAO)
           (split_on TAB Demo.plain_nihao) [[110; 464]; [104; 462; 111]]).
  - intros Heq. apply (f_equal (lookup Demo.NI)) in Heq. vm_compute in Heq. discriminate.
  - vm_compute. lia.
  - vm_compute. reflexivity.
  - vm_compute. reflexivity.
  - repeat constructor; try discriminate; vm_compute; reflexivity.
Defined.

Lemma userdb_refresh_segments_witness :
  refresh_cols (H := Demo.pypinyin) (H0 := Demo.platform) shipped_config true Demo.aux_z
    Demo.NI [lit "ni[old;x  "; Demo.NI; lit "1"]
  = [[110; 464] ++ lit ";z "; Demo.NI; lit "1"].
Proof.
  apply (userdb_refresh_segments (H := Demo.pypinyin) (H0 := Demo.platform) shipped_config
           eq_refl eq_refl eq_refl Demo.aux_z Demo.NI
           [lit "ni[old;x  "; Demo.NI; lit "1"] [[110; 464]]).
  - intros Heq. apply (f_equal (lookup Demo.NI)) in Heq. vm_compute in Heq. discriminate.
  - intros ch aux Hch. unfold Demo.aux_z in Hch.
    apply lookup_singleton_Some in Hch as [_ <-]. discriminate.
  - vm_compute. lia.
  - vm_compute. reflexivity.
  - repeat constructor; try discriminate; vm_compute; reflexivity.
  - vm_compute. lia.
Defined.

(** ** The earlier tool against MainRime.py *)

Section BaseTool.
Context `{Pypinyin} `{Platform}.
Variable cfg : config.

(** The second test of [userdb] in the earlier tool's auxiliary step is
    dead: the step is the one of MainRime.py. *)
Lemma base_refresh_aux_code_same (userdb : bool) (word : str) (aux_map : gmap str str)
    (cols : list str) :
  Base.refresh_aux_code userdb word aux_map cols = refresh_aux_code userdb word aux_map cols.
Proof. by destruct userdb. Qed.

Lemma base_refresh_cols_same (userdb : bool) (aux_map : gmap str str) (word : str)
    (cols : list str) :
  Base.refresh_cols cfg userdb aux_map word cols = refresh_cols cfg userdb aux_map word cols.
Proof.
  unfold Base.refresh_cols, refresh_cols, after_aux. cbv zeta.
  by rewrite base_refresh_aux_code_same.
Qed.

Lemma base_step_same (aux_map : gmap str str) (st : scan) (line : str) :
  Base.refresh_step cfg aux_map (userdb_mode st, processed_lines st) line
  = (userdb_mode (refresh_step cfg aux_map st line),
     processed_lines (refresh_step cfg aux_map st line)).
Proof.
  unfold Base.refresh_step, refresh_step, process_data_line.
  destruct (is_control line); [done|]. destruct (is_blank line); [done|].
  destruct (split_on TAB line !! _) as [word|]; [|done].
  destruct (is_blank word); [done|]. cbn [userdb_mode processed_lines].
  by rewrite base_refresh_cols_same.
Qed.

Lemma base_fold_same (aux_map : gmap str str) (lines : list str) (st : scan) :
  foldl (Base.refresh_step cfg aux_map) (userdb_mode st, processed_lines st) lines
  = (userdb_mode (foldl (refresh_step cfg aux_map) st lines),
     processed_lines (foldl (refresh_step cfg aux_map) st lines)).
Proof.
  revert st. induction lines as [|l ls IH]; intros st; [done|].
  cbn [foldl]. by rewrite base_step_same, IH.
Qed.

Lemma base_lines_same (aux_map : gmap str str) (lines : list str) :
  Base.refresh_lines cfg aux_map lines
  = (userdb_mode (refresh_lines cfg aux_map lines),
     processed_lines (refresh_lines cfg aux_map lines)).
Proof. exact (base_fold_same aux_map lines scan_start). Qed.

(** A pass that sets [modified] for no line writes every line as it read
    it, whitespace-only lines emptied. *)
Lemma unmodified_pass_lines (aux_map : gmap str str) (lines : list str) :
  modified (refresh_lines cfg aux_map lines) = false →
  processed_lines (refresh_lines cfg aux_map lines) = kept_line <$> lines.
Proof.
  intros Hm.
  destruct (scan_pointwise (refresh_step cfg aux_map)
              (λ u l, process_data_line cfg u aux_map l)) with (lines := lines)
    as (_ & Hp & Hc).
  - intros st l Hc. unfold refresh_step. by rewrite Hc.
  - intros st l Hc Hb. unfold refresh_step. by rewrite Hc, Hb.
  - intros st l Hc Hb. unfold refresh_step. rewrite Hc, Hb.
    by destruct (process_data_line cfg (userdb_mode st) aux_map l).
  - unfold refresh_lines in *. rewrite Hp.
    apply list_eq. intros i. rewrite list_lookup_imap, list_lookup_fmap.
    destruct (lines !! i) as [l|] eqn:Hl; [|done]. simpl. f_equal.
    unfold pass_line, kept_line.
    destruct (is_control l) eqn:Hctl; [done|]. destruct (is_blank l) eqn:Hb; [done|].
    destruct ((process_data_line cfg (marker_before lines i) aux_map l).2) eqn:Hg.
    + assert (modified (foldl (refresh_step cfg aux_map) scan_start lines) = true) as Ht.
      { apply Hc. exists i, l. split; [done|]. split; [|done].
        unfold is_data. by rewrite Hctl, Hb. }
      congruence.
    + destruct (decide ((process_data_line cfg (marker_before lines i) aux_map l).1 = l))
        as [Heq|Hne]; [done|].
      apply modified_iff_differs in Hne. congruence.
Qed.

(** X19: fed the same lines, the loop of the earlier tool and the loop of
    MainRime.py write the same lines and end in the same mode; the output
    has one line per input line, and the mode is UserDB exactly when a
    control line carries a marker. *)
Theorem base_pass_agrees (aux_map : gmap str str) (lines : list str) :
  Base.refresh_lines cfg aux_map lines
  = (userdb_mode (refresh_lines cfg aux_map lines),
     processed_lines (refresh_lines cfg aux_map lines))
  ∧ length (Base.refresh_lines cfg aux_map lines).2 = length lines
  ∧ (Base.refresh_lines cfg aux_map lines).1 = marker_before lines (length lines).
Proof.
  assert (Hsame : Base.refresh_lines cfg aux_map lines
                  = (userdb_mode (refresh_lines cfg aux_map lines),
                     processed_lines (refresh_lines cfg aux_map lines))).
  { apply base_lines_same. }
  destruct (scan_pointwise (refresh_step cfg aux_map)
              (λ u l, process_data_line cfg u aux_map l)) with (lines := lines)
    as (Hm & Hp & _).
  - intros st l Hc. unfold refresh_step. by rewrite Hc.
  - intros st l Hc Hb. unfold refresh_step. by rewrite Hc, Hb.
  - intros st l Hc Hb. unfold refresh_step. rewrite Hc, Hb.
    by destruct (process_data_line cfg (userdb_mode st) aux_map l).
  - split; [done|]. rewrite Hsame. cbn [fst snd]. unfold refresh_lines.
    rewrite Hp, Hm. split; [apply length_imap | done].
Qed.

(** X20: on a file in which MainRime.py finds a modified line, the earlier
    tool does what MainRime.py does, whatever step of the rewrite fails: the
    same report and the same directory afterwards. *)
Theorem base_agrees_when_modified (ft : fault) (tmp file_path : string)
    (aux_map : gmap str str) (fs : fsys) (lines : list str) :
  read_file_safely (file_bytes fs file_path) = Some lines →
  modified (refresh_lines cfg aux_map lines) = true →
  Base.process_file_in_place cfg ft tmp file_path aux_map fs
  = process_file_in_place cfg ft tmp file_path aux_map fs.
Proof.
  intros Hr Hm. unfold Base.process_file_in_place, process_file_in_place.
  destruct (bool_decide (basename file_path ∈ skip_set)); [done|].
  destruct (os_access_w fs file_path); [|done]. cbn [negb].
  rewrite Hr, Hm. cbn [negb]. by rewrite base_lines_same.
Qed.

(** X21: on a file in which MainRime.py finds no modified line and which it
    therefore leaves alone, the earlier tool still replaces the file: by the
    lines as read, whitespace-only lines emptied, joined by line feeds and
    ended by one. *)
Theorem base_rewrites_unmodified (tmp file_path : string) (aux_map : gmap str str)
    (fs : fsys) (lines : list str) (data : list byte) :
  basename file_path ∉ skip_set → os_access_w fs file_path = true →
  read_file_safely (file_bytes fs file_path) = Some lines →
  modified (refresh_lines cfg aux_map lines) = false →
  encode_text (py_join [LF] (kept_line <$> lines) ++ [LF]) = Some data →
  tmp ≠ file_path → fs !! tmp = None →
  process_file_in_place cfg NoFault tmp file_path aux_map fs = (Unmodified, fs)
  ∧ Base.process_file_in_place cfg NoFault tmp file_path aux_map fs
    = (Replaced, <[file_path := {| content := data; writable := true |}]> fs).
Proof.
  intros Hs Hw Hr Hm Henc Hne Htmp. split.
  - unfold process_file_in_place.
    rewrite bool_decide_eq_false_2 by done. by rewrite Hw, Hr, Hm.
  - unfold Base.process_file_in_place.
    rewrite bool_decide_eq_false_2 by done. rewrite Hw, Hr. cbn [negb].
    rewrite base_lines_same. cbn [snd].
    rewrite unmodified_pass_lines by done.
    apply write_and_replace_ok; try done. by apply writable_exists.
Qed.
End BaseTool.

Lemma base_agrees_when_modified_witness :
  Base.process_file_in_place (H := Demo.pypinyin) (H0 := Demo.platform) shipped_config
    MoveFails Demo.tmp_path Demo.plain_path Demo.aux_z {[ Demo.plain_path := Demo.plain_file ]}
  = process_file_in_place (H := Demo.pypinyin) (H0 := Demo.platform) shipped_config
      MoveFails Demo.tmp_path Demo.plain_path Demo.aux_z
      {[ Demo.plain_path := Demo.plain_file ]}.
Proof.
  apply (base_agrees_when_modified (H := Demo.pypinyin) (H0 := Demo.platform) shipped_config
           MoveFails Demo.tmp_path Demo.plain_path Demo.aux_z _
           [Demo.NI ++ [TAB] ++ lit "ni;x"]).
  - vm_compute. reflexivity.
  - vm_compute. reflexivity.
Defined.

Lemma base_rewrites_unmodified_witness :
  process_file_in_place (H := Demo.pypinyin) (H0 := Demo.platform) Demo.toggles_off NoFault
    Demo.tmp_path Demo.plain_path ∅ {[ Demo.plain_path := Demo.ragged_file ]}
  = (Unmodified, {[ Demo.plain_path := Demo.ragged_file ]})
  ∧ Base.process_file_in_place (H := Demo.pypinyin) (H0 := Demo.platform) Demo.toggles_off
      NoFault Demo.tmp_path Demo.plain_path ∅ {[ Demo.plain_path := Demo.ragged_file ]}
    = (Replaced,
       <[Demo.plain_path :=
           {| content := Demo.NI_bytes ++ [Demo.TAB_byte] ++ Demo.bytes_of "ni"
                         ++ [Demo.LF_byte; Demo.LF_byte];
              writable := true |}]> {[ Demo.plain_path := Demo.ragged_file ]}).
Proof.
  apply (base_rewrites_unmodified (H := Demo.pypinyin) (H0 := Demo.platform)
           Demo.toggles_off Demo.tmp_path Demo.plain_path ∅ _
           [Demo.NI ++ [TAB] ++ lit "ni"; lit "  "]).
  - vm_compute. intros Hin. repeat (apply elem_of_cons in Hin as [Hin|Hin]; [discriminate|]).
    by apply elem_of_nil in Hin.
  - vm_compute. reflexivity.
  - vm_compute. reflexivity.
  - vm_compute. reflexivity.
  - vm_compute. reflexivity.
  - discriminate.
  - vm_compute. reflexivity.
Defined.

(** ** The batch drivers *)

Lemma read_file_safely_some `{Platform} (bs : list byte) :
  ∃ lines, read_file_safely bs = Some lines.
Proof.
  unfold read_file_safely. cbn [try_encodings decode].
  destruct (decode_utf8 bs); [by eexists|]. destruct (decode_gbk bs); by eexists.
Qed.

Lemma access_of_lookup (fs fs' : fsys) (p : string) :
  fs' !! p = fs !! p → os_access_w fs' p = os_access_w fs p.
Proof. intros Heq. unfold os_access_w. by rewrite Heq. Qed.

Section BatchFrame.
Context `{Pypinyin} `{Platform}.
Variable cfg : config.
Variable os_path_join : string → string → string.
Variable rewrite_of : string → fault * string.

Lemma refresh_call_local (aux_map : gmap str str) :
  local_call (λ ft tmp file_path fs', process_file_in_place cfg ft tmp file_path aux_map fs').
Proof.
  split.
  - intros ft tmp t fs p Hp Ht. unfold process_file_in_place.
    destruct (bool_decide (basename t ∈ skip_set)); [done|].
    destruct (os_access_w fs t); [|done]. cbn [negb].
    destruct (read_file_safely (file_bytes fs t)) as [lines|]; [|done].
    destruct (modified (refresh_lines cfg aux_map lines)); [|done].
    by apply write_and_replace_frame.
  - intros ft tmp t fs [Hs|Hw]; unfold process_file_in_place.
    + by rewrite bool_decide_eq_true_2.
    + destruct (bool_decide (basename t ∈ skip_set)); [done|]. by rewrite Hw.
Qed.

Lemma strip_call_local :
  local_call (λ ft tmp file_path fs', remove_auxiliary_code_in_file ft tmp file_path fs').
Proof.
  split.
  - intros ft tmp t fs p Hp Ht. unfold remove_auxiliary_code_in_file.
    destruct (bool_decide (basename t ∈ skip_set)); [done|].
    destruct (os_access_w fs t); [|done]. cbn [negb].
    destruct (read_file_safely (file_bytes fs t)) as [lines|]; [|done].
    destruct (modified (strip_lines lines)); [|done].
    by apply write_and_replace_frame.
  - intros ft tmp t fs [Hs|Hw]; unfold remove_auxiliary_code_in_file.
    + by rewrite bool_decide_eq_true_2.
    + destruct (bool_decide (basename t ∈ skip_set)); [done|]. by rewrite Hw.
Qed.

Lemma base_call_local (aux_map : gmap str str) :
  local_call (λ ft tmp file_path fs',
                Base.process_file_in_place cfg ft tmp file_path aux_map fs').
Proof.
  split.
  - intros ft tmp t fs p Hp Ht. unfold Base.process_file_in_place.
    destruct (bool_decide (basename t ∈ skip_set)); [done|].
    destruct (os_access_w fs t); [|done]. cbn [negb].
    destruct (read_file_safely (file_bytes fs t)) as [lines|]; [|done].
    by apply write_and_replace_frame.
  - intros ft tmp t fs [Hs|Hw]; unfold Base.process_file_in_place.
    + by rewrite bool_decide_eq_true_2.
    + destruct (bool_decide (basename t ∈ skip_set)); [done|]. by rewrite Hw.
Qed.

(** A path that is no temporary name, and is not a task or is a task the
    call passes over, survives one call. *)
Lemma local_call_keeps (call : fault → string → string → fsys → report * fsys)
    (t p : string) (fs : fsys) :
  local_call call → p ≠ (rewrite_of t).2 →
  p ≠ t ∨ basename p ∈ skip_set ∨ os_access_w fs p = false →
  (call (rewrite_of t).1 (rewrite_of t).2 t fs).2 !! p = fs !! p.
Proof.
  intros [Hframe Hskip] Htmp Hcase.
  destruct (decide (p = t)) as [->|Hne].
  - destruct Hcase as [Hn|Hcase]; [done|]. by rewrite Hskip.
  - by apply Hframe.
Qed.

Lemma batch_fold_keeps (call : fault → string → string → fsys → report * fsys)
    (tasks : list string) (p : string) (st : fsys * nat) :
  local_call call → (∀ t, t ∈ tasks → p ≠ (rewrite_of t).2) →
  p ∉ tasks ∨ basename p ∈ skip_set ∨ os_access_w st.1 p = false →
  (foldl (batch_step rewrite_of call) st tasks).1 !! p = st.1 !! p.
Proof.
  intros Hloc. revert st. induction tasks as [|t ts IH]; intros st Htmp Hcase; [done|].
  cbn [foldl].
  assert (Hstep : (batch_step rewrite_of call st t).1 !! p = st.1 !! p).
  { unfold batch_step. cbn [fst]. apply local_call_keeps; [done| |].
    - apply Htmp. by left.
    - destruct Hcase as [Hn|[Hs|Hw]]; [left|by right; left|by right; right].
      intros ->. apply Hn. by left. }
  rewrite IH.
  - exact Hstep.
  - intros t' Ht'. apply Htmp. by right.
  - destruct Hcase as [Hn|[Hs|Hw]]; [left|by right; left|right; right].
    + intros Hin. apply Hn. by right.
    + by rewrite (access_of_lookup _ _ _ Hstep).
Qed.

Lemma batch_keeps (call : fault → string → string → fsys → report * fsys)
    (path : string) (walk : list (string * list string)) (fs : fsys) (p : string) :
  local_call call → (∀ t, p ≠ (rewrite_of t).2) →
  (p ≠ path ∧ p ∉ walk_tasks os_path_join walk) ∨ basename p ∈ skip_set
  ∨ os_access_w fs p = false →
  (batch os_path_join rewrite_of call path walk fs).1 !! p = fs !! p.
Proof.
  intros Hloc Htmp Hcase. unfold batch.
  destruct (os_path_isfile fs path).
  - cbn [fst]. apply local_call_keeps; [done|done|]. destruct Hcase as [[Hp _]|Hcase]; auto.
  - cbv zeta. case_bool_decide; [done|]. cbn [fst].
    apply (batch_fold_keeps call (walk_tasks os_path_join walk) p (fs, 0%nat)); [done| |].
    + intros t _. apply Htmp.
    + cbn [fst]. destruct Hcase as [[_ Hp]|Hcase]; auto.
Qed.

(** X22: a batch run, of the strip pass, of the refresh pass or of the
    earlier tool, over a file or over a directory, whatever fails at
    whichever file, leaves a path as it was (present with the same content
    and permission, or absent) unless a call was made on it: it is enough
    that the path is no temporary name and is not among the tasks, or that
    its file name is in the skip set, or that it is not writable. *)
Theorem batch_frame (path : string) (walk : list (string * list string))
    (aux_map : gmap str str) (fs : fsys) (p : string) :
  (∀ t, p ≠ (rewrite_of t).2) →
  (p ≠ path ∧ p ∉ walk_tasks os_path_join walk) ∨ basename p ∈ skip_set
  ∨ os_access_w fs p = false →
  (batch_remove_auxiliary_code os_path_join rewrite_of path walk fs).1 !! p = fs !! p
  ∧ (batch_refresh_dict_files cfg os_path_join rewrite_of path walk aux_map fs).1 !! p
    = fs !! p
  ∧ process_files_in_place cfg os_path_join rewrite_of path walk aux_map fs !! p = fs !! p.
Proof.
  intros Htmp Hcase. split; [|split].
  - apply batch_keeps; [apply strip_call_local|done|done].
  - apply (batch_keeps _ path walk fs p (refresh_call_local aux_map)); done.
  - pose proof (batch_keeps _ path walk fs p (base_call_local aux_map) Htmp Hcase) as Hb.
    unfold batch in Hb. unfold process_files_in_place.
    destruct (os_path_isfile fs path); [exact Hb|].
    cbv zeta in Hb.
    assert (Hfold : ∀ tasks st,
              (foldl (batch_step rewrite_of
                        (λ ft tmp file_path fs',
                           Base.process_file_in_place cfg ft tmp file_path aux_map fs'))
                 st tasks).1
              = foldl (λ fs' file_path,
                         (Base.process_file_in_place cfg (rewrite_of file_path).1
                            (rewrite_of file_path).2 file_path aux_map fs').2)
                  st.1 tasks).
    { induction tasks as [|t ts IH]; intros st; [done|]. cbn [foldl]. by rewrite IH. }
    case_bool_decide as Hnil.
    + by rewrite Hnil.
    + cbn [fst] in Hb. by rewrite Hfold in Hb.
Qed.

(** One call on a file in which the pass finds nothing to do. *)
Lemma settled_call (aux_map : gmap str str) (ft : fault) (tmp t : string) (fs : fsys) :
  (∀ lines, read_file_safely (file_bytes fs t) = Some lines →
     modified (refresh_lines cfg aux_map lines) = false
     ∧ modified (strip_lines lines) = false) →
  (process_file_in_place cfg ft tmp t aux_map fs).2 = fs
  ∧ (remove_auxiliary_code_in_file ft tmp t fs).2 = fs
  ∧ returned (process_file_in_place cfg ft tmp t aux_map fs).1
    = bool_decide (basename t ∉ skip_set) && os_access_w fs t
  ∧ returned (remove_auxiliary_code_in_file ft tmp t fs).1
    = bool_decide (basename t ∉ skip_set) && os_access_w fs t.
Proof.
  intros Hset. unfold process_file_in_place, remove_auxiliary_code_in_file.
  destruct (decide (basename t ∈ skip_set)) as [Hs|Hs].
  { rewrite bool_decide_eq_true_2 by done.
    rewrite (bool_decide_eq_false_2 (basename t ∉ skip_set)) by (by intros Hn). done. }
  rewrite bool_decide_eq_false_2 by done. rewrite bool_decide_eq_true_2 by done.
  destruct (os_access_w fs t); [|done]. cbn [negb andb].
  destruct (read_file_safely_some (file_bytes fs t)) as [lines Hr].
  rewrite Hr. destruct (Hset lines Hr) as [-> ->]. done.
Qed.

(** X23: over a directory in which neither pass finds a line to modify,
    both drivers of MainRime.py leave every file as it is, whatever would
    fail at a rewrite, and count as successes the tasks that are writable
    and not in the skip set. *)
Theorem batch_settled_directory (path : string) (walk : list (string * list string))
    (aux_map : gmap str str) (fs : fsys) :
  os_path_isfile fs path = false → walk_tasks os_path_join walk ≠ [] →
  (∀ t lines, t ∈ walk_tasks os_path_join walk →
     read_file_safely (file_bytes fs t) = Some lines →
     modified (refresh_lines cfg aux_map lines) = false
     ∧ modified (strip_lines lines) = false) →
  let done_count :=
    length (filter (λ t, bool_decide (basename t ∉ skip_set) && os_access_w fs t = true)
              (walk_tasks os_path_join walk)) in
  batch_remove_auxiliary_code os_path_join rewrite_of path walk fs = (fs, Some done_count)
  ∧ batch_refresh_dict_files cfg os_path_join rewrite_of path walk aux_map fs
    = (fs, Some done_count).
Proof.
  intros Hdir Hne Hset done_count.
  assert (Hfold : ∀ (call : fault → string → string → fsys → report * fsys) tasks n,
            (∀ t, t ∈ tasks →
               (call (rewrite_of t).1 (rewrite_of t).2 t fs).2 = fs
               ∧ returned (call (rewrite_of t).1 (rewrite_of t).2 t fs).1
                 = bool_decide (basename t ∉ skip_set) && os_access_w fs t) →
            foldl (batch_step rewrite_of call) (fs, n) tasks
            = (fs, (n + length (filter (λ t, bool_decide (basename t ∉ skip_set)
                                            && os_access_w fs t = true) tasks))%nat)).
  { intros call tasks. induction tasks as [|t ts IH]; intros n Hall.
    - cbn [foldl filter list_filter length]. by rewrite Nat.add_0_r.
    - cbn [foldl]. destruct (Hall t) as [Hfs Hret]; [by left|].
      unfold batch_step at 2. cbn [fst snd]. rewrite Hfs, Hret.
      rewrite IH by (intros t' Ht'; apply Hall; by right).
      f_equal. rewrite filter_cons.
      destruct (bool_decide (basename t ∉ skip_set) && os_access_w fs t) eqn:Hok.
      + rewrite decide_True by done. simpl. lia.
      + rewrite decide_False by done. done. }
  unfold batch_remove_auxiliary_code, batch_refresh_dict_files, batch.
  rewrite Hdir. cbv zeta. rewrite bool_decide_eq_false_2 by done.
  split.
  - rewrite (Hfold _ (walk_tasks os_path_join walk) 0%nat); [done|].
    intros t Ht.
    destruct (settled_call aux_map (rewrite_of t).1 (rewrite_of t).2 t fs)
      as (_ & Hfs & _ & Hret); [intros lines; by apply Hset|]. done.
  - rewrite (Hfold _ (walk_tasks os_path_join walk) 0%nat); [done|].
    intros t Ht.
    destruct (settled_call aux_map (rewrite_of t).1 (rewrite_of t).2 t fs)
      as (Hfs & _ & Hret & _); [intros lines; by apply Hset|]. done.
Qed.
End BatchFrame.

Lemma batch_frame_witness :
  let fs : fsys := {[ Demo.plain_path := Demo.plain_file; Demo.user_path := Demo.userdb_file ]} in
  (batch_remove_auxiliary_code (H0 := Demo.platform) Demo.posix_join Demo.move_fails
     "dicts" Demo.dicts_walk fs).1 !! Demo.user_path = fs !! Demo.user_path
  ∧ (batch_refresh_dict_files (H := Demo.pypinyin) (H0 := Demo.platform) shipped_config
       Demo.posix_join Demo.move_fails "dicts" Demo.dicts_walk Demo.aux_z fs).1
      !! Demo.user_path = fs !! Demo.user_path
  ∧ process_files_in_place (H := Demo.pypinyin) (H0 := Demo.platform) shipped_config
      Demo.posix_join Demo.move_fails "dicts" Demo.dicts_walk Demo.aux_z fs
      !! Demo.user_path = fs !! Demo.user_path.
Proof.
  intros fs.
  apply (batch_frame (H := Demo.pypinyin) (H0 := Demo.platform) shipped_config
           Demo.posix_join Demo.move_fails "dicts" Demo.dicts_walk Demo.aux_z fs
           Demo.user_path).
  - intros t. discriminate.
  - left. split; [discriminate|]. vm_compute.
    intros Hin. apply elem_of_cons in Hin as [Hin|Hin]; [discriminate|].
    by apply elem_of_nil in Hin.
Defined.

Lemma batch_settled_directory_witness :
  let fs : fsys := {[ Demo.plain_path := Demo.clean_file ]} in
  batch_remove_auxiliary_code (H0 := Demo.platform) Demo.posix_join Demo.move_fails
    "dicts" Demo.dicts_walk fs = (fs, Some 1%nat)
  ∧ batch_refresh_dict_files (H := Demo.pypinyin) (H0 := Demo.platform) Demo.toggles_off
      Demo.posix_join Demo.move_fails "dicts" Demo.dicts_walk Demo.aux_z fs
    = (fs, Some 1%nat).
Proof.
  intros fs.
  apply (batch_settled_directory (H := Demo.pypinyin) (H0 := Demo.platform) Demo.toggles_off
           Demo.posix_join Demo.move_fails "dicts" Demo.dicts_walk Demo.aux_z fs).
  - vm_compute. reflexivity.
  - vm_compute. discriminate.
  - intros t lines Ht Hr.
    assert (t = Demo.plain_path) as ->.
    { vm_compute in Ht. apply elem_of_cons in Ht as [Ht|Ht]; [exact Ht|].
      by apply elem_of_nil in Ht. }
    vm_compute in Hr. injection Hr as <-. split; vm_compute; reflexivity.
Defined.

(** ** The custom transcription loader *)

Lemma tab_free_piece (w : str) : Forall (λ c, (TAB =? c) = false) w → TAB ∉ w.
Proof.
  intros Hw Hin. rewrite Forall_forall in Hw. specialize (Hw _ Hin).
  by rewrite N.eqb_refl in Hw.
Qed.

Lemma custom_line_step_ok (maps : custom_maps) (line : str) :
  custom_maps_ok maps →
  ∃ maps', custom_line_step maps line = Some maps' ∧ custom_maps_ok maps'.
Proof.
  intros [Hs Hp]. unfold custom_line_step.
  pose proof (split_by_pieces (N.eqb TAB) (rstrip_lf line)) as Hpieces.
  pose proof (split_by_not_nil (N.eqb TAB) (rstrip_lf line)) as Hne.
  unfold split_on. destruct (split_by (N.eqb TAB) (rstrip_lf line)) as [|word py]; [done|].
  apply Forall_cons in Hpieces as [Hword _].
  destruct py as [|py0 rest].
  { rewrite bool_decide_eq_false_2 by (by intros Hn). cbn [negb]. by exists maps. }
  rewrite bool_decide_eq_true_2 by done. cbn [negb lookup list_lookup mbind option_bind].
  pose proof (py_split_tokens py0) as Htok.
  destruct (Nat.eqb_spec (length word) 1) as [Hlen|Hlen].
  - destruct word as [|c [|d word]]; try done. cbn [py_ord mbind option_bind].
    eexists. split; [done|]. split; cbn [s_map p_map]; [|done].
    intros k v Hk. apply lookup_insert_Some in Hk as [[<- <-]|[_ Hk]]; [|by apply Hs].
    split.
    + intros ->. apply Forall_cons in Hword as [Hc _]. by rewrite N.eqb_refl in Hc.
    + apply Forall_py_join; [by repeat constructor|].
      eapply Forall_impl; [exact Htok|]. by intros w [_ Hw].
  - eexists. split; [done|]. split; cbn [s_map p_map]; [done|].
    intros w v Hw. apply lookup_insert_Some in Hw as [[<- <-]|[_ Hw]]; [|by apply Hp].
    split; [done|]. split; [by apply tab_free_piece|].
    apply Forall_fmap. eapply Forall_impl; [exact Htok|].
    intros p [Hpne Hpw]. by exists p.
Qed.

(** X24: the loop of [load_custom_pinyin_from_directory] raises on no line
    (the unpacking always finds a word, and [ord] is only applied to one
    character), and whatever the lines it keeps the maps in shape: the
    single-character map is keyed by code points other than the tab and
    holds readings joined by commas without whitespace; the phrase map is
    keyed by words that are not one character long, the empty word included,
    and holds one singleton list per reading. *)
Theorem custom_loader_invariant (lines : list str) (maps : custom_maps) :
  custom_maps_ok maps →
  ∃ maps', load_custom_lines maps lines = Some maps' ∧ custom_maps_ok maps'.
Proof.
  revert maps. induction lines as [|line rest IH]; intros maps Hok.
  - by exists maps.
  - destruct (custom_line_step_ok maps line Hok) as (maps1 & Hstep & Hok1).
    destruct (IH maps1 Hok1) as (maps' & Hrest & Hok').
    exists maps'. split; [|done].
    cbn [load_custom_lines]. rewrite Hstep. exact Hrest.
Qed.

Lemma custom_loader_invariant_witness :
  ∃ maps', load_custom_lines no_custom Demo.custom_lines = Some maps'
           ∧ custom_maps_ok maps'.
Proof.
  apply (custom_loader_invariant Demo.custom_lines no_custom).
  split; intros k v Hk; cbn [no_custom s_map p_map] in Hk; by rewrite lookup_empty in Hk.
Defined.

(** ** The ad-hoc script *)

(** The per-line body of the script is the strip of MainRime.py in Plain
    mode, on every line. *)
Lemma variant_is_plain_strip (line : str) :
  variant_strip_line line = remove_auxiliary_code_from_line line false.
Proof.
  unfold variant_strip_line, remove_auxiliary_code_from_line. cbn [negb andb].
  by destruct (2 <=? length (split_on TAB line))%nat.
Qed.

Lemma script_step_out (st : bool * list str) (line : str) :
  ∃ out, (script_step st line).2 = st.2 ++ [out]
         ∧ (out = line ∨ out = remove_auxiliary_code_from_line line false)
         ∧ (st.1 = true ∨ startswith [HASH] (py_strip line) = true → out = line).
Proof.
  unfold script_step.
  destruct (bool_decide (py_strip line = lit "---")); [exists line; auto|].
  destruct (bool_decide (py_strip line = lit "...")); [exists line; auto|].
  destruct st.1 eqn:Hst; [exists line; auto|].
  destruct (startswith [HASH] (py_strip line)) eqn:Hh; [exists line; auto|].
  exists (variant_strip_line line). split; [done|].
  split; [right; apply variant_is_plain_strip|]. by intros [?|?].
Qed.

Lemma script_fold_snoc (ls : list str) (l : str) :
  script_lines (ls ++ [l]) = script_step (script_lines ls) l.
Proof. unfold script_lines. by rewrite foldl_snoc. Qed.

Lemma script_lines_length (lines : list str) :
  length (script_lines lines).2 = length lines.
Proof.
  induction lines as [|l ls IH] using rev_ind; [done|].
  rewrite script_fold_snoc.
  destruct (script_step_out (script_lines ls) l) as (out & -> & _).
  rewrite !length_app, IH. done.
Qed.

(** Inside the header: after a line that is [---], as long as no line is
    [...], the flag is set. *)
Lemma script_in_metadata (lines : list str) (j : nat) (start : str) :
  lines !! j = Some start → py_strip start = lit "---" →
  (∀ k x, (j < k)%nat → lines !! k = Some x → py_strip x ≠ lit "...") →
  (script_lines lines).1 = true.
Proof.
  induction lines as [|l ls IH] using rev_ind; intros Hj Hstart Hnone.
  - by rewrite lookup_nil in Hj.
  - rewrite script_fold_snoc. unfold script_step.
    apply lookup_app_Some in Hj as [Hj|[Hge Hj]].
    + pose proof (lookup_lt_Some _ _ _ Hj) as Hlt.
      assert (Hl : py_strip l ≠ lit "...").
      { apply (Hnone (length ls)); [lia|]. by rewrite list_lookup_middle. }
      case_bool_decide; [done|]. rewrite bool_decide_eq_false_2 by done.
      rewrite IH; [done|done|done|].
      intros k x Hk Hx. apply (Hnone k x Hk).
      apply lookup_app_Some. by left.
    + apply list_lookup_singleton_Some in Hj as [_ <-].
      by rewrite bool_decide_eq_true_2.
Qed.

Lemma script_lines_take (lines : list str) (i : nat) (l : str) :
  lines !! i = Some l →
  (script_lines lines).2 !! i
  = Some (default l (last (script_step (script_lines (take i lines)) l).2)).
Proof.
  induction lines as [|x ls IH] using rev_ind; intros Hi.
  - by rewrite lookup_nil in Hi.
  - rewrite script_fold_snoc.
    destruct (script_step_out (script_lines ls) x) as (out & Hout & _).
    apply lookup_app_Some in Hi as [Hi|[Hge Hi]].
    + pose proof (lookup_lt_Some _ _ _ Hi) as Hlt.
      rewrite Hout, lookup_app_l by (rewrite script_lines_length; lia).
      rewrite take_app_le by lia. by apply IH.
    + apply list_lookup_singleton_Some in Hi as [Hi <-].
      assert (i = length ls) as -> by lia.
      rewrite take_app_le, take_ge by lia.
      rewrite Hout, last_snoc. cbn [default].
      rewrite lookup_app_r by (rewrite script_lines_length; lia).
      by rewrite script_lines_length, Nat.sub_diag.
Qed.

(** X25: in the loop of remove_auxiliary_code.py, every line after a line
    that is [---] (whitespace around it aside) is written as it was read,
    up to the next line that is [...]: inside the header nothing is
    stripped, whatever the line holds. *)
Theorem script_header_untouched (lines : list str) (i j : nat) (start l : str) :
  (j < i)%nat → lines !! j = Some start → py_strip start = lit "---" →
  (∀ k x, (j < k < i)%nat → lines !! k = Some x → py_strip x ≠ lit "...") →
  lines !! i = Some l →
  (script_lines lines).2 !! i = Some l.
Proof.
  intros Hji Hj Hstart Hnone Hi.
  rewrite (script_lines_take lines i l Hi).
  assert (Hin : (script_lines (take i lines)).1 = true).
  { apply (script_in_metadata (take i lines) j start).
    - by rewrite lookup_take_lt by lia.
    - done.
    - intros k x Hk Hx.
      destruct (decide (k < i)%nat) as [Hlt|Hge].
      + rewrite lookup_take_lt in Hx by lia. apply (Hnone k x); [lia|done].
      + rewrite lookup_take_ge in Hx by lia. done. }
  destruct (script_step_out (script_lines (take i lines)) l) as (out & Hout & _ & Hkeep).
  rewrite Hout, last_snoc. cbn [default]. f_equal. apply Hkeep. by left.
Qed.

(** X26: the loop of remove_auxiliary_code.py writes one line per line
    read; each is the line itself or its strip by
    [remove_auxiliary_code_from_line] in Plain mode, and it is the line
    itself for a comment, indented or not, and for a line without a tab;
    the text written, the lines joined by line feeds with none at the end,
    splits back into exactly these lines. *)
Theorem script_text_lines (content : str) :
  let lines := split_on LF content in
  let out := (script_lines lines).2 in
  split_on LF (script_text content) = out
  ∧ length out = length lines
  ∧ ∀ i l, lines !! i = Some l →
      (out !! i = Some l ∨ out !! i = Some (remove_auxiliary_code_from_line l false))
      ∧ (startswith [HASH] (py_strip l) = true ∨ TAB ∉ l → out !! i = Some l).
Proof.
  intros lines out.
  assert (Hcases : ∀ i l, lines !! i = Some l →
      (out !! i = Some l ∨ out !! i = Some (remove_auxiliary_code_from_line l false))
      ∧ (startswith [HASH] (py_strip l) = true ∨ TAB ∉ l → out !! i = Some l)).
  { intros i l Hi. subst out. rewrite (script_lines_take lines i l Hi).
    destruct (script_step_out (script_lines (take i lines)) l)
      as (o & Hout & Hdisj & Hkeep).
    rewrite Hout, last_snoc. cbn [default]. split.
    - destruct Hdisj as [->| ->]; auto.
    - intros [Hh|Htab]; f_equal; [apply Hkeep; by right|].
      destruct Hdisj as [->| ->]; [done|].
      unfold remove_auxiliary_code_from_line. cbn [negb andb].
      assert (Hone : split_on TAB l = [l]).
      { apply split_by_clean. apply Forall_forall. intros c Hc.
        apply N.eqb_neq. by intros <-. }
      by rewrite Hone. }
  assert (Hlen : length out = length lines) by apply script_lines_length.
  split; [|done].
  unfold script_text. fold lines. fold out. unfold split_on.
  apply split_by_join; [apply N.eqb_refl| |].
  - intros Hnil. rewrite Hnil in Hlen.
    pose proof (split_by_not_nil (N.eqb LF) content) as Hne.
    subst lines. unfold split_on in Hlen. by destruct (split_by (N.eqb LF) content).
  - apply Forall_lookup. intros i o Ho.
    destruct (lines !! i) as [l|] eqn:Hl.
    2:{ apply lookup_ge_None in Hl. apply lookup_lt_Some in Ho. lia. }
    pose proof (Forall_lookup_1 _ _ _ _ (split_by_pieces (N.eqb LF) content) Hl) as Hfree.
    destruct (Hcases i l Hl) as [[Hsame|Hstrip] _].
    + by simplify_eq.
    + rewrite Hstrip in Ho. simplify_eq. by apply strip_chars.
Qed.

Lemma script_header_untouched_witness :
  (script_lines (split_on LF Demo.script_content)).2 !! 1%nat
  = Some (lit "name:" ++ [TAB] ++ lit "a;b").
Proof.
  apply (script_header_untouched (split_on LF Demo.script_content) 1 0 (lit "---")).
  - lia.
  - vm_compute. reflexivity.
  - vm_compute. reflexivity.
  - intros k x Hk. lia.
  - vm_compute. reflexivity.
Defined.

(** ** More of the refresh of one line *)


Lemma before_sep_sep_free (seg : str) : Forall (λ c, aux_sep c = false) (before_sep seg).
Proof.
  eapply Forall_impl; [apply take_while_holds|].
  intros c Hc. simpl in Hc. by apply negb_true_iff in Hc.
Qed.

Lemma aux_segment_root (aux_map : gmap str str) (word : str) (i : nat) (seg : str) :
  before_sep (aux_segment aux_map word i seg) = before_sep seg.
Proof.
  unfold aux_segment. apply before_sep_app; [apply before_sep_sep_free|].
  intros c Hc. simpl in Hc. by simplify_eq.
Qed.

Lemma aux_segments_fixed (aux_map : gmap str str) (word : str) (segs : list str) :
  imap (aux_segment aux_map word) (imap (aux_segment aux_map word) segs)
  = imap (aux_segment aux_map word) segs.
Proof.
  rewrite imap_imap. apply imap_ext. intros i seg _. simpl.
  unfold aux_segment at 1. by rewrite aux_segment_root.
Qed.

Lemma aux_code_at_chars (P : N → Prop) (aux_map : gmap str str) (word : str) (i : nat) :
  (∀ ch aux, aux_map !! ch = Some aux → Forall P aux) →
  Forall P (aux_code_at aux_map word i).
Proof.
  intros Hcodes. unfold aux_code_at. destruct (word !! i) as [ch|]; [|constructor].
  destruct (aux_map !! [ch]) as [aux|] eqn:Ha; [|constructor]. simpl. by eapply Hcodes.
Qed.

Lemma aux_segments_tokens (aux_map : gmap str str) (word : str) (segs : list str) :
  (∀ ch aux, aux_map !! ch = Some aux → Forall (λ c, isspace c = false) aux) →
  Forall (λ w, w ≠ [] ∧ Forall (λ c, isspace c = false) w) segs →
  Forall (λ w, w ≠ [] ∧ Forall (λ c, isspace c = false) w)
    (imap (aux_segment aux_map word) segs).
Proof.
  intros Hcodes Hsegs. apply Forall_lookup. intros i w Hw.
  rewrite list_lookup_imap in Hw. destruct (segs !! i) as [seg|] eqn:Hseg; [|done].
  simpl in Hw. simplify_eq.
  pose proof (Forall_lookup_1 _ _ _ _ Hsegs Hseg) as [_ Hws].
  unfold aux_segment. split.
  - by destruct (before_sep seg).
  - apply Forall_app. split; [by apply take_while_sub|].
    apply Forall_app. split; [by repeat constructor|]. by apply aux_code_at_chars.
Qed.

Section LineRefresh.
Context `{Pypinyin} `{Platform}.
Variable cfg : config.

(** X27: when the service raises on a word, the line loses its
    transcription refresh only: the columns come out as they would with the
    transcription refresh switched off, the auxiliary codes are still
    refreshed and the trailing space still added. *)
Theorem service_failure_isolated (userdb : bool) (aux_map : gmap str str) (word : str)
    (cols : list str) :
  char_py_of word = None →
  refresh_cols cfg userdb aux_map word cols
  = refresh_cols (pinyin_off cfg) userdb aux_map word cols.
Proof.
  intros Hfail.
  assert (Hp : after_pinyin cfg userdb word cols = cols).
  { unfold after_pinyin. destruct (REFRESH_PINYIN cfg && HAS_PYPINYIN cfg); [|done].
    unfold refresh_pinyin. rewrite Hfail.
    by destruct (userdb && (3 <=? length cols)%nat). }
  unfold refresh_cols. rewrite Hp. unfold after_pinyin, after_aux. by cbn.
Qed.

Hypothesis pinyin_on : REFRESH_PINYIN cfg = true.
Hypothesis has_pinyin : HAS_PYPINYIN cfg = true.
Hypothesis aux_on : REFRESH_AUX_CODE cfg = true.

End LineRefresh.

Section AuxOnly.
Context `{Pypinyin} `{Platform}.
Variable cfg : config.
Hypothesis pinyin_is_off : REFRESH_PINYIN cfg = false.
Hypothesis aux_on : REFRESH_AUX_CODE cfg = true.

(** X29: with the transcription refresh off and a table whose codes hold
    no whitespace, the refresh of a line that has its first two columns is
    idempotent, in both modes: run on its own output it returns the same
    columns. *)
Theorem aux_refresh_idempotent (userdb : bool) (aux_map : gmap str str) (word : str)
    (cols : list str) :
  aux_map ≠ ∅ →
  (∀ ch aux, aux_map !! ch = Some aux → Forall (λ c, isspace c = false) aux) →
  (2 ≤ length cols)%nat →
  refresh_cols cfg userdb aux_map word (refresh_cols cfg userdb aux_map word cols)
  = refresh_cols cfg userdb aux_map word cols.
Proof.
  intros Hmap Hcodes Hlen.
  assert (Hrun : ∀ c, refresh_cols cfg userdb aux_map word c
                      = userdb_trailing_space userdb
                          (cols_of (refresh_aux_code userdb word aux_map c))).
  { intros c. unfold refresh_cols, after_pinyin, after_aux.
    rewrite pinyin_is_off, aux_on. by rewrite bool_decide_eq_true_2 by done. }
  rewrite !Hrun. destruct userdb.
  - set (merged := imap (aux_segment aux_map word)
                     (py_split (py_strip (default [] (cols !! 0%nat))))).
    assert (Htok : Forall (λ w, w ≠ [] ∧ Forall (λ c, isspace c = false) w) merged).
    { apply aux_segments_tokens; [done | apply py_split_tokens]. }
    assert (Hlast : last (py_join [SPACE] merged) ≠ Some SPACE)
      by by apply joined_tokens_end.
    assert (Hfirst : userdb_trailing_space true
                       (cols_of (refresh_aux_code true word aux_map cols))
                     = <[0%nat := py_join [SPACE] merged ++ [SPACE]]> cols).
    { rewrite refresh_aux_code_userdb by done. cbn [cols_of]. fold merged.
      unfold userdb_trailing_space. cbn [andb].
      rewrite bool_decide_eq_true_2.
      2:{ intros Hnil. apply (f_equal length) in Hnil. rewrite length_insert in Hnil.
          simpl in Hnil. lia. }
      rewrite length_insert, (proj2 (Nat.ltb_lt 0 _)) by lia.
      rewrite list_lookup_insert_eq by lia. cbn [andb].
      rewrite endswith_space, bool_decide_eq_false_2 by done. cbn [negb].
      by rewrite list_insert_insert_eq. }
    rewrite Hfirst.
    rewrite refresh_aux_code_userdb by (rewrite length_insert; lia).
    rewrite list_lookup_insert_eq by lia. cbn [default cols_of]. unfold id.
    rewrite py_split_strip, py_split_app_spaces by (by repeat constructor).
    rewrite py_split_join by done.
    change (imap (λ i seg, before_sep seg ++ [SEMI] ++ aux_code_at aux_map word i) merged)
      with (imap (aux_segment aux_map word) merged).
    subst merged. rewrite aux_segments_fixed.
    set (merged := imap (aux_segment aux_map word) _) in *.
    rewrite list_insert_insert_eq.
    unfold userdb_trailing_space. cbn [andb].
    rewrite bool_decide_eq_true_2.
    2:{ intros Hnil. apply (f_equal length) in Hnil. rewrite length_insert in Hnil.
        simpl in Hnil. lia. }
    rewrite length_insert, (proj2 (Nat.ltb_lt 0 _)) by lia.
    rewrite list_lookup_insert_eq by lia. cbn [andb].
    rewrite endswith_space, bool_decide_eq_false_2 by done. cbn [negb].
    by rewrite list_insert_insert_eq.
  - cbn [userdb_trailing_space andb].
    set (merged := imap (aux_segment aux_map word)
                     (py_split (py_strip (default [] (cols !! 1%nat))))).
    assert (Htok : Forall (λ w, w ≠ [] ∧ Forall (λ c, isspace c = false) w) merged).
    { apply aux_segments_tokens; [done | apply py_split_tokens]. }
    rewrite (refresh_aux_code_plain word aux_map cols) by done. cbv zeta. fold merged.
    change (imap (λ i seg, before_sep seg ++ [SEMI] ++ aux_code_at aux_map word i)
              (py_split (py_strip (default [] (cols !! 1%nat)))))
      with merged.
    destruct (decide (merged = [])) as [Hnil|Hne].
    + rewrite (bool_decide_eq_false_2 (merged ≠ [])) by (by intros Hn). cbn [cols_of].
      rewrite (refresh_aux_code_plain word aux_map cols) by done. cbv zeta.
      change (imap (λ i seg, before_sep seg ++ [SEMI] ++ aux_code_at aux_map word i)
                (py_split (py_strip (default [] (cols !! 1%nat)))))
        with merged.
      by rewrite (bool_decide_eq_false_2 (merged ≠ [])) by (by intros Hn).
    + rewrite (bool_decide_eq_true_2 (merged ≠ [])) by done. cbn [cols_of].
      rewrite refresh_aux_code_plain by (rewrite length_insert; lia). cbv zeta.
      rewrite list_lookup_insert_eq by lia. cbn [default]. unfold id.
      rewrite py_split_strip, py_split_join by done.
      change (imap (λ i seg, before_sep seg ++ [SEMI] ++ aux_code_at aux_map word i) merged)
        with (imap (aux_segment aux_map word) merged).
      subst merged. rewrite aux_segments_fixed.
      set (merged := imap (aux_segment aux_map word) _) in *.
      rewrite (bool_decide_eq_true_2 (merged ≠ [])) by done. cbn [cols_of].
      by rewrite list_insert_insert_eq.
Qed.
End AuxOnly.

Lemma service_failure_isolated_witness :
  refresh_cols (H := Demo.broken_pypinyin) (H0 := Demo.platform) shipped_config false
    Demo.aux_z Demo.NI [Demo.NI; lit "ni;x"]
  = refresh_cols (H := Demo.broken_pypinyin) (H0 := Demo.platform)
      (pinyin_off shipped_config) false Demo.aux_z Demo.NI [Demo.NI; lit "ni;x"].
Proof.
  apply (service_failure_isolated (H := Demo.broken_pypinyin) (H0 := Demo.platform)
           shipped_config false Demo.aux_z Demo.NI [Demo.NI; lit "ni;x"]).
  vm_compute. reflexivity.
Defined.


Lemma aux_refresh_idempotent_witness :
  let once := refresh_cols (H := Demo.pypinyin) (H0 := Demo.platform) Demo.aux_only true
                Demo.aux_z Demo.NI [lit "ni;x"; Demo.NI; lit "1"] in
  refresh_cols (H := Demo.pypinyin) (H0 := Demo.platform) Demo.aux_only true Demo.aux_z
    Demo.NI once = once.
Proof.
  apply (aux_refresh_idempotent (H := Demo.pypinyin) (H0 := Demo.platform) Demo.aux_only
           eq_refl eq_refl true Demo.aux_z Demo.NI [lit "ni;x"; Demo.NI; lit "1"]).
  - intros Heq. apply (f_equal (lookup Demo.NI)) in Heq. vm_compute in Heq. discriminate.
  - intros ch aux Hch. unfold Demo.aux_z in Hch.
    apply lookup_singleton_Some in Hch as [_ <-]. by repeat constructor.
  - simpl. lia.
Defined.
